(** * Brent oil change-point analysis: the Bayesian change-point model

    A shallow embedding of [src/change_point_model.py] (class
    [BayesianChangePointModel]) and the properties of its construction,
    its model graphs, sampling, summarizer, convergence check, impact
    analysis and persistence.

    Numbers are IEEE 754 binary64 values, as NumPy's [float64] and Python's
    [float] are: [spec_float] of the Standard Library with precision 53 and
    maximal exponent 1024.  Python integers are [Z]. Dictionaries are
    finite maps. Exceptions are an explicit error result. *)

From Stdlib Require Import ZArith List Bool Lia String Sorted.
From Stdlib Require Import Floats.SpecFloat.
From stdpp Require Import base option list gmap strings.

Local Open Scope Z_scope.

(** ** binary64 arithmetic *)

Module F64.

Definition prec : Z := 53.
Definition emax : Z := 1024.

Abbreviation float := spec_float.

Definition add : float -> float -> float := SFadd prec emax.
Definition sub : float -> float -> float := SFsub prec emax.
Definition mul : float -> float -> float := SFmul prec emax.
Definition div : float -> float -> float := SFdiv prec emax.
Definition sqrt : float -> float := SFsqrt prec emax.
Definition ltb : float -> float -> bool := SFltb.
Definition leb : float -> float -> bool := SFleb.
Definition eqb : float -> float -> bool := SFeqb.

(** Conversion of an integer, rounded to nearest even when it does not fit. *)
Definition of_Z (z : Z) : float := binary_normalize prec emax z 0 false.

Definition zero : float := S754_zero false.
Definition nan : float := S754_nan.

Definition is_nan (x : float) : bool :=
  match x with S754_nan => true | _ => false end.

Definition is_inf (x : float) : bool :=
  match x with S754_infinity _ => true | _ => false end.

Definition is_zero (x : float) : bool :=
  match x with S754_zero _ => true | _ => false end.

(** The magnitude of a finite value [m * 2^e], rounded toward zero. *)
Definition trunc_mag (m : positive) (e : Z) : Z :=
  match e with
  | Z0 => Zpos m
  | Zpos p => Z.shiftl (Zpos m) (Zpos p)
  | Zneg p => Z.shiftr (Zpos m) (Zpos p)
  end.

(** The integer part of a value, [None] for NaN and infinities. *)
Definition trunc (x : float) : option Z :=
  match x with
  | S754_zero _ => Some 0
  | S754_finite s m e => Some (cond_Zopp s (trunc_mag m e))
  | S754_infinity _ | S754_nan => None
  end.

(** The nearest integer, ties to even, as Python's [round] and NumPy's
    [rint] give it; [None] for NaN and infinities. *)
Definition nearest (x : float) : option Z :=
  match x with
  | S754_zero _ => Some 0
  | S754_finite s m e =>
      match e with
      | Zneg p =>
          let d := Z.shiftl 1 (Zpos p) in
          let q := Zpos m / d in
          let r := Zpos m mod d in
          Some (cond_Zopp s
                  (match 2 * r ?= d with
                   | Lt => q
                   | Gt => q + 1
                   | Eq => if Z.even q then q else q + 1
                   end))
      | _ => Some (cond_Zopp s (trunc_mag m e))
      end
  | S754_infinity _ | S754_nan => None
  end.

(** The C cast of a double to a 64-bit integer, as [astype(int)] performs
    it on x86-64: truncation, and the "integer indefinite" value [-2^63]
    when the value is NaN, infinite or out of range. *)
Definition int64_min : Z := - 2 ^ 63.

Definition to_int64 (x : float) : Z :=
  match trunc x with
  | Some z => if (int64_min <=? z) && (z <? 2 ^ 63) then z else int64_min
  | None => int64_min
  end.

(** Literals of the source, each the binary64 value nearest to the decimal. *)
Definition f0_02 : float := Eval vm_compute in div (of_Z 2) (of_Z 100).
Definition f0_05 : float := Eval vm_compute in div (of_Z 5) (of_Z 100).
Definition f0_95 : float := Eval vm_compute in div (of_Z 95) (of_Z 100).
Definition f0_99 : float := Eval vm_compute in div (of_Z 99) (of_Z 100).
Definition f1_01 : float := Eval vm_compute in div (of_Z 101) (of_Z 100).
Definition f1 : float := Eval vm_compute in of_Z 1.
Definition f100 : float := Eval vm_compute in of_Z 100.
Definition f400 : float := Eval vm_compute in of_Z 400.









End F64.

Abbreviation float := spec_float.

(** ** Python values, exceptions and sequences *)

Module Py.

Inductive exn :=
| ValueError (msg : string)
| IndexError
| KeyError (key : string)
| OverflowError
| AttributeError
| TypeError.

Inductive result (A : Type) :=
| Ok (a : A)
| Raise (e : exn).
Arguments Ok {A} a.
Arguments Raise {A} e.

Definition bind {A B} (r : result A) (k : A -> result B) : result B :=
  match r with
  | Ok a => k a
  | Raise e => Raise e
  end.

Notation "x <- r ;; k" := (bind r (fun x => k))
  (at level 100, r at next level, right associativity).

Fixpoint mapM {A B} (f : A -> result B) (l : list A) : result (list B) :=
  match l with
  | [] => Ok []
  | a :: l' => b <- f a ;; bs <- mapM f l' ;; Ok (b :: bs)
  end.

Definition len {A} (l : list A) : Z := Z.of_nat (length l).

(** [l[i]] for an integer [i]: negative indices count from the end, and an
    index outside [-len, len) raises [IndexError]. *)
Definition index {A} (l : list A) (i : Z) : result A :=
  let j := if i <? 0 then i + len l else i in
  if j <? 0 then Raise IndexError
  else match l !! Z.to_nat j with
       | Some a => Ok a
       | None => Raise IndexError
       end.

(** The bound of a slice: negative bounds count from the end, then the
    bound is clipped to [0, len]. *)
Definition slice_bound (n i : Z) : Z :=
  let j := if i <? 0 then i + n else i in
  Z.max 0 (Z.min n j).

(** [l[a:b]] *)
Definition slice {A} (l : list A) (a b : Z) : list A :=
  let a' := slice_bound (len l) a in
  let b' := slice_bound (len l) b in
  take (Z.to_nat (b' - a')) (drop (Z.to_nat a') l).

(** [int(x)] for a float [x]: truncation toward zero; NaN and the
    infinities raise. *)
Definition int (x : float) : result Z :=
  match x with
  | S754_nan => Raise (ValueError "cannot convert float NaN to integer")
  | S754_infinity _ => Raise OverflowError
  | _ => match F64.trunc x with
         | Some z => Ok z
         | None => Raise OverflowError
         end
  end.

(** [d[k]] for a dict [d]. *)
Definition getitem {V} (d : gmap string V) (k : string) : result V :=
  match d !! k with
  | Some v => Ok v
  | None => Raise (KeyError k)
  end.

(** [d.update(e)]: the entries of [e] replace those of [d]. *)
Definition update {V} (d e : gmap string V) : gmap string V := e ∪ d.

End Py.

Import Py.

(** ** NumPy, SciPy and ArviZ reductions over one-dimensional arrays *)

Module Np.

(** [np.add.reduce] over a contiguous array of 64-bit floats, as NumPy's
    inner loop computes it. Fewer than eight elements are added from the
    left. Up to 128 elements are added in eight lanes, lane [j] taking the
    elements at the positions [j], [j + 8], ...; the lanes are then added in
    pairs and the elements past the last full row of eight are added from
    the left. A longer array is split near its middle, at a multiple of
    eight, and the sums of the two parts are added. *)
Fixpoint lane_sums (r a : list float) (turns : nat) : list float * list float :=
  match turns with
  | O => (r, a)
  | S turns' => lane_sums (zip_with F64.add r (take 8 a)) (drop 8 a) turns'
  end.

Definition block_sum (a : list float) : float :=
  match lane_sums (take 8 a) (drop 8 a) (length a / 8 - 1) with
  | ([r0; r1; r2; r3; r4; r5; r6; r7], rest) =>
      fold_left F64.add rest
        (F64.add (F64.add (F64.add r0 r1) (F64.add r2 r3))
                 (F64.add (F64.add r4 r5) (F64.add r6 r7)))
  | _ => F64.nan
  end.

(** The recursion halves the array, so that [fuel] equal to the length of
    the array is never used up. *)
Fixpoint pairwise_sum (fuel : nat) (a : list float) : float :=
  let n := length a in
  if (n <? 8)%nat then fold_left F64.add a F64.zero
  else if (n <=? 128)%nat then block_sum a
  else match fuel with
       | O => F64.nan
       | S fuel' =>
           let n2 := (n / 2)%nat in
           let n2 := (n2 - n2 mod 8)%nat in
           F64.add (pairwise_sum fuel' (take n2 a)) (pairwise_sum fuel' (drop n2 a))
       end.

(** [a.sum()] for an array of 64-bit floats: the result starts at zero and
    the whole array is added to it in one call of the inner loop. (The zero
    is the positive one; releases of NumPy differ in the sign that they give
    a sum of negative zeros.) *)
Definition sum (a : list float) : float :=
  F64.add F64.zero (pairwise_sum (length a) a).

(** The number of elements that the buffer of a reduction holds
    ([np.getbufsize()]). *)
Definition bufsize : nat := Z.to_nat 8192.

(** [a.sum(dtype=float64)] for an array of another type, here of 64-bit
    integers already converted: the elements pass through the buffer, and
    the inner loop is called on one filling of the buffer after the other. *)
Fixpoint buffered_sum (fuel : nat) (acc : float) (a : list float) : float :=
  match fuel, a with
  | _, [] => acc
  | O, _ => acc
  | S fuel', _ =>
      let chunk := take bufsize a in
      buffered_sum fuel' (F64.add acc (pairwise_sum (length chunk) chunk))
        (drop bufsize a)
  end.

Definition sum_cast (a : list float) : float :=
  buffered_sum (length a) F64.zero a.

(** [a.mean()]: the sum divided by the count; NaN for an empty array. *)
Definition mean (a : list float) : float :=
  F64.div (sum a) (F64.of_Z (len a)).

(** [a.mean()] for an array of integers, converted as it is summed. *)
Definition mean_cast (a : list float) : float :=
  F64.div (sum_cast a) (F64.of_Z (len a)).

(** [a.std()]: the population standard deviation (ddof = 0). *)
Definition std (a : list float) : float :=
  let m := mean a in
  let d := map (fun x => F64.sub x m) a in
  F64.sqrt (F64.div (sum (map (fun x => F64.mul x x) d)) (F64.of_Z (len a))).

(** [np.cumsum(a)] *)
Fixpoint cumsum_from (acc : float) (a : list float) : list float :=
  match a with
  | [] => []
  | x :: a' => let s := F64.add acc x in s :: cumsum_from s a'
  end.

Definition cumsum (a : list float) : list float :=
  match a with
  | [] => []
  | x :: a' => x :: cumsum_from x a'
  end.

(** [np.sort(a)]: ascending, NaN last. *)
Definition before (x y : float) : bool :=
  if F64.is_nan y then true else if F64.is_nan x then false else F64.leb x y.

Fixpoint insert_sorted (x : float) (a : list float) : list float :=
  match a with
  | [] => [x]
  | y :: a' => if before x y then x :: y :: a' else y :: insert_sorted x a'
  end.

Definition sort (a : list float) : list float := fold_right insert_sorted [] a.

(** [np.median(a)]: the middle element of the sorted array, the mean of the
    two middle ones for an even count; NaN if a NaN is present or the array
    is empty. *)
Definition median (a : list float) : float :=
  let s := sort a in
  let n := length s in
  if existsb F64.is_nan s then F64.nan
  else if Nat.even n
  then match s !! (n / 2 - 1)%nat, s !! (n / 2)%nat with
       | Some x, Some y => mean [x; y]
       | _, _ => F64.nan
       end
  else default F64.nan (s !! (n / 2)%nat).

(** [np.argmin(a)]: the first position of the least element. *)
Fixpoint argmin_from (best : float) (bi i : nat) (a : list float) : nat :=
  match a with
  | [] => bi
  | x :: a' => if F64.ltb x best then argmin_from x i (S i) a'
               else argmin_from best bi (S i) a'
  end.

Definition argmin (a : list float) : nat :=
  match a with
  | [] => 0%nat
  | x :: a' => argmin_from x 0 1 a'
  end.

(** [a.max()] and [a.min()] of a pandas column: NaN entries are skipped,
    and the result is NaN when nothing is left. *)
Definition pd_max (a : list float) : float :=
  fold_left (fun acc x =>
               if F64.is_nan x then acc
               else if F64.is_nan acc then x
               else if F64.ltb acc x then x else acc) a F64.nan.

Definition pd_min (a : list float) : float :=
  fold_left (fun acc x =>
               if F64.is_nan x then acc
               else if F64.is_nan acc then x
               else if F64.ltb x acc then x else acc) a F64.nan.

End Np.

Module Stats.

(** The number of entries of [a] equal to [x]. *)
Definition count (x : float) (a : list float) : nat :=
  length (filter (fun y => F64.eqb x y = true) a).

(** [better a x y]: [x] is a better mode of [a] than [y], being more
    frequent, or as frequent and smaller. *)
Definition better (a : list float) (x y : float) : bool :=
  let cx := count x a in
  let cy := count y a in
  (cy <? cx)%nat || ((cx =? cy)%nat && F64.ltb x y).

(** [scipy.stats.mode(a)]: the most frequent value, the smallest one when
    several are as frequent; NaN for an empty array. *)
Definition mode (a : list float) : float :=
  match a with
  | [] => F64.nan
  | x :: a' => fold_left (fun best y => if better a y best then y else best) a' x
  end.

End Stats.

Module Az.

(** [az.hdi(a, hdi_prob)]: among the intervals between two order statistics
    that span [floor(hdi_prob * n)] positions, the first narrowest one. *)
Definition hdi (a : list float) (hdi_prob : float) : result (float * float) :=
  let s := Np.sort a in
  let n := length s in
  inc <- Py.int (F64.mul hdi_prob (F64.of_Z (Z.of_nat n))) ;;
  let inc := Z.to_nat inc in
  let n_intervals := (n - inc)%nat in
  let width := zip_with F64.sub (drop inc s) (take n_intervals s) in
  match width with
  | [] => Raise (ValueError "Too few elements for interval calculation. ")
  | _ =>
      let i := Np.argmin width in
      match s !! i, s !! (i + inc)%nat with
      | Some lo, Some hi => Ok (lo, hi)
      | _, _ => Raise IndexError
      end
  end.

End Az.

(** ** The data of the class *)

(** A calendar date, as a day number. *)
Definition date := Z.

(** A posterior variable: an array of 64-bit floats or integers, stored in
    row-major order with its shape [chain; draw; ...]. *)
Inductive ndarray :=
| Float64 (shape : list nat) (flat : list float)
| Int64 (shape : list nat) (flat : list Z).

Definition shape (a : ndarray) : list nat :=
  match a with Float64 sh _ | Int64 sh _ => sh end.

(** The elements as floats, as every reduction below first converts them. *)
Definition as_float64 (a : ndarray) : list float :=
  match a with
  | Float64 _ v => v
  | Int64 _ v => map F64.of_Z v
  end.

(** [a.mean()]: an array of integers is converted as it is summed. *)
Definition mean_of (a : ndarray) : float :=
  match a with
  | Float64 _ v => Np.mean v
  | Int64 _ v => Np.mean_cast (map F64.of_Z v)
  end.

(** [a.flatten()] *)
Definition flatten (a : ndarray) : ndarray :=
  match a with
  | Float64 _ v => Float64 [length v] v
  | Int64 _ v => Int64 [length v] v
  end.

(** Every [k]-th block of [r] elements, starting with block [i]: the
    positions of [a[:, :, i]] in an array whose third axis has size [k] and
    whose trailing axes hold [r] elements. *)
Fixpoint strided {A} (rows k i r : nat) (v : list A) : list A :=
  match rows with
  | O => []
  | S rows' => take r (drop (i * r) v) ++ strided rows' k i r (drop (k * r) v)
  end.

(** [a[:, :, i].flatten()] *)
Definition select_axis2 (a : ndarray) (i : nat) : ndarray :=
  match shape a with
  | c :: d :: k :: rest =>
      let r := foldr Nat.mul 1%nat rest in
      match a with
      | Float64 _ v => let w := strided (c * d) k i r v in Float64 [length w] w
      | Int64 _ v => let w := strided (c * d) k i r v in Int64 [length w] w
      end
  | _ => flatten a
  end.

(** [trace.posterior]: the variables of the trace by name. *)
Record InferenceData := { idata_posterior : gmap string ndarray }.

(** A row of [az.summary(trace)], with the columns the class reads. *)
Record SummaryRow := {
  sr_param : string;
  sr_sd : float;
  sr_mcse_mean : float;
  sr_ess_bulk : float;
  sr_r_hat : float
}.

Inductive scalar :=
| SStr (s : string)
| SInt (z : Z)
| SFloat (x : float).

Inductive cfgval :=
| CStr (s : string)
| CDict (d : gmap string scalar).

(** *** The model graph *)

Inductive tensor :=
| TFloat (x : float)
| TInt (z : Z)
| TData (a : list float)
| TArange (n : Z)
| TVar (name : string)
| TAdd (a b : tensor)
| TSub (a b : tensor)
| TMul (a b : tensor)
| TDiv (a b : tensor)
| TSigmoid (a : tensor)
| TCumsum (a : tensor)
| TAstypeInt (a : tensor).

Inductive dist :=
| Normal (mu sigma : tensor)
| Exponential (lam : tensor)
| HalfNormal (sigma : tensor)
| Dirichlet (a : list float).

Inductive node :=
| RV (name : string) (d : dist) (shape : option Z)
| Deterministic (name : string) (t : tensor)
| Observed (name : string) (d : dist) (data : list float).

Definition Model := list node.

Record BayesianChangePointModel := {
  data : list float;
  dates : list date;
  n_obs : Z;
  config : gmap string cfgval;
  model : option Model;
  trace : option InferenceData;
  summary : option (list SummaryRow);
  posterior : option (gmap string ndarray)
}.

(** *** The results *)

Record SinglePosterior := {
  sp_samples : ndarray;
  sp_dates : list date;
  sp_mean : Z;
  sp_median : Z;
  sp_mode : Z;
  sp_mean_date : date;
  sp_median_date : date;
  sp_mode_date : date;
  sp_hdi_95 : float * float;
  sp_hdi_95_dates : date * date
}.

Record ChangePoint := {
  cp_index : Z;
  cp_samples : ndarray;
  cp_mean : Z;
  cp_mean_date : date;
  cp_hdi_95 : float * float
}.

Inductive PosteriorInfo :=
| Single (p : SinglePosterior)
| Multiple (change_points : list ChangePoint).

Record Diagnostics := {
  rhat_max : float;
  rhat_converged : bool;
  ess_min : float;
  ess_sufficient : bool;
  trace_plots_ok : bool;
  mcse_ratio_max : float
}.

Record WindowStats := {
  ws_mean : float;
  ws_std : float;
  ws_n_obs : Z
}.

Record ImpactMetrics := {
  mean_change : float;
  percent_change : float;
  volatility_change : float;
  effect_size : float
}.

Record SingleImpact := {
  si_change_point_index : Z;
  si_change_point_date : date;
  si_before : WindowStats;
  si_after : WindowStats;
  si_impact : ImpactMetrics
}.

Record MultiImpact := {
  mi_change_point_index : Z;
  mi_change_point_date : date;
  mi_before_mean : float;
  mi_after_mean : float;
  mi_mean_change : float;
  mi_percent_change : float
}.

Inductive Impact :=
| ImpactSingle (i : SingleImpact)
| ImpactMultiple (multiple_change_points : list MultiImpact).

(** ** The values of the model graph for one posterior draw *)

Inductive value :=
| VFloat (v : list float)
| VInt (v : list Z).

Definition floats (v : value) : list float :=
  match v with
  | VFloat v => v
  | VInt v => map F64.of_Z v
  end.

(** Element-wise operation with NumPy's broadcasting of a single element. *)
Definition broadcast (f : float -> float -> float) (a b : list float)
  : option (list float) :=
  match a, b with
  | [x], _ => Some (map (f x) b)
  | _, [y] => Some (map (fun x => f x y) a)
  | _, _ => if (length a =? length b)%nat then Some (zip_with f a b) else None
  end.

Definition arange (n : Z) : list Z := map Z.of_nat (seq 0 (Z.to_nat n)).

Section Eval.

(** The logistic function of the tensor library. *)
Variable sigmoid : float -> float.

Fixpoint eval (env : gmap string value) (t : tensor) : option value :=
  let binop f a b :=
    va ← eval env a; vb ← eval env b;
    VFloat <$> broadcast f (floats va) (floats vb) in
  match t with
  | TFloat x => Some (VFloat [x])
  | TInt z => Some (VInt [z])
  | TData a => Some (VFloat a)
  | TArange n => Some (VInt (arange n))
  | TVar name => env !! name
  | TAdd a b => binop F64.add a b
  | TSub a b => binop F64.sub a b
  | TMul a b => binop F64.mul a b
  | TDiv a b => binop F64.div a b
  | TSigmoid a => va ← eval env a; Some (VFloat (map sigmoid (floats va)))
  | TCumsum a => va ← eval env a; Some (VFloat (Np.cumsum (floats va)))
  | TAstypeInt a =>
      va ← eval env a;
      Some (match va with
            | VInt v => VInt v
            | VFloat v => VInt (map F64.to_int64 v)
            end)
  end.

End Eval.

(** The tensor that a named deterministic node of a model holds. *)
Fixpoint deterministic (m : Model) (name : string) : option tensor :=
  match m with
  | [] => None
  | Deterministic n t :: m' =>
      if String.eqb n name then Some t else deterministic m' name
  | _ :: m' => deterministic m' name
  end.

(** The prior that a named random variable of a model has. *)
Fixpoint prior (m : Model) (name : string) : option dist :=
  match m with
  | [] => None
  | RV n d _ :: m' => if String.eqb n name then Some d else prior m' name
  | _ :: m' => prior m' name
  end.

(** ** The class [BayesianChangePointModel] *)

Definition default_config (n_obs : Z) : gmap string cfgval :=
  list_to_map
    [ ("model_type", CStr "single_change_point");
      ("tau_prior", CDict (list_to_map
         [("distribution", SStr "uniform"); ("lower", SInt 0); ("upper", SInt n_obs)]));
      ("mu_prior", CDict (list_to_map
         [("distribution", SStr "normal"); ("mu", SInt 0); ("sigma", SInt 1)]));
      ("sigma_prior", CDict (list_to_map
         [("distribution", SStr "halfnormal"); ("sigma", SInt 1)]));
      ("sampling", CDict (list_to_map
         [("draws", SInt 3000); ("tune", SInt 1000); ("chains", SInt 4);
          ("target_accept", SFloat F64.f0_99)]));
      ("convergence", CDict (list_to_map
         [("rhat_threshold", SFloat F64.f1_01); ("ess_threshold", SInt 400)])) ].

(** [__init__]: the observations that are not NaN, with their dates, and
    the default configuration with the user's entries over it. *)
Definition init (series : list (date * float))
  (model_config : option (gmap string cfgval)) : BayesianChangePointModel :=
  let kept := filter (fun dx => F64.is_nan (snd dx) = false) series in
  let n := len kept in
  {| data := map snd kept;
     dates := map fst kept;
     n_obs := n;
     config := match model_config with
               | Some c => Py.update (default_config n) c
               | None => default_config n
               end;
     model := None;
     trace := None;
     summary := None;
     posterior := None |}.

Definition set_model (self : BayesianChangePointModel) (m : Model)
  : BayesianChangePointModel :=
  {| data := data self; dates := dates self; n_obs := n_obs self;
     config := config self; model := Some m; trace := trace self;
     summary := summary self; posterior := posterior self |}.

Definition set_trace (self : BayesianChangePointModel) (t : InferenceData)
  (s : list SummaryRow) : BayesianChangePointModel :=
  {| data := data self; dates := dates self; n_obs := n_obs self;
     config := config self; model := model self; trace := Some t;
     summary := Some s; posterior := Some (idata_posterior t) |}.

(** [self.trace = t], the summary and the posterior being left as they are. *)
Definition store_trace (self : BayesianChangePointModel) (t : InferenceData)
  : BayesianChangePointModel :=
  {| data := data self; dates := dates self; n_obs := n_obs self;
     config := config self; model := model self; trace := Some t;
     summary := summary self; posterior := posterior self |}.

(** [a / b] for Python integers with [b] not zero. *)
Definition truediv (a b : Z) : float := F64.div (F64.of_Z a) (F64.of_Z b).

Definition single_graph (n_obs : Z) (observed : list float) : Model :=
  let t := TArange n_obs in
  let tau := TVar "tau" in
  let k := TVar "k" in
  let mu1 := TVar "mu1" in
  let mu2 := TVar "mu2" in
  let sigma := TVar "sigma" in
  let w := TSigmoid (TDiv (TSub t tau) k) in
  let mean := TAdd (TMul mu1 (TSub (TInt 1) w)) (TMul mu2 w) in
  [ RV "tau" (Normal (TFloat (truediv n_obs 2)) (TFloat (truediv n_obs 10))) None;
    RV "k" (Exponential (TFloat (truediv 1 5))) None;
    RV "mu1" (Normal (TInt 0) (TFloat F64.f0_02)) None;
    RV "mu2" (Normal (TInt 0) (TFloat F64.f0_02)) None;
    RV "sigma" (HalfNormal (TFloat F64.f0_05)) None;
    Observed "y" (Normal mean sigma) observed ].

Definition build_single_change_point_model (self : BayesianChangePointModel)
  : Model * BayesianChangePointModel :=
  let m := single_graph (n_obs self) (data self) in
  (m, set_model self m).

(** [np.ones(n)] and [np.zeros(n)] *)
Definition ones (n : Z) : list float := repeat F64.f1 (Z.to_nat n).

Definition zeros (n : Z) : list float := repeat F64.zero (Z.to_nat n).

(** What the loop of the builder handles while the model is built: values
    of the graph, which have no number yet. *)
Inductive symbolic :=
| Subscript (t : tensor) (i : Z)
| AtLeast (i : Z) (x : symbolic).

(** [bool(x)] for a value of the graph: the tensor library refuses to
    decide it. *)
Definition truth (x : symbolic) : result bool := Raise TypeError.

(** [mean_array[i] = x] for a value of the graph and an array of floats:
    NumPy cannot turn [x] into a float. *)
Definition setitem (mean_array : list float) (i : Z) (x : symbolic)
  : result (list float) :=
  Raise (ValueError "setting an array element with a sequence.").

(** The loop that is to fill [mean_array], run once while the model is
    built. *)
Fixpoint fill_mean_array (n_changepoints : Z) (changepoints mus : tensor)
  (positions : list Z) (segment_idx : Z) (mean_array : list float)
  : result (list float) :=
  match positions with
  | [] => Ok mean_array
  | i :: rest =>
      advance <- (if segment_idx <? n_changepoints
                  then truth (AtLeast i (Subscript changepoints segment_idx))
                  else Ok false) ;;
      let segment_idx := if advance : bool then segment_idx + 1 else segment_idx in
      mean_array <- setitem mean_array i (Subscript mus segment_idx) ;;
      fill_mean_array n_changepoints changepoints mus rest segment_idx mean_array
  end.

(** [pm.math.cumsum(taus * self.n_obs).astype(int)] *)
Definition changepoints_tensor (n_obs : Z) : tensor :=
  TAstypeInt (TCumsum (TMul (TVar "taus") (TInt n_obs))).

(** The nodes of the model with several change points that are there when
    the loop starts. *)
Definition multiple_priors (n_obs n_changepoints : Z) : Model :=
  [ RV "taus" (Dirichlet (ones (n_changepoints + 1))) None;
    Deterministic "changepoints" (changepoints_tensor n_obs);
    RV "mus" (Normal (TInt 0) (TInt 1)) (Some (n_changepoints + 1));
    RV "sigma" (HalfNormal (TInt 1)) None ].

(** The graph of the model with several change points, once the loop has
    left its array and [pm.Deterministic] has named it. *)
Definition multiple_graph (n_obs : Z) (observed : list float)
  (n_changepoints : Z) (mean : tensor) : Model :=
  multiple_priors n_obs n_changepoints
  ++ [ Deterministic "mean" mean;
       Observed "y" (Normal (TVar "mean") (TVar "sigma")) observed ].

Section Library.

(** Three calls into the libraries, each of which may raise:
    [pm.Deterministic(name, a)] for a NumPy array [a]; [pm.sample], the
    Markov chain Monte Carlo run, which returns an [InferenceData] with its
    posterior group, as it does by default; and [az.summary]. *)
Variable pm_deterministic : string -> list float -> result tensor.
Variable pm_sample : Model -> gmap string scalar -> result InferenceData.
Variable az_summary : InferenceData -> result (list SummaryRow).

Definition build_multiple_change_points_model (self : BayesianChangePointModel)
  (n_changepoints : Z) : result Model * BayesianChangePointModel :=
  if n_changepoints + 1 <? 0
  then (Raise (ValueError "negative dimensions are not allowed"), self)
  else match
         mean_array <- fill_mean_array n_changepoints
                         (changepoints_tensor (n_obs self)) (TVar "mus")
                         (arange (n_obs self)) 0 (zeros (n_obs self)) ;;
         pm_deterministic "mean" mean_array
       with
       | Raise e => (Raise e, self)
       | Ok mean =>
           let m := multiple_graph (n_obs self) (data self) n_changepoints mean in
           (Ok m, set_model self m)
       end.

(** The first part of [sample]: the model is built, and the keyword
    arguments left for the sampler are returned. *)
Definition sample_build (self : BayesianChangePointModel) (model_type : string)
  (kwargs : gmap string scalar)
  : result (Model * gmap string scalar) * BayesianChangePointModel :=
  if String.eqb model_type "single"
  then let '(m, self) := build_single_change_point_model self in
       (Ok (m, kwargs), self)
  else if String.eqb model_type "multiple"
  then match default (SInt 3) (kwargs !! "n_changepoints") with
       | SInt n_changepoints =>
           let kwargs := delete "n_changepoints" kwargs in
           let '(r, self) := build_multiple_change_points_model self n_changepoints in
           (m <- r ;; Ok (m, kwargs), self)
       | _ => (Raise TypeError, self)
       end
  else (Raise (ValueError ("Unknown model type: " ++ model_type)), self).

(** The second part of [sample]: the sampling parameters and the run. *)
Definition sample_run (self : BayesianChangePointModel) (m : Model)
  (kwargs : gmap string scalar) : result InferenceData :=
  sampling <- Py.getitem (config self) "sampling" ;;
  base <- match sampling with
          | CDict d => Ok d
          | CStr _ => Raise AttributeError
          end ;;
  let sampling_params := Py.update base kwargs in
  _ <- Py.getitem sampling_params "chains" ;;
  _ <- Py.getitem sampling_params "draws" ;;
  _ <- Py.getitem sampling_params "tune" ;;
  pm_sample m sampling_params.

(** [sample]: the trace is stored as soon as the sampler returns it, the
    summary once [az.summary] has returned, and the posterior group of the
    trace after that. *)
Definition sample (self : BayesianChangePointModel) (model_type : string)
  (kwargs : gmap string scalar)
  : result InferenceData * BayesianChangePointModel :=
  match sample_build self model_type kwargs with
  | (Raise e, self) => (Raise e, self)
  | (Ok (m, kwargs), self) =>
      match sample_run self m kwargs with
      | Raise e => (Raise e, self)
      | Ok t =>
          match az_summary t with
          | Raise e => (Raise e, store_trace self t)
          | Ok s => (Ok t, set_trace self t s)
          end
      end
  end.

End Library.

Definition no_trace {A} : result A :=
  Raise (ValueError "No trace available. Run sampling first.").

(** [self.config['convergence'][key]] as a number. *)
Definition threshold (self : BayesianChangePointModel) (key : string)
  : result float :=
  c <- Py.getitem (config self) "convergence" ;;
  match c with
  | CDict d =>
      v <- Py.getitem d key ;;
      match v with
      | SFloat x => Ok x
      | SInt z => Ok (F64.of_Z z)
      | SStr _ => Raise TypeError
      end
  | CStr _ => Raise TypeError
  end.

Definition check_convergence (self : BayesianChangePointModel)
  : result Diagnostics :=
  match trace self with
  | None => no_trace
  | Some _ =>
      match summary self with
      | None => Raise TypeError
      | Some s =>
          let rhat_max := Np.pd_max (map sr_r_hat s) in
          rhat_threshold <- threshold self "rhat_threshold" ;;
          let ess_min := Np.pd_min (map sr_ess_bulk s) in
          ess_threshold <- threshold self "ess_threshold" ;;
          Ok {| rhat_max := rhat_max;
                rhat_converged := F64.ltb rhat_max rhat_threshold;
                ess_min := ess_min;
                ess_sufficient := F64.ltb ess_threshold ess_min;
                trace_plots_ok := true;
                mcse_ratio_max :=
                  Np.pd_max (map (fun r => F64.div (sr_mcse_mean r) (sr_sd r)) s) |}
      end
  end.

(** [self.dates[i] if i < len(self.dates) else self.dates[-1]], for an
    integer [i]. *)
Definition date_at (dates : list date) (i : Z) : result date :=
  if i <? len dates then Py.index dates i else Py.index dates (-1).

(** [self.dates[int(t)] if t < len(self.dates) else self.dates[-1]], for a
    float [t]. *)
Definition date_at_float (dates : list date) (t : float) : result date :=
  if F64.ltb t (F64.of_Z (len dates))
  then i <- Py.int t ;; Py.index dates i
  else Py.index dates (-1).

Definition single_posterior (self : BayesianChangePointModel) (tau : ndarray)
  : result SinglePosterior :=
  let tau_samples := flatten tau in
  let ts := as_float64 tau_samples in
  tau_dates <- mapM (date_at_float (dates self)) ts ;;
  tau_mean <- Py.int (mean_of tau_samples) ;;
  tau_median <- Py.int (Np.median ts) ;;
  tau_mode <- Py.int (Stats.mode ts) ;;
  tau_hdi <- Az.hdi ts F64.f0_95 ;;
  mean_date <- date_at (dates self) tau_mean ;;
  median_date <- date_at (dates self) tau_median ;;
  mode_date <- date_at (dates self) tau_mode ;;
  hdi_lo <- date_at_float (dates self) (fst tau_hdi) ;;
  hdi_hi <- date_at_float (dates self) (snd tau_hdi) ;;
  Ok {| sp_samples := tau_samples;
        sp_dates := tau_dates;
        sp_mean := tau_mean;
        sp_median := tau_median;
        sp_mode := tau_mode;
        sp_mean_date := mean_date;
        sp_median_date := median_date;
        sp_mode_date := mode_date;
        sp_hdi_95 := tau_hdi;
        sp_hdi_95_dates := (hdi_lo, hdi_hi) |}.

Definition change_point (self : BayesianChangePointModel)
  (changepoint_samples : ndarray) (i : nat) : result ChangePoint :=
  let cp_samples := select_axis2 changepoint_samples i in
  cp_mean <- Py.int (mean_of cp_samples) ;;
  mean_date <- date_at (dates self) cp_mean ;;
  hdi <- Az.hdi (as_float64 cp_samples) F64.f0_95 ;;
  Ok {| cp_index := Z.of_nat i;
        cp_samples := cp_samples;
        cp_mean := cp_mean;
        cp_mean_date := mean_date;
        cp_hdi_95 := hdi |}.

Definition get_change_point_posterior (self : BayesianChangePointModel)
  : result PosteriorInfo :=
  match trace self with
  | None => no_trace
  | Some t =>
      match idata_posterior t !! "tau" with
      | Some tau => p <- single_posterior self tau ;; Ok (Single p)
      | None =>
          match idata_posterior t !! "changepoints" with
          | Some changepoint_samples =>
              match shape changepoint_samples !! 2%nat with
              | None => Raise IndexError
              | Some k =>
                  results <- mapM (change_point self changepoint_samples) (seq 0 k) ;;
                  Ok (Multiple results)
              end
          | None => Raise (ValueError "No change point variables found in trace")
          end
      end
  end.

Definition window_stats (w : list float) : WindowStats :=
  {| ws_mean := Np.mean w; ws_std := Np.std w; ws_n_obs := len w |}.

Definition single_impact (self : BayesianChangePointModel) (p : SinglePosterior)
  (window_before window_after : Z) : SingleImpact :=
  let tau_mode := sp_mode p in
  let before_data :=
    Py.slice (data self) (Z.max 0 (tau_mode - window_before)) tau_mode in
  let after_data :=
    Py.slice (data self) tau_mode (Z.min (len (data self)) (tau_mode + window_after)) in
  {| si_change_point_index := tau_mode;
     si_change_point_date := sp_mode_date p;
     si_before := window_stats before_data;
     si_after := window_stats after_data;
     si_impact :=
       {| mean_change := F64.sub (Np.mean after_data) (Np.mean before_data);
          percent_change :=
            F64.mul (F64.div (F64.sub (Np.mean after_data) (Np.mean before_data))
                       (Np.mean before_data)) F64.f100;
          volatility_change := F64.sub (Np.std after_data) (Np.std before_data);
          effect_size :=
            F64.div (F64.sub (Np.mean after_data) (Np.mean before_data))
              (Np.std before_data) |} |}.

Definition multi_impact (self : BayesianChangePointModel) (cp_info : ChangePoint)
  (window_before window_after : Z) : MultiImpact :=
  let cp_idx := cp_mean cp_info in
  let before_data :=
    Py.slice (data self) (Z.max 0 (cp_idx - window_before)) cp_idx in
  let after_data :=
    Py.slice (data self) cp_idx (Z.min (len (data self)) (cp_idx + window_after)) in
  {| mi_change_point_index := cp_idx;
     mi_change_point_date := cp_mean_date cp_info;
     mi_before_mean := Np.mean before_data;
     mi_after_mean := Np.mean after_data;
     mi_mean_change := F64.sub (Np.mean after_data) (Np.mean before_data);
     mi_percent_change :=
       F64.mul (F64.div (F64.sub (Np.mean after_data) (Np.mean before_data))
                  (Np.mean before_data)) F64.f100 |}.

Definition calculate_impact (self : BayesianChangePointModel)
  (window_before window_after : Z) : result Impact :=
  match trace self with
  | None => no_trace
  | Some _ =>
      change_point_info <- get_change_point_posterior self ;;
      match change_point_info with
      | Single p => Ok (ImpactSingle (single_impact self p window_before window_after))
      | Multiple cps =>
          Ok (ImpactMultiple
                (map (fun cp_info => multi_impact self cp_info window_before window_after) cps))
      end
  end.

(** [load_results]: the trace and the summary that are found on disk
    replace the current ones. *)
Definition load_results (self : BayesianChangePointModel)
  (trace_file : option InferenceData) (summary_file : option (list SummaryRow))
  : BayesianChangePointModel :=
  {| data := data self; dates := dates self; n_obs := n_obs self;
     config := config self; model := model self;
     trace := match trace_file with Some t => Some t | None => trace self end;
     summary := match summary_file with Some s => Some s | None => summary self end;
     posterior := posterior self |}.

(** ** Specification-level notions *)

(** The elements of [l] at the positions [i] with [lo <= i < hi]. *)
Definition window {A} (l : list A) (lo hi : Z) : list A :=
  map snd
    (filter (fun ix => lo <= Z.of_nat (fst ix) < hi) (zip (seq 0 (length l)) l)).

(** The place of a value that is not NaN in the order of [F64.ltb]: its
    class (the infinities at the ends, the zeros in the middle), then its
    exponent and its mantissa, both negated below zero. *)
Definition key (x : float) : Z * Z * Z :=
  match x with
  | S754_infinity true => (-2, 0, 0)
  | S754_finite true m e => (-1, - e, - Zpos m)
  | S754_zero _ => (0, 0, 0)
  | S754_nan => (0, 0, 0)
  | S754_finite false m e => (1, e, Zpos m)
  | S754_infinity false => (2, 0, 0)
  end.

Definition key_lt (a b : Z * Z * Z) : Prop :=
  let '(c1, e1, m1) := a in
  let '(c2, e2, m2) := b in
  c1 < c2 \/ (c1 = c2 /\ (e1 < e2 \/ (e1 = e2 /\ m1 < m2))).

Definition not_nan (x : float) : Prop := F64.is_nan x = false.

(** [b] is at least as good a mode of [a] as [y]: as frequent or more, and
    not above [y] when as frequent. *)
Definition at_least_as_good (a : list float) (y b : float) : Prop :=
  (Stats.count y a <= Stats.count b a)%nat
  /\ (Stats.count y a = Stats.count b a -> F64.ltb y b = false).

(** [v] is the mode of [a]: the most frequent entry, the least of the most
    frequent ones. *)
Definition is_mode (a : list float) (v : float) : Prop :=
  v ∈ a /\ forall x, x ∈ a -> at_least_as_good a x v.

(** ** Example inputs *)

Module Examples.

Definition series (xs : list Z) : list (date * float) :=
  imap (fun i x => (Z.of_nat i + 10, F64.of_Z x)) xs.

Definition tau_trace (draws : list float) : InferenceData :=
  {| idata_posterior := {[ "tau" := Float64 [1%nat; length draws] draws ]} |}.

Definition loaded (xs : list Z) (t : InferenceData) : BayesianChangePointModel :=
  load_results (init (series xs) None) (Some t) None.

Definition quarters (zs : list Z) : list float :=
  map (fun z => F64.div (F64.of_Z z) (F64.of_Z 4)) zs.

(** Two observations, 0 and 1, and one draw of the change point at 1. *)
Definition zero_before : BayesianChangePointModel :=
  loaded [0; 1] (tau_trace [F64.of_Z 1]).

(** Three observations and one draw of the change point at -10. *)
Definition negative_draw : BayesianChangePointModel :=
  loaded [0; 1; 1] (tau_trace [F64.of_Z (-10)]).

(** Three observations and one draw of the change point at -1. *)
Definition wrapped_draw : BayesianChangePointModel :=
  loaded [0; 1; 1] (tau_trace [F64.of_Z (-1)]).

(** Observations 100 and 110 around a change point at 1. *)
Definition ten_percent : BayesianChangePointModel :=
  loaded [100; 110] (tau_trace [F64.of_Z 1]).

(** Six draws: 3.5 twice, 1.25, 1.5, 1.75 and 4.75. *)
Definition skewed_pool : list float := quarters [14; 14; 5; 6; 7; 19].

Definition skewed : BayesianChangePointModel :=
  loaded [0; 1; 2; 3; 4; 5] (tau_trace skewed_pool).

(** A trace with a noise scale only. *)
Definition sigma_only : BayesianChangePointModel :=
  loaded [0; 1]
    {| idata_posterior := {[ "sigma" := Float64 [1%nat; 1%nat] [F64.f1] ]} |}.


(** Eight observations and a loaded trace whose ['changepoints'] variable
    has four entries per draw: one chain, two draws. *)
Definition three_change_points : BayesianChangePointModel :=
  loaded [0; 1; 2; 3; 4; 5; 6; 7]
    {| idata_posterior :=
         {[ "changepoints" := Int64 [1%nat; 2%nat; 4%nat] [2; 4; 6; 8; 1; 3; 5; 8] ]} |}.

Definition converged_summary : list SummaryRow :=
  [ {| sr_param := "tau"; sr_sd := F64.f1; sr_mcse_mean := F64.f0_02;
       sr_ess_bulk := F64.of_Z 500; sr_r_hat := F64.f1 |};
    {| sr_param := "sigma"; sr_sd := F64.f1; sr_mcse_mean := F64.f0_02;
       sr_ess_bulk := F64.of_Z 450; sr_r_hat := F64.f1 |} ].

Definition converged : BayesianChangePointModel :=
  load_results (init (series [0; 1]) None)
    (Some (tau_trace [F64.of_Z 1])) (Some converged_summary).

End Examples.


(** ** Persistence *)

(** What a file of the results directory holds: the value that was
    serialised into it, or what a write that failed has left. *)
Inductive payload :=
| SummaryCsv (s : list SummaryRow)
| TraceNetcdf (t : InferenceData)
| PosteriorPickle (i : PosteriorInfo)
| ImpactJson (i : Impact)
| Partial.

(** The disk: what the paths below the working directory hold, a path being
    the list of its components. *)
Inductive entry :=
| Dir
| File (p : payload).

Definition path := list string.

Definition FileSystem := gmap path entry.

(** What a step that touches the disk gives: a value, an exception of the
    analysis, or an [OSError] of the file system. *)
Inductive outcome (A : Type) :=
| Done (a : A)
| Failed (e : exn)
| OSError.
Arguments Done {A} a.
Arguments Failed {A} e.
Arguments OSError {A}.

Definition IO (A : Type) : Type := FileSystem -> outcome A * FileSystem.

Definition io_ret {A} (a : A) : IO A := fun fs => (Done a, fs).

Definition io_bind {A B} (m : IO A) (k : A -> IO B) : IO B :=
  fun fs =>
    match m fs with
    | (Done a, fs') => k a fs'
    | (Failed e, fs') => (Failed e, fs')
    | (OSError, fs') => (OSError, fs')
    end.

Notation "x <~ m ;; k" := (io_bind m (fun x => k))
  (at level 100, m at next level, right associativity).

(** A call of the analysis, which does not touch the disk. *)
Definition lift {A} (r : result A) : IO A :=
  fun fs => (match r with Ok a => Done a | Raise e => Failed e end, fs).

(** [if x is not None: ...] *)
Definition when_some {A} (o : option A) (f : A -> IO unit) : IO unit :=
  match o with
  | Some a => f a
  | None => io_ret tt
  end.

(** What a write that fails leaves of the file. *)
Inductive fault :=
| Untouched
| Damaged.

Section Disk.

(** What the operating system and the serialisers refuse for reasons of
    their own (permissions, a file that is held open, a full disk): the
    creation of a directory, and the writing of a file. *)
Variable mkdir_fault : path -> FileSystem -> bool.
Variable write_fault : path -> payload -> FileSystem -> option fault.

(** The directories [parent / c1], [parent / c1 / c2], ... are created where
    they are missing, the outer ones first; a regular file in the way is an
    error. The result tells whether all of them are there. *)
Fixpoint mkdir_from (fs : FileSystem) (parent rest : path) : bool * FileSystem :=
  match rest with
  | [] => (true, fs)
  | c :: rest' =>
      let p := parent ++ [c] in
      match fs !! p with
      | Some (File _) => (false, fs)
      | Some Dir => mkdir_from fs p rest'
      | None =>
          if mkdir_fault p fs then (false, fs)
          else mkdir_from (<[ p := Dir ]> fs) p rest'
      end
  end.

(** [Path(dir).mkdir(parents=True, exist_ok=True)] *)
Definition mkdir (dir : path) : IO unit :=
  fun fs =>
    match mkdir_from fs [] dir with
    | (true, fs') => (Done tt, fs')
    | (false, fs') => (OSError, fs')
    end.

(** A file is opened for writing and filled, replacing what it held; a
    directory of that name is an error. *)
Definition write (file : path) (p : payload) : IO unit :=
  fun fs =>
    match fs !! file with
    | Some Dir => (OSError, fs)
    | _ =>
        match write_fault file p fs with
        | None => (Done tt, <[ file := File p ]> fs)
        | Some Untouched => (OSError, fs)
        | Some Damaged => (OSError, <[ file := File Partial ]> fs)
        end
    end.

(** [save_results]: the summary and the trace that exist are written
    first, then the change points, then the impact with the default windows
    of thirty days. [output_dir] is the path by its components. The
    message printed at the end is left out. *)
Definition save_results (self : BayesianChangePointModel) (output_dir : path)
  : IO unit :=
  _ <~ mkdir output_dir ;;
  _ <~ when_some (summary self)
         (fun s => write (output_dir ++ ["model_summary.csv"]) (SummaryCsv s)) ;;
  _ <~ when_some (trace self)
         (fun t => write (output_dir ++ ["trace.netcdf"]) (TraceNetcdf t)) ;;
  cp_info <~ lift (get_change_point_posterior self) ;;
  _ <~ write (output_dir ++ ["change_points.pkl"]) (PosteriorPickle cp_info) ;;
  impact <~ lift (calculate_impact self 30 30) ;;
  write (output_dir ++ ["impact_analysis.json"]) (ImpactJson impact).

End Disk.

(** ** Further specification-level notions *)

(** The mean of the likelihood of a model: the first argument of the
    distribution of its observed node. *)
Fixpoint likelihood_mean (m : Model) : option tensor :=
  match m with
  | [] => None
  | Observed _ (Normal mu _) _ :: _ => Some mu
  | _ :: m' => likelihood_mean m'
  end.

(** The disk [fs] with the file [file] holding [p], when there is a [p]. *)
Definition with_file (o : option payload) (file : path) (fs : FileSystem)
  : FileSystem :=
  match o with
  | Some p => <[ file := File p ]> fs
  | None => fs
  end.

(** The files that [save_results] may write below [output_dir]. *)
Definition output_files (output_dir : path) : list path :=
  map (fun name => output_dir ++ [name])
    ["model_summary.csv"; "trace.netcdf"; "change_points.pkl";
     "impact_analysis.json"].

(** From the disk [fs] to the disk [fs'] every path is as it was, or a
    directory created on the way to [output_dir], or one of the output
    files, written where no directory was. *)
Definition touched_only (output_dir : path) (fs fs' : FileSystem) : Prop :=
  forall p : path,
    fs' !! p = fs !! p
    \/ (p `prefix_of` output_dir /\ fs !! p = None /\ fs' !! p = Some Dir)
    \/ (p ∈ output_files output_dir /\ fs !! p <> Some Dir
        /\ exists x, fs' !! p = Some (File x)).

(** ** Further example inputs *)

Module Cases.

(** A configuration whose convergence entry names one threshold only. *)
Definition partial_convergence : gmap string cfgval :=
  {[ "convergence" := CDict {[ "rhat_threshold" := SFloat F64.f1_01 ]} ]}.

(** A configuration whose sampling entry names the draws only. *)
Definition partial_sampling : gmap string cfgval :=
  {[ "sampling" := CDict {[ "draws" := SInt 100 ]} ]}.

Definition prices : list (date * float) :=
  Examples.series [3; 1; 4; 1; 5; 9; 2; 6].

(** Eight observations with a change point drawn at 3, 4 and 4. *)
Definition three_draws : BayesianChangePointModel :=
  Examples.loaded [3; 1; 4; 1; 5; 9; 2; 6]
    (Examples.tau_trace (map F64.of_Z [3; 4; 4])).

(** Eight observations with every draw of the change point at 9. *)
Definition beyond_end : BayesianChangePointModel :=
  Examples.loaded [3; 1; 4; 1; 5; 9; 2; 6]
    (Examples.tau_trace (map F64.of_Z [9; 9])).

(** A [pm.Deterministic] that takes the array as a constant of the graph. *)
Definition constant (name : string) (a : list float) : result tensor :=
  Ok (TData a).

(** A sampler that returns the trace of [three_draws], and a summary of
    two rows. *)
Definition sampler (m : Model) (params : gmap string scalar) : result InferenceData :=
  Ok (Examples.tau_trace (map F64.of_Z [3; 4; 4])).

Definition summarize (t : InferenceData) : result (list SummaryRow) :=
  Ok Examples.converged_summary.

(** A summary that cannot be computed. *)
Definition no_summary (t : InferenceData) : result (list SummaryRow) :=
  Raise (ValueError "cannot be converted to InferenceData").

(** A disk that refuses nothing, and one on which no file can be written. *)
Definition willing : path -> FileSystem -> bool := fun _ _ => false.

Definition writable : path -> payload -> FileSystem -> option fault :=
  fun _ _ _ => None.

Definition read_only : path -> payload -> FileSystem -> option fault :=
  fun _ _ _ => Some Untouched.

(** A disk on which an earlier run has left a summary. *)
Definition disk : FileSystem :=
  {[ ["models"] := Dir;
     ["models"; "saved"] := Dir;
     ["models"; "saved"; "model_summary.csv"] := File (SummaryCsv []) ]}.

(** The object of [three_draws] with a summary. *)
Definition sampled : BayesianChangePointModel :=
  load_results (init prices None)
    (Some (Examples.tau_trace (map F64.of_Z [3; 4; 4])))
    (Some Examples.converged_summary).

End Cases.
(** * Properties *)

(** ** Failure paths *)

Lemma bind_ok {A B} (r : result A) (k : A -> result B) (b : B) :
  (x <- r ;; k x) = Ok b -> exists a, r = Ok a /\ k a = Ok b.
Proof.
  destruct r as [a|e]; simpl; intros H; [eauto | discriminate].
Qed.

Lemma getitem_ok {V} (d : gmap string V) (k : string) (v : V) :
  d !! k = Some v -> Py.getitem d k = Ok v.
Proof. intros H. unfold Py.getitem. now rewrite H. Qed.

Lemma getitem_missing {V} (d : gmap string V) (k : string) :
  d !! k = None -> Py.getitem d k = Raise (KeyError k).
Proof. intros H. unfold Py.getitem. now rewrite H. Qed.

Lemma update_user {V} (d e : gmap string V) (k : string) (v : V) :
  e !! k = Some v -> Py.update d e !! k = Some v.
Proof. intros H. unfold Py.update. now apply lookup_union_Some_l. Qed.

Lemma update_default {V} (d e : gmap string V) (k : string) :
  e !! k = None -> Py.update d e !! k = d !! k.
Proof. intros H. unfold Py.update. now apply lookup_union_r. Qed.

Lemma posterior_ok_trace (self : BayesianChangePointModel) (i : PosteriorInfo) :
  get_change_point_posterior self = Ok i -> exists t, trace self = Some t.
Proof.
  unfold get_change_point_posterior.
  destruct (trace self) as [t|]; [eauto | discriminate].
Qed.

(** C8: a trace that holds neither ['tau'] nor ['changepoints'] makes the
    summarizer raise [ValueError], and the impact analysis, which calls it,
    raises the same error: no result is returned. *)
Theorem posterior_without_change_point_raises
  (self : BayesianChangePointModel) (t : InferenceData) :
  trace self = Some t ->
  idata_posterior t !! "tau" = None ->
  idata_posterior t !! "changepoints" = None ->
  get_change_point_posterior self
    = Raise (ValueError "No change point variables found in trace")
  /\ forall window_before window_after,
       calculate_impact self window_before window_after
         = Raise (ValueError "No change point variables found in trace").
Proof.
  intros Ht Htau Hcp.
  assert (Hget : get_change_point_posterior self
                 = Raise (ValueError "No change point variables found in trace")).
  { unfold get_change_point_posterior. rewrite Ht, Htau, Hcp. reflexivity. }
  split; [exact Hget |].
  intros wb wa. unfold calculate_impact. rewrite Ht, Hget. reflexivity.
Qed.

Lemma posterior_without_change_point_raises_witness :
  get_change_point_posterior Examples.sigma_only
    = Raise (ValueError "No change point variables found in trace")
  /\ forall window_before window_after,
       calculate_impact Examples.sigma_only window_before window_after
         = Raise (ValueError "No change point variables found in trace").
Proof.
  apply (posterior_without_change_point_raises Examples.sigma_only
           {| idata_posterior := {[ "sigma" := Float64 [1%nat; 1%nat] [F64.f1] ]} |});
    reflexivity.
Defined.

(** C9: a model type other than ['single'] and ['multiple'] makes [sample]
    raise [ValueError] whatever the sampler would do, and the object is
    left as it was: no model is built and no trace is stored. *)
Theorem sample_unknown_model_type
  (pm_deterministic : string -> list float -> result tensor)
  (pm_sample : Model -> gmap string scalar -> result InferenceData)
  (az_summary : InferenceData -> result (list SummaryRow))
  (self : BayesianChangePointModel) (model_type : string)
  (kwargs : gmap string scalar) :
  model_type <> "single"%string ->
  model_type <> "multiple"%string ->
  sample pm_deterministic pm_sample az_summary self model_type kwargs
    = (Raise (ValueError ("Unknown model type: " ++ model_type)), self).
Proof.
  intros Hs Hm. unfold sample, sample_build.
  apply String.eqb_neq in Hs. apply String.eqb_neq in Hm.
  rewrite Hs, Hm. reflexivity.
Qed.

Lemma sample_unknown_model_type_witness :
  sample Cases.constant (fun _ _ => Raise (ValueError "unused")) (fun _ => Ok [])
    (init (Examples.series [0; 1]) None) "triple" ∅
  = (Raise (ValueError "Unknown model type: triple"),
     init (Examples.series [0; 1]) None).
Proof.
  apply (sample_unknown_model_type Cases.constant
           (fun _ _ => Raise (ValueError "unused")) (fun _ => Ok [])
           (init (Examples.series [0; 1]) None) "triple" ∅);
    discriminate.
Defined.

(** ** The single-change-point graph *)

(** C10: two configurations that agree outside ['tau_prior'], ['mu_prior']
    and ['sigma_prior'] give the same single-change-point model over the
    same series, and its priors are the ones written in the builder. *)
Theorem prior_configuration_ignored
  (series : list (date * float)) (c1 c2 : gmap string cfgval) :
  (forall key : string,
      key <> "tau_prior"%string -> key <> "mu_prior"%string ->
      key <> "sigma_prior"%string -> c1 !! key = c2 !! key) ->
  let self1 := init series (Some c1) in
  let self2 := init series (Some c2) in
  let m := fst (build_single_change_point_model self1) in
  m = fst (build_single_change_point_model self2)
  /\ prior m "tau"
     = Some (Normal (TFloat (truediv (n_obs self1) 2))
               (TFloat (truediv (n_obs self1) 10)))
  /\ prior m "k" = Some (Exponential (TFloat (truediv 1 5)))
  /\ prior m "mu1" = Some (Normal (TInt 0) (TFloat F64.f0_02))
  /\ prior m "mu2" = Some (Normal (TInt 0) (TFloat F64.f0_02))
  /\ prior m "sigma" = Some (HalfNormal (TFloat F64.f0_05)).
Proof.
  intros _ self1 self2 m. subst m self1 self2.
  unfold build_single_change_point_model, init, single_graph. cbn [fst data n_obs].
  repeat split; reflexivity.
Qed.

Lemma prior_configuration_ignored_witness :
  let c1 : gmap string cfgval := {[ "tau_prior" := CStr "uniform" ]} in
  let c2 : gmap string cfgval := {[ "tau_prior" := CStr "normal" ]} in
  let m := fst (build_single_change_point_model
                  (init (Examples.series [0; 1]) (Some c1))) in
  m = fst (build_single_change_point_model
             (init (Examples.series [0; 1]) (Some c2)))
  /\ prior m "tau"
     = Some (Normal (TFloat (truediv 2 2)) (TFloat (truediv 2 10)))
  /\ prior m "k" = Some (Exponential (TFloat (truediv 1 5)))
  /\ prior m "mu1" = Some (Normal (TInt 0) (TFloat F64.f0_02))
  /\ prior m "mu2" = Some (Normal (TInt 0) (TFloat F64.f0_02))
  /\ prior m "sigma" = Some (HalfNormal (TFloat F64.f0_05)).
Proof.
  apply (prior_configuration_ignored (Examples.series [0; 1])
           {[ "tau_prior" := CStr "uniform" ]} {[ "tau_prior" := CStr "normal" ]}).
  intros key Htau _ _.
  rewrite !lookup_singleton_ne; [reflexivity | congruence | congruence].
Defined.

(** ** Impact analysis: a zero mean before the change point *)

Lemma percent_change_zero_denominator (after_mean before_mean : float) :
  F64.is_zero before_mean = true ->
  let pc := F64.mul (F64.div (F64.sub after_mean before_mean) before_mean) F64.f100 in
  (F64.is_zero after_mean || F64.is_nan after_mean = true -> pc = F64.nan)
  /\ (F64.is_zero after_mean || F64.is_nan after_mean = false -> F64.is_inf pc = true).
Proof.
  intros Hz.
  destruct before_mean as [sb|sb| |sb mb eb]; try discriminate.
  destruct after_mean as [sa|sa| |sa ma ea]; destruct sb; try destruct sa;
    cbn; split; intros H; try discriminate; reflexivity.
Qed.

(** C1, as the code has it: when the summarizer returns a single change
    point, the impact analysis returns a result, without raising; and when
    the mean before the change point is zero, the percent change of that
    result is the NaN of the division 0/0 (the mean after it is zero or NaN)
    or else an infinity. No sentinel value takes their place. *)
Theorem percent_change_zero_before
  (self : BayesianChangePointModel) (p : SinglePosterior)
  (window_before window_after : Z) :
  get_change_point_posterior self = Ok (Single p) ->
  exists r,
    calculate_impact self window_before window_after = Ok (ImpactSingle r)
    /\ (F64.is_zero (ws_mean (si_before r)) = true ->
        let after_mean := ws_mean (si_after r) in
        let pc := percent_change (si_impact r) in
        (F64.is_zero after_mean || F64.is_nan after_mean = true -> pc = F64.nan)
        /\ (F64.is_zero after_mean || F64.is_nan after_mean = false ->
            F64.is_inf pc = true)).
Proof.
  intros Hget.
  destruct (posterior_ok_trace _ _ Hget) as [t Ht].
  exists (single_impact self p window_before window_after). split.
  - unfold calculate_impact. rewrite Ht, Hget. reflexivity.
  - intros Hz. cbn in Hz |- *.
    apply percent_change_zero_denominator. exact Hz.
Qed.

Lemma percent_change_zero_before_witness :
  exists r,
    calculate_impact Examples.zero_before 1 1 = Ok (ImpactSingle r)
    /\ (F64.is_zero (ws_mean (si_before r)) = true ->
        let after_mean := ws_mean (si_after r) in
        let pc := percent_change (si_impact r) in
        (F64.is_zero after_mean || F64.is_nan after_mean = true -> pc = F64.nan)
        /\ (F64.is_zero after_mean || F64.is_nan after_mean = false ->
            F64.is_inf pc = true)).
Proof.
  assert (H : exists p, get_change_point_posterior Examples.zero_before
                        = Ok (Single p)).
  { eexists. vm_compute. reflexivity. }
  destruct H as [p Hp].
  exact (percent_change_zero_before Examples.zero_before p 1 1 Hp).
Defined.

(** C1, as stated, fails: with observations 0 and 1 around the change
    point the mean before it is zero, and the percent change returned is
    positive infinity. *)
Lemma percent_change_infinite :
  exists r,
    calculate_impact Examples.zero_before 1 1 = Ok (ImpactSingle r)
    /\ F64.is_zero (ws_mean (si_before r)) = true
    /\ percent_change (si_impact r) = S754_infinity false.
Proof.
  eexists. split; [vm_compute; reflexivity |]. split; reflexivity.
Qed.

(** ** Summarizer: indices below zero *)

(** C2, at a draw below the series: with three observations and one draw
    at -10 the summarizer raises [IndexError] on the date lookup, and
    with one draw at -1 it returns the indices -1, outside [0, 2]. *)
Theorem negative_index_not_clamped :
  get_change_point_posterior Examples.negative_draw = Raise IndexError
  /\ exists p,
       get_change_point_posterior Examples.wrapped_draw = Ok (Single p)
       /\ sp_mean p = -1 /\ sp_median p = -1 /\ sp_mode p = -1
       /\ Py.index (dates Examples.wrapped_draw) (-1) = Ok (sp_mode_date p).
Proof.
  split; [vm_compute; reflexivity |].
  eexists. split; [vm_compute; reflexivity |]. repeat split.
Qed.

(** ** Impact analysis: windows around an index below zero *)

(** C6, at a mode below zero: with three observations, one draw at -1 and
    windows of two days, the resolved index is -1; the index range before
    it, [0, -1), holds no observation, yet the analysis takes two; the
    range after it, [-1, 1), holds the first observation, yet the analysis
    takes none and reports a NaN mean. *)
Theorem negative_mode_windows :
  exists r,
    calculate_impact Examples.wrapped_draw 2 2 = Ok (ImpactSingle r)
    /\ si_change_point_index r = -1
    /\ window (data Examples.wrapped_draw) (Z.max 0 (-1 - 2)) (-1) = []
    /\ ws_n_obs (si_before r) = 2
    /\ window (data Examples.wrapped_draw) (-1)
         (Z.min (len (data Examples.wrapped_draw)) (-1 + 2)) = [F64.of_Z 0]
    /\ ws_n_obs (si_after r) = 0
    /\ ws_mean (si_after r) = F64.nan.
Proof.
  eexists. split; [vm_compute; reflexivity |]. repeat split.
Qed.

(** ** The multiple-change-point graph and its summary *)

Lemma mapM_length {A B} (f : A -> result B) (l : list A) (bs : list B) :
  mapM f l = Ok bs -> length bs = length l.
Proof.
  revert bs. induction l as [|a l IH]; simpl; intros bs H.
  - inversion H. reflexivity.
  - apply bind_ok in H as (b & _ & H).
    apply bind_ok in H as (bs' & Hbs & H).
    inversion H. simpl. f_equal. apply IH. exact Hbs.
Qed.

(** The summarizer returns one estimate per entry of the third axis of
    ['changepoints']. *)
Lemma multiple_posterior_length
  (self : BayesianChangePointModel) (t : InferenceData) (a : ndarray)
  (k : nat) (cps : list ChangePoint) :
  trace self = Some t ->
  idata_posterior t !! "tau" = None ->
  idata_posterior t !! "changepoints" = Some a ->
  shape a !! 2%nat = Some k ->
  get_change_point_posterior self = Ok (Multiple cps) ->
  length cps = k.
Proof.
  intros Ht Htau Hcp Hk. unfold get_change_point_posterior.
  rewrite Ht, Htau, Hcp, Hk. intros H.
  apply bind_ok in H as (bs & Hbs & H). inversion H; subst.
  apply mapM_length in Hbs. rewrite Hbs. apply length_seq.
Qed.

Lemma cumsum_from_length (acc : float) (a : list float) :
  length (Np.cumsum_from acc a) = length a.
Proof.
  revert acc. induction a as [|x a IH]; intros acc; simpl; [reflexivity |].
  f_equal. apply IH.
Qed.


(** A draw of the ['changepoints'] node has one entry per Dirichlet
    fraction. *)
Lemma changepoints_draw_length
  (sigmoid : float -> float) (n : Z) (n_changepoints : Z) (taus : list float) :
  exists t,
    deterministic (multiple_priors n n_changepoints) "changepoints" = Some t
    /\ exists cps,
         eval sigmoid {[ "taus" := VFloat taus ]} t = Some (VInt cps)
         /\ length cps = length taus.
Proof.
  exists (changepoints_tensor n). split; [reflexivity |].
  unfold changepoints_tensor.
  cbn [eval]. rewrite lookup_singleton_eq. cbn.
  destruct taus as [|x [|y taus]]; cbn.
  - eexists. split; reflexivity.
  - eexists. split; reflexivity.
  - eexists. split; [reflexivity |].
    cbn. rewrite !length_map. cbn. rewrite cumsum_from_length.
    rewrite length_map. reflexivity.
Qed.

(** The loop of the builder stops at its first turn: when a change point
    is still to come it asks for the truth of a comparison with a value of
    the graph, and otherwise it stores a value of the graph in an array of
    floats. *)
Lemma fill_mean_array_raises
  (n_changepoints : Z) (changepoints mus : tensor) (positions : list Z)
  (segment_idx : Z) (mean_array : list float) :
  positions <> [] ->
  exists e,
    fill_mean_array n_changepoints changepoints mus positions segment_idx mean_array
    = Raise e
    /\ (segment_idx < n_changepoints -> e = TypeError).
Proof.
  destruct positions as [|i rest]; [congruence |]. intros _.
  cbn [fill_mean_array]. destruct (segment_idx <? n_changepoints) eqn:Hlt.
  - exists TypeError. split; reflexivity.
  - eexists. split; [reflexivity |]. apply Z.ltb_ge in Hlt. lia.
Qed.

Lemma arange_not_empty (n : Z) : 0 < n -> arange n <> [].
Proof.
  intros Hn. unfold arange.
  destruct (Z.to_nat n) as [|k] eqn:Hk; [lia | discriminate].
Qed.

(** The builder raises on every series that has an observation, and leaves
    the object as it was. *)
Lemma build_multiple_raises
  (pm_deterministic : string -> list float -> result tensor)
  (self : BayesianChangePointModel) (n_changepoints : Z) :
  0 < n_obs self ->
  exists e,
    build_multiple_change_points_model pm_deterministic self n_changepoints
    = (Raise e, self)
    /\ (1 <= n_changepoints -> e = TypeError).
Proof.
  intros Hn. unfold build_multiple_change_points_model.
  destruct (n_changepoints + 1 <? 0) eqn:Hneg.
  { eexists. split; [reflexivity |]. apply Z.ltb_lt in Hneg. lia. }
  destruct (fill_mean_array_raises n_changepoints
              (changepoints_tensor (n_obs self)) (TVar "mus") (arange (n_obs self))
              0 (zeros (n_obs self)) (arange_not_empty _ Hn)) as (e & -> & He).
  exists e. split; [reflexivity |]. intros Hk. apply He. lia.
Qed.

(** C7, on eight observations and three change points: [sample] raises
    [TypeError] while it builds the model, whatever the libraries behind it
    would do; the object is left as it was, without a trace, and the
    summarizer then raises and returns no estimate. *)
Theorem multiple_model_not_built
  (pm_deterministic : string -> list float -> result tensor)
  (pm_sample : Model -> gmap string scalar -> result InferenceData)
  (az_summary : InferenceData -> result (list SummaryRow)) :
  sample pm_deterministic pm_sample az_summary (init Cases.prices None)
    "multiple" {[ "n_changepoints" := SInt 3 ]}
  = (Raise TypeError, init Cases.prices None)
  /\ fst (build_multiple_change_points_model pm_deterministic
            (init Cases.prices None) 3) = Raise TypeError
  /\ get_change_point_posterior
       (snd (sample pm_deterministic pm_sample az_summary (init Cases.prices None)
               "multiple" {[ "n_changepoints" := SInt 3 ]}))
     = Raise (ValueError "No trace available. Run sampling first.").
Proof.
  assert (H : build_multiple_change_points_model pm_deterministic
                (init Cases.prices None) 3
              = (Raise TypeError, init Cases.prices None)).
  { destruct (build_multiple_raises pm_deterministic (init Cases.prices None) 3)
      as (e & -> & He); [vm_compute; reflexivity |].
    rewrite He by lia. reflexivity. }
  assert (Hs : sample pm_deterministic pm_sample az_summary (init Cases.prices None)
                 "multiple" {[ "n_changepoints" := SInt 3 ]}
               = (Raise TypeError, init Cases.prices None)).
  { unfold sample, sample_build.
    change (String.eqb "multiple" "single") with false.
    change (String.eqb "multiple" "multiple") with true.
    cbv iota. rewrite (lookup_singleton_eq (M := gmap string)).
    cbv [default from_option id]. rewrite H. reflexivity. }
  split; [exact Hs |]. split; [rewrite H; reflexivity |].
  rewrite Hs. reflexivity.
Qed.

(** ** The order of binary64 values *)

Lemma ltb_key (x y : float) :
  F64.ltb x y = true <->
  F64.is_nan x = false /\ F64.is_nan y = false /\ key_lt (key x) (key y).
Proof.
  unfold F64.ltb, SFltb, key_lt.
  destruct x as [sx|sx| |sx mx ex], y as [sy|sy| |sy my ey];
    try destruct sx; try destruct sy; cbn;
    try (split; [discriminate | intros (? & ? & ?); try discriminate; lia]);
    try (split; [intros _; repeat split; lia | reflexivity]).
  - destruct (Z.compare_spec ex ey); cbn;
      try (split; [intros _; repeat split; lia | reflexivity]);
      try (split; [discriminate | intros (? & ? & ?); lia]).
    subst. fold (Pos.compare mx my).
    destruct (Pos.compare_spec mx my); cbn;
      try (split; [intros _; repeat split; lia | reflexivity]);
      try (split; [discriminate | intros (? & ? & ?); lia]).
  - destruct (Z.compare_spec ex ey); cbn;
      try (split; [intros _; repeat split; lia | reflexivity]);
      try (split; [discriminate | intros (? & ? & ?); lia]).
    subst. fold (Pos.compare mx my).
    destruct (Pos.compare_spec mx my); cbn;
      try (split; [intros _; repeat split; lia | reflexivity]);
      try (split; [discriminate | intros (? & ? & ?); lia]).
Qed.

Lemma ltb_not_nan (x y : float) :
  F64.ltb x y = true -> F64.is_nan x = false /\ F64.is_nan y = false.
Proof. intros H. apply ltb_key in H. tauto. Qed.

Lemma ltb_irrefl (x : float) : F64.ltb x x = false.
Proof.
  destruct (F64.ltb x x) eqn:H; [| reflexivity].
  apply ltb_key in H as (_ & _ & H). unfold key_lt in H.
  destruct (key x) as [[c e] m]. lia.
Qed.

Lemma ltb_trans (x y z : float) :
  F64.ltb x y = true -> F64.ltb y z = true -> F64.ltb x z = true.
Proof.
  intros H1 H2. apply ltb_key in H1 as (Hx & _ & H1).
  apply ltb_key in H2 as (_ & Hz & H2). apply ltb_key.
  split; [exact Hx |]. split; [exact Hz |].
  unfold key_lt in *.
  destruct (key x) as [[c1 e1] m1], (key y) as [[c2 e2] m2],
    (key z) as [[c3 e3] m3]. lia.
Qed.

Lemma not_ltb_key (x y : float) :
  F64.is_nan x = false -> F64.is_nan y = false ->
  F64.ltb x y = false -> key_lt (key y) (key x) \/ key y = key x.
Proof.
  intros Hx Hy H.
  assert (Hn : ~ key_lt (key x) (key y)).
  { intros Hk. rewrite (proj2 (ltb_key x y)) in H; [discriminate | tauto]. }
  unfold key_lt in *.
  destruct (key x) as [[c1 e1] m1], (key y) as [[c2 e2] m2].
  destruct (Z.eq_dec c1 c2), (Z.eq_dec e1 e2), (Z.eq_dec m1 m2);
    subst; try (right; reflexivity); left; lia.
Qed.

(** [x <= y < z] gives [x < z]. *)
Lemma le_ltb_trans (x y z : float) :
  F64.is_nan x = false -> F64.ltb y x = false -> F64.ltb y z = true ->
  F64.ltb x z = true.
Proof.
  intros Hx Hyx Hyz. apply ltb_key in Hyz as (Hy & Hz & Hyz).
  destruct (not_ltb_key y x Hy Hx Hyx) as [Hk | Hk]; apply ltb_key;
    (split; [exact Hx |]; split; [exact Hz |]).
  - unfold key_lt in *.
    destruct (key x) as [[c1 e1] m1], (key y) as [[c2 e2] m2],
      (key z) as [[c3 e3] m3]. lia.
  - rewrite Hk. exact Hyz.
Qed.

(** [z < y <= x] gives [z < x]. *)
Lemma ltb_le_trans (x y z : float) :
  F64.is_nan x = false -> F64.ltb x y = false -> F64.ltb z y = true ->
  F64.ltb z x = true.
Proof.
  intros Hx Hxy Hzy. apply ltb_key in Hzy as (Hz & Hy & Hzy).
  destruct (not_ltb_key x y Hx Hy Hxy) as [Hk | Hk]; apply ltb_key;
    (split; [exact Hz |]; split; [exact Hx |]).
  - unfold key_lt in *.
    destruct (key x) as [[c1 e1] m1], (key y) as [[c2 e2] m2],
      (key z) as [[c3 e3] m3]. lia.
  - rewrite <- Hk. exact Hzy.
Qed.

(** ** Convergence diagnostics *)

Lemma pd_max_below (thr : float) (l : list float) (acc : float) :
  F64.ltb (fold_left (fun acc x =>
             if F64.is_nan x then acc
             else if F64.is_nan acc then x
             else if F64.ltb acc x then x else acc) l acc) thr = true
  <-> (not_nan acc -> F64.ltb acc thr = true)
      /\ Forall (fun x => not_nan x -> F64.ltb x thr = true) l
      /\ (not_nan acc \/ Exists not_nan l).
Proof.
  unfold not_nan. revert acc. induction l as [|x l IH]; intros acc; cbn [fold_left].
  - rewrite Exists_nil. split.
    + intros H. destruct (ltb_not_nan _ _ H) as [Ha _]. auto.
    + intros (H & _ & [Ha | []]). auto.
  - rewrite IH, Forall_cons, Exists_cons. clear IH.
    destruct (F64.is_nan x) eqn:Hx; [intuition congruence |].
    destruct (F64.is_nan acc) eqn:Ha; [intuition congruence |].
    destruct (F64.ltb acc x) eqn:Hlt.
    + intuition eauto using ltb_trans.
    + intuition eauto using le_ltb_trans.
Qed.

Lemma pd_min_above (thr : float) (l : list float) (acc : float) :
  F64.ltb thr (fold_left (fun acc x =>
             if F64.is_nan x then acc
             else if F64.is_nan acc then x
             else if F64.ltb x acc then x else acc) l acc) = true
  <-> (not_nan acc -> F64.ltb thr acc = true)
      /\ Forall (fun x => not_nan x -> F64.ltb thr x = true) l
      /\ (not_nan acc \/ Exists not_nan l).
Proof.
  unfold not_nan. revert acc. induction l as [|x l IH]; intros acc; cbn [fold_left].
  - rewrite Exists_nil. split.
    + intros H. destruct (ltb_not_nan _ _ H) as [_ Ha]. auto.
    + intros (H & _ & [Ha | []]). auto.
  - rewrite IH, Forall_cons, Exists_cons. clear IH.
    destruct (F64.is_nan x) eqn:Hx; [intuition congruence |].
    destruct (F64.is_nan acc) eqn:Ha; [intuition congruence |].
    destruct (F64.ltb x acc) eqn:Hlt.
    + intuition eauto using ltb_trans.
    + intuition eauto using ltb_le_trans.
Qed.

(** An object built without a ['convergence'] entry of the user has the
    default one. *)
Lemma default_convergence
  (series : list (date * float)) (user : option (gmap string cfgval)) :
  (forall c, user = Some c -> c !! "convergence" = None) ->
  config (init series user) !! "convergence"
  = Some (CDict (list_to_map [("rhat_threshold", SFloat F64.f1_01);
                              ("ess_threshold", SInt 400)])).
Proof.
  intros H. destruct user as [c|]; cbn [init config].
  - rewrite update_default by (apply H; reflexivity). reflexivity.
  - reflexivity.
Qed.

Lemma threshold_configured
  (self : BayesianChangePointModel) (convergence : gmap string scalar)
  (key : string) (v : scalar) (x : float) :
  config self !! "convergence" = Some (CDict convergence) ->
  convergence !! key = Some v ->
  v = SFloat x \/ (exists z, v = SInt z /\ x = F64.of_Z z) ->
  threshold self key = Ok x.
Proof.
  intros Hc Hv Hx. unfold threshold.
  rewrite (getitem_ok _ _ _ Hc). cbn [bind]. rewrite (getitem_ok _ _ _ Hv).
  cbn [bind]. destruct Hx as [-> | (z & -> & ->)]; reflexivity.
Qed.

(** C4: on an object with a trace and a summary whose configuration has a
    ['convergence'] entry with the two thresholds, numbers both, the check
    returns a report; [rhat_converged] is the comparison of the greatest
    R-hat with [config['convergence']['rhat_threshold']], true exactly when
    some R-hat is a number and every R-hat that is one lies strictly below
    the threshold; [ess_sufficient] is true exactly when some effective
    sample size is a number and every one lies strictly above
    [config['convergence']['ess_threshold']]. When the configuration is the
    one of an object built without a ['convergence'] entry of the user, the
    thresholds are 1.01 and 400, and R-hat 1.0 everywhere with every
    effective sample size above 400 gives true for both. *)
Theorem convergence_thresholds
  (self : BayesianChangePointModel) (t : InferenceData) (s : list SummaryRow)
  (convergence : gmap string scalar) (rhat ess : scalar)
  (rhat_threshold ess_threshold : float) :
  trace self = Some t ->
  summary self = Some s ->
  config self !! "convergence" = Some (CDict convergence) ->
  convergence !! "rhat_threshold" = Some rhat ->
  convergence !! "ess_threshold" = Some ess ->
  rhat = SFloat rhat_threshold
  \/ (exists z, rhat = SInt z /\ rhat_threshold = F64.of_Z z) ->
  ess = SFloat ess_threshold
  \/ (exists z, ess = SInt z /\ ess_threshold = F64.of_Z z) ->
  exists d,
    check_convergence self = Ok d
    /\ rhat_max d = Np.pd_max (map sr_r_hat s)
    /\ ess_min d = Np.pd_min (map sr_ess_bulk s)
    /\ rhat_converged d = F64.ltb (rhat_max d) rhat_threshold
    /\ ess_sufficient d = F64.ltb ess_threshold (ess_min d)
    /\ (rhat_converged d = true <->
        Exists not_nan (map sr_r_hat s)
        /\ Forall (fun r => not_nan r -> F64.ltb r rhat_threshold = true)
             (map sr_r_hat s))
    /\ (ess_sufficient d = true <->
        Exists not_nan (map sr_ess_bulk s)
        /\ Forall (fun e => not_nan e -> F64.ltb ess_threshold e = true)
             (map sr_ess_bulk s))
    /\ (forall series user,
          config self = config (init series user) ->
          (forall c, user = Some c -> c !! "convergence" = None) ->
          rhat_threshold = F64.f1_01 /\ ess_threshold = F64.f400
          /\ (s <> [] ->
              Forall (fun row => sr_r_hat row = F64.f1
                                 /\ F64.ltb F64.f400 (sr_ess_bulk row) = true) s ->
              rhat_converged d = true /\ ess_sufficient d = true)).
Proof.
  intros Ht Hs Hc Hrv Hev Hrx Hex.
  pose proof (threshold_configured self convergence _ rhat rhat_threshold
                Hc Hrv Hrx) as Hr.
  pose proof (threshold_configured self convergence _ ess ess_threshold
                Hc Hev Hex) as He.
  assert (Hmax : F64.ltb (Np.pd_max (map sr_r_hat s)) rhat_threshold = true <->
                 Exists not_nan (map sr_r_hat s)
                 /\ Forall (fun r => not_nan r -> F64.ltb r rhat_threshold = true)
                      (map sr_r_hat s)).
  { unfold Np.pd_max. rewrite pd_max_below. unfold not_nan at 1 3. cbn.
    intuition congruence. }
  assert (Hmin : F64.ltb ess_threshold (Np.pd_min (map sr_ess_bulk s)) = true <->
                 Exists not_nan (map sr_ess_bulk s)
                 /\ Forall (fun e => not_nan e -> F64.ltb ess_threshold e = true)
                      (map sr_ess_bulk s)).
  { unfold Np.pd_min. rewrite pd_min_above. unfold not_nan at 1 3. cbn.
    intuition congruence. }
  eexists. split.
  { unfold check_convergence. rewrite Ht, Hs, Hr. cbn [bind]. rewrite He.
    cbn [bind]. reflexivity. }
  cbn [rhat_max ess_min rhat_converged ess_sufficient].
  do 4 (split; [reflexivity |]).
  split; [exact Hmax |]. split; [exact Hmin |].
  intros series user Hcfg Huser.
  assert (Hdef : rhat_threshold = F64.f1_01 /\ ess_threshold = F64.f400).
  { pose proof (default_convergence series user Huser) as Hd.
    rewrite <- Hcfg, Hc in Hd. injection Hd as ->.
    vm_compute in Hrv. vm_compute in Hev.
    injection Hrv as <-. injection Hev as <-.
    split.
    - destruct Hrx as [[= <-] | (z & [=] & _)]. reflexivity.
    - destruct Hex as [[=] | (z & [= <-] & ->)]. reflexivity. }
  destruct Hdef as [-> ->]. do 2 (split; [reflexivity |]).
  intros Hne Hall. rewrite Hmax, Hmin.
  destruct s as [|row s]; [congruence |].
  repeat split.
  - apply Exists_cons. left. apply Forall_cons in Hall as [[-> _] _]. reflexivity.
  - apply Forall_map. eapply Forall_impl; [exact Hall |].
    intros r [-> _] _. reflexivity.
  - apply Exists_cons. left. apply Forall_cons in Hall as [[_ H] _].
    apply ltb_not_nan in H. tauto.
  - apply Forall_map. eapply Forall_impl; [exact Hall |].
    intros r [_ H] _. exact H.
Qed.

Lemma convergence_thresholds_witness :
  exists d,
    check_convergence Examples.converged = Ok d
    /\ rhat_converged d = true /\ ess_sufficient d = true.
Proof.
  destruct (convergence_thresholds Examples.converged
              (Examples.tau_trace [F64.of_Z 1]) Examples.converged_summary
              (list_to_map [("rhat_threshold", SFloat F64.f1_01);
                            ("ess_threshold", SInt 400)])
              (SFloat F64.f1_01) (SInt 400) F64.f1_01 F64.f400
              eq_refl eq_refl eq_refl eq_refl eq_refl
              (or_introl eq_refl)
              (or_intror (ex_intro _ 400 (conj eq_refl eq_refl))))
    as (d & Hd & _ & _ & _ & _ & _ & _ & Hdefault).
  exists d. split; [exact Hd |].
  apply (Hdefault (Examples.series [0; 1]) None);
    [reflexivity | discriminate | discriminate |].
  repeat constructor.
Defined.

(** ** Summarizer: the point estimates *)

Lemma int_trunc (x : float) (z : Z) : Py.int x = Ok z -> F64.trunc x = Some z.
Proof.
  destruct x as [s|s| |s m e]; cbn; intros H; inversion H; reflexivity.
Qed.

Lemma eqb_refl (x : float) : not_nan x -> F64.eqb x x = true.
Proof.
  unfold not_nan, F64.eqb, SFeqb.
  destruct x as [s|s| |s m e]; try destruct s; cbn; intros H;
    try reflexivity; try discriminate;
    rewrite Z.compare_refl; fold (Pos.compare m m);
    rewrite Pos.compare_refl; reflexivity.
Qed.

Lemma eqb_nan (x y : float) : F64.is_nan x = true -> F64.eqb x y = false.
Proof. destruct x; try discriminate. reflexivity. Qed.

Lemma count_nan (a : list float) (x : float) :
  F64.is_nan x = true -> Stats.count x a = 0%nat.
Proof.
  intros H. unfold Stats.count. induction a as [|y a IH]; [reflexivity |].
  rewrite filter_cons. rewrite (eqb_nan x y H).
  destruct (decide (false = true)) as [E|_]; [discriminate | exact IH].
Qed.

Lemma count_pos (a : list float) (x : float) :
  x ∈ a -> not_nan x -> (1 <= Stats.count x a)%nat.
Proof.
  intros Hin Hx. unfold Stats.count. induction Hin as [x a | x y a Hin IH].
  - rewrite filter_cons. rewrite (eqb_refl x Hx).
    destruct (decide (true = true)) as [_|E]; [cbn; lia | congruence].
  - rewrite filter_cons. destruct (decide (F64.eqb x y = true)); cbn; auto with lia.
Qed.

(** Among values that are not NaN, "not below" is transitive. *)
Lemma not_ltb_trans (x y z : float) :
  not_nan x -> not_nan y -> not_nan z ->
  F64.ltb x y = false -> F64.ltb y z = false -> F64.ltb x z = false.
Proof.
  intros Hx Hy Hz Hxy Hyz.
  destruct (F64.ltb x z) eqn:Hxz; [| reflexivity].
  apply ltb_key in Hxz as (_ & _ & Hxz).
  pose proof (not_ltb_key x y Hx Hy Hxy) as H1.
  pose proof (not_ltb_key y z Hy Hz Hyz) as H2.
  unfold key_lt in *.
  destruct (key x) as [[c1 e1] m1], (key y) as [[c2 e2] m2],
    (key z) as [[c3 e3] m3].
  exfalso.
  destruct H1 as [H1 | H1], H2 as [H2 | H2];
    try (injection H1 as -> -> ->); try (injection H2 as -> -> ->); lia.
Qed.

Section Mode.

Variable a : list float.

Lemma pref_refl (y : float) : at_least_as_good a y y.
Proof. split; [lia | intros _; apply ltb_irrefl]. Qed.

Lemma pref_trans (x y z : float) :
  x ∈ a -> y ∈ a -> z ∈ a -> at_least_as_good a x y -> at_least_as_good a y z -> at_least_as_good a x z.
Proof.
  intros Hx Hy Hz [H1 H2] [H3 H4]. split; [lia |]. intros He.
  assert (Hxy : Stats.count x a = Stats.count y a) by lia.
  assert (Hyz : Stats.count y a = Stats.count z a) by lia.
  specialize (H2 Hxy). specialize (H4 Hyz).
  destruct (F64.is_nan x) eqn:Nx.
  { destruct (F64.ltb x z) eqn:E; [| reflexivity].
    apply ltb_not_nan in E. destruct E; congruence. }
  pose proof (count_pos a x Hx Nx) as Hpos.
  destruct (F64.is_nan y) eqn:Ny.
  { rewrite (count_nan a y Ny) in Hxy. lia. }
  destruct (F64.is_nan z) eqn:Nz.
  { rewrite (count_nan a z Nz) in Hyz. lia. }
  exact (not_ltb_trans x y z Nx Ny Nz H2 H4).
Qed.

Lemma pref_step (best y : float) :
  let b := if Stats.better a y best then y else best in
  at_least_as_good a best b /\ at_least_as_good a y b.
Proof.
  unfold Stats.better.
  destruct (Stats.count best a <? Stats.count y a)%nat eqn:Hc; cbn [orb].
  - apply Nat.ltb_lt in Hc. split; [split; lia | apply pref_refl].
  - apply Nat.ltb_ge in Hc.
    destruct (Stats.count y a =? Stats.count best a)%nat eqn:He; cbn [andb].
    + apply Nat.eqb_eq in He. destruct (F64.ltb y best) eqn:Hlt.
      * split; [| apply pref_refl]. split; [lia |]. intros _.
        destruct (F64.ltb best y) eqn:Hby; [| reflexivity].
        rewrite <- (ltb_irrefl y). symmetry. eapply ltb_trans; eauto.
      * split; [apply pref_refl |]. split; [lia | intros _; exact Hlt].
    + apply Nat.eqb_neq in He. split; [apply pref_refl |]. split; lia.
Qed.

Lemma mode_scan (rest : list float) (best : float) :
  best ∈ a ->
  Forall (fun y => y ∈ a) rest ->
  let r := fold_left (fun best y => if Stats.better a y best then y else best)
             rest best in
  r ∈ a /\ at_least_as_good a best r /\ Forall (fun y => at_least_as_good a y r) rest.
Proof.
  revert best. induction rest as [|y rest IH]; intros best Hb Hr; cbn.
  - split; [exact Hb |]. split; [apply pref_refl | constructor].
  - apply Forall_cons in Hr as [Hy Hr].
    destruct (pref_step best y) as [P1 P2].
    assert (Hstep : (if Stats.better a y best then y else best) ∈ a)
      by (destruct (Stats.better a y best); assumption).
    destruct (IH _ Hstep Hr) as (H1 & H2 & H3).
    refine (conj H1 (conj _ _)).
    + exact (pref_trans _ _ _ Hb Hstep H1 P1 H2).
    + apply Forall_cons. split; [| exact H3].
      exact (pref_trans _ _ _ Hy Hstep H1 P2 H2).
Qed.

End Mode.

(** [scipy.stats.mode] of an array that is not empty returns a mode. *)
Lemma mode_is_mode (a : list float) : a <> [] -> is_mode a (Stats.mode a).
Proof.
  destruct a as [|x a']; [congruence |]. intros _.
  unfold Stats.mode.
  destruct (mode_scan (x :: a') a' x) as (H1 & H2 & H3).
  - left.
  - apply Forall_forall. intros y Hy. right. exact Hy.
  - split; [exact H1 |]. intros y Hy.
    apply elem_of_cons in Hy as [-> | Hy]; [exact H2 |].
    rewrite Forall_forall in H3. apply H3. exact Hy.
Qed.

(** The fuel of the summation is never used up: the length of the array
    is enough of it, and more of it changes nothing. *)
Lemma pairwise_sum_enough (fuel fuel' : nat) (a : list float) :
  (length a <= fuel)%nat -> (length a <= fuel')%nat ->
  Np.pairwise_sum fuel a = Np.pairwise_sum fuel' a.
Proof.
  revert fuel' a. induction fuel as [|fuel IH]; intros fuel' a H H'.
  { destruct a; [| cbn in H; lia]. destruct fuel'; reflexivity. }
  destruct fuel' as [|fuel'].
  { destruct a; [| cbn in H'; lia]. reflexivity. }
  cbn [Np.pairwise_sum].
  destruct (length a <? 8)%nat; [reflexivity |].
  destruct (length a <=? 128)%nat eqn:Hblock; [reflexivity |].
  apply Nat.leb_gt in Hblock.
  set (n := length a) in *. set (h := (n / 2)%nat).
  assert (Hh : (64 <= h <= n - 65)%nat).
  { unfold h. pose proof (Nat.div_mod_eq n 2) as E.
    pose proof (Nat.mod_upper_bound n 2 ltac:(lia)). lia. }
  pose proof (Nat.mod_upper_bound h 8 ltac:(lia)) as Hm.
  f_equal; apply IH; rewrite ?length_take, ?length_drop; fold n; lia.
Qed.

Lemma buffered_sum_enough (fuel fuel' : nat) (acc : float) (a : list float) :
  (length a <= fuel)%nat -> (length a <= fuel')%nat ->
  Np.buffered_sum fuel acc a = Np.buffered_sum fuel' acc a.
Proof.
  revert fuel' acc a. induction fuel as [|fuel IH]; intros fuel' acc a H H'.
  { destruct a; [| cbn in H; lia]. destruct fuel'; reflexivity. }
  destruct fuel' as [|fuel'].
  { destruct a; [| cbn in H'; lia]. reflexivity. }
  destruct a as [|x a]; [reflexivity |].
  cbn [Np.buffered_sum]. apply IH;
    rewrite length_drop; unfold Np.bufsize; cbn [length] in *; lia.
Qed.

Lemma mean_empty : Np.mean [] = F64.nan.
Proof. reflexivity. Qed.

(** C5, as the code has it: when the summarizer returns the estimates of a
    single change point, the mean is the mean of the pool of draws with its
    fraction dropped, and the median is the median of the pool with its
    fraction dropped. *)
Theorem point_estimates_truncated
  (self : BayesianChangePointModel) (t : InferenceData) (tau : ndarray)
  (p : SinglePosterior) :
  trace self = Some t ->
  idata_posterior t !! "tau" = Some tau ->
  get_change_point_posterior self = Ok (Single p) ->
  F64.trunc (mean_of (flatten tau)) = Some (sp_mean p)
  /\ F64.trunc (Np.median (as_float64 (flatten tau))) = Some (sp_median p).
Proof.
  intros Ht Htau. unfold get_change_point_posterior. rewrite Ht, Htau.
  intros H.
  apply bind_ok in H as (p' & Hp & H). inversion H; subst p'.
  unfold single_posterior in Hp.
  apply bind_ok in Hp as (tau_dates & _ & Hp).
  apply bind_ok in Hp as (tau_mean & Hmean & Hp).
  apply bind_ok in Hp as (tau_median & Hmedian & Hp).
  apply bind_ok in Hp as (tau_mode & Hmode & Hp).
  apply bind_ok in Hp as (tau_hdi & _ & Hp).
  apply bind_ok in Hp as (mean_date & _ & Hp).
  apply bind_ok in Hp as (median_date & _ & Hp).
  apply bind_ok in Hp as (mode_date & _ & Hp).
  apply bind_ok in Hp as (hdi_lo & _ & Hp).
  apply bind_ok in Hp as (hdi_hi & _ & Hp).
  inversion Hp; subst p; cbn [sp_mean sp_median].
  split; [apply int_trunc; exact Hmean | apply int_trunc; exact Hmedian].
Qed.

Lemma point_estimates_truncated_witness :
  exists p,
    get_change_point_posterior Examples.skewed = Ok (Single p)
    /\ F64.trunc (Np.mean Examples.skewed_pool) = Some (sp_mean p)
    /\ F64.trunc (Np.median Examples.skewed_pool) = Some (sp_median p).
Proof.
  assert (H : exists p, get_change_point_posterior Examples.skewed = Ok (Single p)).
  { eexists. vm_compute. reflexivity. }
  destruct H as [p Hp]. exists p. split; [exact Hp |].
  exact (point_estimates_truncated Examples.skewed
           (Examples.tau_trace Examples.skewed_pool)
           (Float64 [1%nat; 6%nat] Examples.skewed_pool) p
           eq_refl eq_refl Hp).
Defined.

(** C5, as stated, fails: the draws 3.5, 3.5, 1.25, 1.5, 1.75 and 4.75
    have mean 2.708..., whose nearest integer is 3, and the mean returned
    is 2; their median is 2.625, and the median returned is 2; the mode
    returned is 3, which is none of the draws rounded to the nearest
    integer, and is less frequent than 1 among the draws with their
    fractions dropped. *)
Lemma point_estimates_not_rounded :
  exists p,
    get_change_point_posterior Examples.skewed = Ok (Single p)
    /\ sp_mean p = 2
    /\ F64.nearest (Np.mean Examples.skewed_pool) = Some 3
    /\ sp_median p = 2
    /\ Np.median Examples.skewed_pool = F64.div (F64.of_Z 21) (F64.of_Z 8)
    /\ sp_mode p = 3
    /\ omap F64.nearest Examples.skewed_pool = [4; 4; 1; 2; 2; 5]
    /\ omap F64.trunc Examples.skewed_pool = [3; 3; 1; 1; 1; 4].
Proof.
  eexists. split; [vm_compute; reflexivity |]. repeat split.
Qed.

(** ** Rounding in binary64 *)





































Lemma broadcast_scalar (f : float -> float -> float) (a : list float) (y : float) :
  broadcast f a [y] = Some (map (fun x => f x y) a).
Proof. destruct a as [|x [|x' a]]; reflexivity. Qed.


(** ** Rounding from above *)





















(** ** The resolved change points of a draw *)



(** ** Impact analysis: windows around an index that is not negative *)

Lemma window_from {A} (l : list A) (off : nat) (lo hi : Z) :
  map snd (filter (fun ix : nat * A => lo <= Z.of_nat (fst ix) < hi)
             (zip (seq off (length l)) l))
  = take (Z.to_nat (hi - Z.max lo (Z.of_nat off)))
      (drop (Z.to_nat (lo - Z.of_nat off)) l).
Proof.
  revert off. induction l as [|x l IH]; intros off.
  - cbn. rewrite drop_nil, take_nil. reflexivity.
  - cbn [length seq zip zip_with]. rewrite filter_cons. cbn [fst].
    destruct (decide (lo <= Z.of_nat off < hi)) as [Hin | Hout].
    + cbn [map snd]. rewrite IH.
      replace (Z.to_nat (lo - Z.of_nat off)) with 0%nat by lia.
      replace (Z.to_nat (lo - Z.of_nat (S off))) with 0%nat by lia.
      rewrite !drop_0.
      replace (Z.to_nat (hi - Z.max lo (Z.of_nat off)))
        with (S (Z.to_nat (hi - Z.max lo (Z.of_nat (S off))))) by lia.
      reflexivity.
    + rewrite IH.
      destruct (Z_lt_le_dec (Z.of_nat off) lo) as [Hlt | Hge].
      * replace (Z.to_nat (lo - Z.of_nat off))
          with (S (Z.to_nat (lo - Z.of_nat (S off)))) by lia.
        cbn [drop]. f_equal. f_equal. lia.
      * replace (Z.to_nat (hi - Z.max lo (Z.of_nat off))) with 0%nat by lia.
        replace (Z.to_nat (hi - Z.max lo (Z.of_nat (S off)))) with 0%nat by lia.
        reflexivity.
Qed.

(** A slice between two bounds that are not negative is the window
    between them. *)
Lemma slice_window {A} (l : list A) (a b : Z) :
  0 <= a -> 0 <= b -> Py.slice l a b = window l a b.
Proof.
  intros Ha Hb. unfold window. rewrite window_from.
  unfold Py.slice, Py.slice_bound, Py.len.
  destruct (a <? 0) eqn:Ea; [apply Z.ltb_lt in Ea; lia |].
  destruct (b <? 0) eqn:Eb; [apply Z.ltb_lt in Eb; lia |].
  replace (Z.to_nat (a - Z.of_nat 0)) with (Z.to_nat a) by lia.
  replace (Z.to_nat (b - Z.max a (Z.of_nat 0))) with (Z.to_nat (b - a)) by lia.
  set (n := Z.of_nat (length l)).
  destruct (Z_le_gt_dec n a) as [Hna | Hna].
  - rewrite !drop_ge by lia. rewrite !take_nil. reflexivity.
  - replace (Z.to_nat (Z.max 0 (Z.min n a))) with (Z.to_nat a) by lia.
    destruct (Z_le_gt_dec b n) as [Hbn | Hbn].
    + f_equal. lia.
    + rewrite !take_ge; [reflexivity | |]; rewrite length_drop; lia.
Qed.

(** For a mode and a window after it that are not negative, the impact
    analysis works on the two index ranges around the mode, clipped to the
    series, and derives its four measures from their means and standard
    deviations. *)
Lemma single_impact_windows
  (self : BayesianChangePointModel) (p : SinglePosterior)
  (window_before window_after : Z) :
  get_change_point_posterior self = Ok (Single p) ->
  0 <= sp_mode p -> 0 <= window_after ->
  let m := sp_mode p in
  let n := len (data self) in
  let before := window (data self) (Z.max 0 (m - window_before)) m in
  let after := window (data self) m (Z.min n (m + window_after)) in
  exists r,
    calculate_impact self window_before window_after = Ok (ImpactSingle r)
    /\ si_change_point_index r = m
    /\ si_before r = window_stats before
    /\ si_after r = window_stats after
    /\ mean_change (si_impact r) = F64.sub (Np.mean after) (Np.mean before)
    /\ percent_change (si_impact r)
       = F64.mul (F64.div (mean_change (si_impact r)) (Np.mean before)) F64.f100
    /\ volatility_change (si_impact r) = F64.sub (Np.std after) (Np.std before)
    /\ effect_size (si_impact r)
       = F64.div (mean_change (si_impact r)) (Np.std before)
    /\ (Np.mean before = F64.of_Z 100 -> Np.mean after = F64.of_Z 110 ->
        percent_change (si_impact r) = F64.of_Z 10).
Proof.
  intros Hget Hm Hwa m n before after.
  destruct (posterior_ok_trace _ _ Hget) as [t Ht].
  exists (single_impact self p window_before window_after).
  split; [unfold calculate_impact; rewrite Ht, Hget; reflexivity |].
  unfold single_impact. fold m. fold n.
  rewrite !slice_window by (unfold n, Py.len; lia).
  fold before. fold after. cbn.
  repeat split.
  intros -> ->. reflexivity.
Qed.

(** With observations 100 and 110 around the change point the percent
    change is exactly 10.0. *)
Lemma ten_percent_change :
  exists r,
    calculate_impact Examples.ten_percent 1 1 = Ok (ImpactSingle r)
    /\ ws_mean (si_before r) = F64.of_Z 100
    /\ ws_mean (si_after r) = F64.of_Z 110
    /\ percent_change (si_impact r) = F64.of_Z 10.
Proof.
  eexists. split; [vm_compute; reflexivity |]. repeat split.
Qed.

(** * Further properties of the class *)

(** ** Shared lemmas *)

(** The analysis reads the observations, the dates and the trace of the
    object, and nothing else of it. *)
Lemma posterior_reads (self1 self2 : BayesianChangePointModel) :
  dates self1 = dates self2 -> trace self1 = trace self2 ->
  get_change_point_posterior self1 = get_change_point_posterior self2.
Proof.
  intros Hd Ht. unfold get_change_point_posterior. rewrite Ht.
  destruct (trace self2) as [t|]; [|reflexivity].
  unfold single_posterior, change_point. rewrite Hd. reflexivity.
Qed.

Lemma impact_reads (self1 self2 : BayesianChangePointModel) (wb wa : Z) :
  data self1 = data self2 -> dates self1 = dates self2 ->
  trace self1 = trace self2 ->
  calculate_impact self1 wb wa = calculate_impact self2 wb wa.
Proof.
  intros Hx Hd Ht. unfold calculate_impact.
  rewrite (posterior_reads self1 self2 Hd Ht), Ht.
  unfold single_impact, multi_impact. rewrite Hx. reflexivity.
Qed.

(** What a call of [sample] leaves of the object, whatever its result: all
    but the model, the trace, the summary and the posterior. *)
Lemma sample_build_keeps
  (pm_deterministic : string -> list float -> result tensor)
  (self self' : BayesianChangePointModel) (model_type : string)
  (kwargs : gmap string scalar) r :
  sample_build pm_deterministic self model_type kwargs = (r, self') ->
  data self' = data self /\ dates self' = dates self
  /\ n_obs self' = n_obs self /\ config self' = config self
  /\ trace self' = trace self /\ summary self' = summary self
  /\ posterior self' = posterior self.
Proof.
  unfold sample_build, build_single_change_point_model,
    build_multiple_change_points_model.
  destruct (String.eqb model_type "single").
  { intros [= <- <-]. now cbn. }
  destruct (String.eqb model_type "multiple").
  2: { intros [= <- <-]. now cbn. }
  destruct (default (SInt 3) (kwargs !! "n_changepoints")) as [?|n|?];
    try (intros [= <- <-]; now cbn).
  destruct (n + 1 <? 0); [intros [= <- <-]; now cbn |].
  destruct (bind _ _); intros [= <- <-]; now cbn.
Qed.

(** What the first part of [sample] has done when it returns: the model is
    built and stored; it is the graph with one change point, unless the
    type is ['multiple'] and the series has no observation. *)
Lemma sample_build_ok
  (pm_deterministic : string -> list float -> result tensor)
  (self self' : BayesianChangePointModel) (model_type : string)
  (kwargs kw : gmap string scalar) (m : Model) :
  sample_build pm_deterministic self model_type kwargs = (Ok (m, kw), self') ->
  model self' = Some m
  /\ (model_type = "single"%string /\ m = single_graph (n_obs self) (data self)
      \/ model_type = "multiple"%string /\ n_obs self <= 0)
  /\ kw = if String.eqb model_type "single" then kwargs
          else delete "n_changepoints" kwargs.
Proof.
  unfold sample_build, build_single_change_point_model.
  destruct (String.eqb model_type "single") eqn:Es.
  { apply String.eqb_eq in Es. intros [= <- <- <-]. cbn. tauto. }
  destruct (String.eqb model_type "multiple") eqn:Em; [|discriminate].
  apply String.eqb_eq in Em.
  destruct (default (SInt 3) (kwargs !! "n_changepoints")) as [?|n|?];
    try discriminate.
  destruct (Z_lt_le_dec 0 (n_obs self)) as [Hpos | Hle].
  - destruct (build_multiple_raises pm_deterministic self n Hpos) as (e & -> & _).
    discriminate.
  - destruct (build_multiple_change_points_model pm_deterministic self n)
      as [[m'|e] self1] eqn:Hb; [|discriminate].
    cbn [bind]. intros [= <- <- <-].
    revert Hb. unfold build_multiple_change_points_model.
    destruct (n + 1 <? 0); [discriminate |].
    destruct (bind _ _); [|discriminate].
    intros [= <- <-]. cbn. tauto.
Qed.

(** ** Construction *)

(** X1: a new object holds exactly the observations of the series that
    are numbers, each with its own date and in the order of the series:
    none of them is left out, none is kept twice, and nothing else is
    kept; [n_obs] counts them; no model, trace, summary or posterior is
    there yet. *)
Theorem init_alignment
  (series : list (date * float)) (model_config : option (gmap string cfgval)) :
  let self := init series model_config in
  n_obs self = len (data self)
  /\ len (dates self) = len (data self)
  /\ n_obs self <= len series
  /\ Forall not_nan (data self)
  /\ sublist (zip (dates self) (data self)) series
  /\ zip (dates self) (data self)
     = filter (fun dx => F64.is_nan (snd dx) = false) series
  /\ (forall dx, dx ∈ series -> not_nan (snd dx) ->
      dx ∈ zip (dates self) (data self))
  /\ (Forall (fun dx => not_nan (snd dx)) series ->
      dates self = map fst series /\ data self = map snd series)
  /\ model self = None /\ trace self = None
  /\ summary self = None /\ posterior self = None.
Proof.
  cbn. unfold len. rewrite !length_map.
  set (P := fun dx : date * float => F64.is_nan (snd dx) = false).
  assert (Hzip : zip (map fst (filter P series)) (map snd (filter P series))
                 = filter P series).
  { change (map fst (filter P series)) with ((filter P series).*1).
    change (map snd (filter P series)) with ((filter P series).*2).
    apply zip_fst_snd. }
  rewrite Hzip.
  split; [reflexivity |]. split; [reflexivity |].
  split; [pose proof (length_filter P series); lia |].
  split.
  { apply Forall_map, Forall_forall. intros dx Hin.
    apply list_elem_of_filter in Hin. exact (proj1 Hin). }
  split; [apply sublist_filter |].
  split; [reflexivity |].
  split.
  { intros dx Hin Hx. apply list_elem_of_filter. split; assumption. }
  split.
  { intros H. clear Hzip. split.
    - f_equal. induction H as [|dx l Hdx Hl IH]; [reflexivity|].
      rewrite filter_cons. destruct (decide (P dx)) as [|n]; [now f_equal|].
      now destruct n.
    - f_equal. induction H as [|dx l Hdx Hl IH]; [reflexivity|].
      rewrite filter_cons. destruct (decide (P dx)) as [|n]; [now f_equal|].
      now destruct n. }
  repeat split.
Qed.

(** X2: the user's configuration replaces whole entries of the default
    one. A ['convergence'] entry that gives the R-hat threshold only
    therefore leaves no threshold for the effective sample size, and
    [check_convergence] raises [KeyError] once results are there. *)
Theorem convergence_entry_replaced
  (series : list (date * float)) (user : gmap string cfgval)
  (d : gmap string scalar) (x : float)
  (t : InferenceData) (s : list SummaryRow) :
  user !! "convergence" = Some (CDict d) ->
  d !! "rhat_threshold" = Some (SFloat x) ->
  d !! "ess_threshold" = None ->
  check_convergence (load_results (init series (Some user)) (Some t) (Some s))
  = Raise (KeyError "ess_threshold").
Proof.
  intros Hc Hr He. unfold check_convergence, threshold. cbn.
  rewrite (getitem_ok _ _ _ (update_user _ _ _ _ Hc)). cbn.
  rewrite (getitem_ok _ _ _ Hr), (getitem_missing _ _ He). reflexivity.
Qed.

Lemma convergence_entry_replaced_witness :
  check_convergence
    (load_results (init Cases.prices (Some Cases.partial_convergence))
       (Some (Examples.tau_trace [F64.of_Z 3])) (Some Examples.converged_summary))
  = Raise (KeyError "ess_threshold").
Proof.
  apply (convergence_entry_replaced Cases.prices Cases.partial_convergence
           {[ "rhat_threshold" := SFloat F64.f1_01 ]} F64.f1_01);
    reflexivity.
Defined.

(** ** Sampling *)

(** X3: a ['sampling'] entry of the user that names no number of chains,
    with none among the keyword arguments either, makes [sample] raise
    [KeyError] after the model is built and before the sampler runs: the
    result is the same for every sampler. *)
Theorem sampling_entry_replaced
  (pm_deterministic : string -> list float -> result tensor)
  (pm_sample : Model -> gmap string scalar -> result InferenceData)
  (az_summary : InferenceData -> result (list SummaryRow))
  (series : list (date * float)) (user : gmap string cfgval)
  (d kwargs : gmap string scalar) :
  user !! "sampling" = Some (CDict d) ->
  d !! "chains" = None ->
  kwargs !! "chains" = None ->
  let self := init series (Some user) in
  sample pm_deterministic pm_sample az_summary self "single" kwargs
  = (Raise (KeyError "chains"),
     set_model self (single_graph (n_obs self) (data self))).
Proof.
  intros Hs Hd Hk self. unfold sample, sample_build.
  rewrite String.eqb_refl. unfold build_single_change_point_model, sample_run.
  assert (Hcfg : Py.getitem (config (set_model self
                   (single_graph (n_obs self) (data self)))) "sampling"
                 = Ok (CDict d)).
  { apply getitem_ok. cbn. now apply update_user. }
  rewrite Hcfg. cbn [bind].
  rewrite (getitem_missing (Py.update d kwargs) "chains").
  - reflexivity.
  - rewrite update_default; assumption.
Qed.

Lemma sampling_entry_replaced_witness :
  sample Cases.constant Cases.sampler Cases.summarize
    (init Cases.prices (Some Cases.partial_sampling)) "single" ∅
  = (Raise (KeyError "chains"),
     set_model (init Cases.prices (Some Cases.partial_sampling))
       (single_graph 8 (map F64.of_Z [3; 1; 4; 1; 5; 9; 2; 6]))).
Proof.
  apply (sampling_entry_replaced Cases.constant Cases.sampler Cases.summarize
           Cases.prices Cases.partial_sampling {[ "draws" := SInt 100 ]} ∅);
    reflexivity.
Defined.

(** X4: a call of [sample] that raises before the sampler has returned a
    trace, be it while the model is built, while the sampling parameters
    are read or in the sampler itself, leaves the trace, the summary and
    the posterior of the object as they were, with its observations, dates
    and configuration; on an object without results the three analyses
    therefore still report that no trace is there. *)
Theorem failed_sample_keeps_results
  (pm_deterministic : string -> list float -> result tensor)
  (pm_sample : Model -> gmap string scalar -> result InferenceData)
  (az_summary : InferenceData -> result (list SummaryRow))
  (self self1 : BayesianChangePointModel) (model_type : string)
  (kwargs : gmap string scalar) (r : result (Model * gmap string scalar))
  (e : exn) :
  sample_build pm_deterministic self model_type kwargs = (r, self1) ->
  r = Raise e
  \/ (exists m kw, r = Ok (m, kw) /\ sample_run pm_sample self1 m kw = Raise e) ->
  sample pm_deterministic pm_sample az_summary self model_type kwargs
  = (Raise e, self1)
  /\ (trace self1 = trace self /\ summary self1 = summary self
      /\ posterior self1 = posterior self)
  /\ (data self1 = data self /\ dates self1 = dates self
      /\ n_obs self1 = n_obs self /\ config self1 = config self)
  /\ (trace self = None ->
      forall window_before window_after,
        check_convergence self1 = no_trace
        /\ get_change_point_posterior self1 = no_trace
        /\ calculate_impact self1 window_before window_after = no_trace).
Proof.
  intros Hb Hr.
  pose proof (sample_build_keeps _ _ _ _ _ _ Hb)
    as (Hx & Hd & Hn & Hc & Ht & Hs & Hp).
  split.
  { unfold sample. rewrite Hb.
    destruct Hr as [-> | (m & kw & -> & ->)]; reflexivity. }
  split; [tauto |]. split; [tauto |]. intros Hnone wb wa.
  unfold check_convergence, get_change_point_posterior, calculate_impact.
  rewrite Ht, Hnone. tauto.
Qed.

Lemma failed_sample_keeps_results_witness :
  let self := init Cases.prices None in
  let self1 := set_model self (single_graph (n_obs self) (data self)) in
  sample Cases.constant (fun _ _ => Raise (ValueError "SamplingError"))
    Cases.summarize self "single" ∅
  = (Raise (ValueError "SamplingError"), self1)
  /\ (trace self1 = trace self /\ summary self1 = summary self
      /\ posterior self1 = posterior self)
  /\ (data self1 = data self /\ dates self1 = dates self
      /\ n_obs self1 = n_obs self /\ config self1 = config self)
  /\ (trace self = None ->
      forall window_before window_after,
        check_convergence self1 = no_trace
        /\ get_change_point_posterior self1 = no_trace
        /\ calculate_impact self1 window_before window_after = no_trace).
Proof.
  cbv zeta.
  apply (failed_sample_keeps_results Cases.constant
           (fun _ _ => Raise (ValueError "SamplingError")) Cases.summarize
           (init Cases.prices None) _ "single" ∅
           (Ok (single_graph (n_obs (init Cases.prices None))
                  (data (init Cases.prices None)), ∅))
           (ValueError "SamplingError")).
  - reflexivity.
  - right. exists (single_graph (n_obs (init Cases.prices None))
                     (data (init Cases.prices None))), ∅.
    split; reflexivity.
Defined.

(** X18: when the sampler has returned a trace and [az.summary] raises on
    it, [sample] raises that exception with the new trace already stored,
    beside the summary and the posterior of before; on an object that had
    no summary, [check_convergence] then raises [TypeError]. *)
Theorem summary_failure_keeps_trace
  (pm_deterministic : string -> list float -> result tensor)
  (pm_sample : Model -> gmap string scalar -> result InferenceData)
  (az_summary : InferenceData -> result (list SummaryRow))
  (self self1 : BayesianChangePointModel) (model_type : string)
  (kwargs kw : gmap string scalar) (m : Model) (t : InferenceData) (e : exn) :
  sample_build pm_deterministic self model_type kwargs = (Ok (m, kw), self1) ->
  sample_run pm_sample self1 m kw = Ok t ->
  az_summary t = Raise e ->
  exists self',
    sample pm_deterministic pm_sample az_summary self model_type kwargs
    = (Raise e, self')
    /\ trace self' = Some t
    /\ summary self' = summary self
    /\ posterior self' = posterior self
    /\ (summary self = None -> check_convergence self' = Raise TypeError).
Proof.
  intros Hb Hr Hs.
  pose proof (sample_build_keeps _ _ _ _ _ _ Hb)
    as (_ & _ & _ & _ & _ & Hsum & Hpost).
  exists (store_trace self1 t). split.
  { unfold sample. rewrite Hb, Hr, Hs. reflexivity. }
  cbn [store_trace trace summary posterior].
  split; [reflexivity |]. split; [exact Hsum |]. split; [exact Hpost |].
  intros Hnone. unfold check_convergence. cbn [store_trace trace summary].
  rewrite Hsum, Hnone. reflexivity.
Qed.

Lemma summary_failure_keeps_trace_witness :
  let self := init Cases.prices None in
  let t := Examples.tau_trace (map F64.of_Z [3; 4; 4]) in
  exists self',
    sample Cases.constant Cases.sampler Cases.no_summary self "single" ∅
    = (Raise (ValueError "cannot be converted to InferenceData"), self')
    /\ trace self' = Some t
    /\ summary self' = summary self
    /\ posterior self' = posterior self
    /\ (summary self = None -> check_convergence self' = Raise TypeError).
Proof.
  exact (summary_failure_keeps_trace Cases.constant Cases.sampler Cases.no_summary
           (init Cases.prices None) _ "single" ∅ _ _
           (Examples.tau_trace (map F64.of_Z [3; 4; 4])) _
           eq_refl eq_refl eq_refl).
Defined.

(** X5: a call of [sample] that returns stores the trace it returns, the
    summary and the posterior of that trace, and the model it has built:
    the graph with one change point, unless the type is ['multiple'] and
    the series has no observation. The sampler was run on that model with
    the ['sampling'] entry of the configuration under the keyword
    arguments, which name the chains, the draws and the tuning steps; for
    the type ['multiple'] the number of change points is not among them.
    The observations, the dates and the configuration are as before. *)
Theorem sample_stores_results
  (pm_deterministic : string -> list float -> result tensor)
  (pm_sample : Model -> gmap string scalar -> result InferenceData)
  (az_summary : InferenceData -> result (list SummaryRow))
  (self self' : BayesianChangePointModel) (model_type : string)
  (kwargs : gmap string scalar) (t : InferenceData) :
  sample pm_deterministic pm_sample az_summary self model_type kwargs
  = (Ok t, self') ->
  trace self' = Some t
  /\ (exists s, az_summary t = Ok s /\ summary self' = Some s)
  /\ posterior self' = Some (idata_posterior t)
  /\ (data self' = data self /\ dates self' = dates self
      /\ n_obs self' = n_obs self /\ config self' = config self)
  /\ exists m base,
       model self' = Some m
       /\ (model_type = "single"%string
           /\ m = single_graph (n_obs self) (data self)
           \/ model_type = "multiple"%string /\ n_obs self <= 0)
       /\ config self !! "sampling" = Some (CDict base)
       /\ let passed := if String.eqb model_type "single" then kwargs
                        else delete "n_changepoints" kwargs in
          let params := Py.update base passed in
          pm_sample m params = Ok t
          /\ is_Some (params !! "chains") /\ is_Some (params !! "draws")
          /\ is_Some (params !! "tune")
          /\ (model_type <> "single"%string ->
              params !! "n_changepoints" = base !! "n_changepoints").
Proof.
  unfold sample.
  destruct (sample_build pm_deterministic self model_type kwargs)
    as [r self1] eqn:Hb.
  pose proof (sample_build_keeps _ _ _ _ _ _ Hb)
    as (Hx & Hd & Hn & Hc & Ht & Hs & Hp).
  destruct r as [[m kw]|e1]; [|discriminate].
  destruct (sample_build_ok _ _ _ _ _ _ _ Hb) as (Hm & Hgraph & ->).
  destruct (sample_run pm_sample self1 m _) as [t1|e2] eqn:Hr; [|discriminate].
  destruct (az_summary t1) as [s1|e3] eqn:Hsum; [|discriminate].
  intros [= -> <-].
  cbn [set_trace trace summary posterior data dates n_obs config model].
  revert Hr. unfold sample_run. rewrite Hc. unfold Py.getitem at 1.
  destruct (config self !! "sampling") as [[?|base]|] eqn:Hcfg; try discriminate.
  cbn [bind].
  set (passed := if String.eqb model_type "single" then kwargs
                 else delete "n_changepoints" kwargs).
  unfold Py.getitem.
  destruct (Py.update base passed !! "chains") eqn:H1; [|discriminate].
  destruct (Py.update base passed !! "draws") eqn:H2; [|discriminate].
  destruct (Py.update base passed !! "tune") eqn:H3; [|discriminate].
  cbn [bind]. intros Hpm.
  split; [reflexivity |]. split; [exists s1; split; [exact Hsum | reflexivity] |].
  split; [reflexivity |]. split; [tauto |].
  exists m, base. split; [exact Hm |]. split; [exact Hgraph |].
  split; [reflexivity |]. cbv zeta. fold passed.
  split; [exact Hpm |].
  split; [eexists; eassumption |]. split; [eexists; eassumption |].
  split; [eexists; eassumption |].
  intros Hne. apply update_default. subst passed.
  apply String.eqb_neq in Hne. rewrite Hne. apply lookup_delete_eq.
Qed.

Lemma sample_stores_results_witness :
  let self := init Cases.prices None in
  let kwargs : gmap string scalar := {[ "draws" := SInt 50 ]} in
  let t := Examples.tau_trace (map F64.of_Z [3; 4; 4]) in
  let self' :=
    snd (sample Cases.constant Cases.sampler Cases.summarize self "single" kwargs) in
  trace self' = Some t
  /\ (exists s, Cases.summarize t = Ok s /\ summary self' = Some s)
  /\ posterior self' = Some (idata_posterior t)
  /\ (data self' = data self /\ dates self' = dates self
      /\ n_obs self' = n_obs self /\ config self' = config self)
  /\ exists m base,
       model self' = Some m
       /\ ("single"%string = "single"%string
           /\ m = single_graph (n_obs self) (data self)
           \/ "single"%string = "multiple"%string /\ n_obs self <= 0)
       /\ config self !! "sampling" = Some (CDict base)
       /\ let passed := kwargs in
          let params := Py.update base passed in
          Cases.sampler m params = Ok t
          /\ is_Some (params !! "chains") /\ is_Some (params !! "draws")
          /\ is_Some (params !! "tune")
          /\ ("single"%string <> "single"%string ->
              params !! "n_changepoints" = base !! "n_changepoints").
Proof.
  exact (sample_stores_results Cases.constant Cases.sampler Cases.summarize
           (init Cases.prices None) _ "single" {[ "draws" := SInt 50 ]}
           (Examples.tau_trace (map F64.of_Z [3; 4; 4])) eq_refl).
Defined.

(** ** Loading *)

(** X6: the change points and the impact read from a sampled object are
    those read from any object over the same observations and dates into
    which the trace is loaded, as [load_results] does from disk, whatever
    summary is loaded with it; without a summary file, though, the loaded
    object has no summary and [check_convergence] raises [TypeError]. *)
Theorem loaded_analysis_agrees
  (pm_deterministic : string -> list float -> result tensor)
  (pm_sample : Model -> gmap string scalar -> result InferenceData)
  (az_summary : InferenceData -> result (list SummaryRow))
  (self self' other : BayesianChangePointModel) (model_type : string)
  (kwargs : gmap string scalar) (t : InferenceData)
  (summary_file : option (list SummaryRow)) (window_before window_after : Z) :
  sample pm_deterministic pm_sample az_summary self model_type kwargs
  = (Ok t, self') ->
  data other = data self -> dates other = dates self ->
  summary other = None ->
  let restored := load_results other (Some t) summary_file in
  get_change_point_posterior restored = get_change_point_posterior self'
  /\ calculate_impact restored window_before window_after
     = calculate_impact self' window_before window_after
  /\ posterior restored = posterior other
  /\ (summary_file = None -> check_convergence restored = Raise TypeError).
Proof.
  unfold sample.
  destruct (sample_build pm_deterministic self model_type kwargs)
    as [r self1] eqn:Hb.
  pose proof (sample_build_keeps _ _ _ _ _ _ Hb)
    as (Hx & Hd & Hn & Hc & Ht & Hs & Hp).
  destruct r as [[m kw]|e1]; [|discriminate].
  destruct (sample_run pm_sample self1 m kw) as [t1|e2]; [|discriminate].
  destruct (az_summary t1) as [s1|e3]; [|discriminate].
  intros [= -> <-] Hox Hod Hos.
  split; [|split; [|split]].
  - apply posterior_reads; cbn; congruence.
  - apply impact_reads; cbn; congruence.
  - reflexivity.
  - intros ->. unfold check_convergence. cbn. now rewrite Hos.
Qed.

Lemma loaded_analysis_agrees_witness :
  let self := init Cases.prices None in
  let t := Examples.tau_trace (map F64.of_Z [3; 4; 4]) in
  let self' :=
    snd (sample Cases.constant Cases.sampler Cases.summarize self "single" ∅) in
  let restored := load_results self (Some t) None in
  get_change_point_posterior restored = get_change_point_posterior self'
  /\ calculate_impact restored 2 2 = calculate_impact self' 2 2
  /\ posterior restored = posterior self
  /\ (@None (list SummaryRow) = None -> check_convergence restored = Raise TypeError).
Proof.
  exact (loaded_analysis_agrees Cases.constant Cases.sampler Cases.summarize
           (init Cases.prices None) _ (init Cases.prices None) "single" ∅
           (Examples.tau_trace (map F64.of_Z [3; 4; 4])) None 2 2
           eq_refl eq_refl eq_refl eq_refl).
Defined.

(** ** The posterior of the change points *)

Lemma index_spec {A} (l : list A) (i : Z) (a : A) :
  Py.index l i = Ok a <->
  (0 <= i /\ l !! Z.to_nat i = Some a)
  \/ (- len l <= i < 0 /\ l !! Z.to_nat (i + len l) = Some a).
Proof.
  unfold Py.index.
  destruct (Z.ltb_spec i 0) as [Hi|Hi].
  - destruct (Z.ltb_spec (i + len l) 0) as [Hj|Hj].
    + split; [discriminate|]. intros [[H _]|[[H _] _]]; lia.
    + destruct (l !! Z.to_nat (i + len l)) as [b|] eqn:Hb.
      * split.
        -- intros [= ->]. right. split; [lia|reflexivity].
        -- intros [[H _]|[_ [= ->]]]; [lia|reflexivity].
      * split; [discriminate|]. intros [[H _]|[_ H]]; [lia|discriminate].
  - destruct (Z.ltb_spec i 0) as [Hj|_]; [lia|].
    destruct (l !! Z.to_nat i) as [b|] eqn:Hb.
    + split.
      * intros [= ->]. left. split; [lia|reflexivity].
      * intros [[_ [= ->]]|[H _]]; [reflexivity|lia].
    + split; [discriminate|]. intros [[_ H]|[H _]]; [discriminate|lia].
Qed.

Lemma index_elem {A} (l : list A) (i : Z) (a : A) :
  Py.index l i = Ok a -> a ∈ l.
Proof.
  intros H. apply index_spec in H as [[_ H]|[_ H]];
    eapply list_elem_of_lookup_2; exact H.
Qed.

Lemma date_at_elem (dates : list date) (i : Z) (d : date) :
  date_at dates i = Ok d -> d ∈ dates.
Proof.
  unfold date_at. destruct (i <? len dates); apply index_elem.
Qed.

Lemma date_at_float_elem (dates : list date) (t : float) (d : date) :
  date_at_float dates t = Ok d -> d ∈ dates.
Proof.
  unfold date_at_float. destruct (F64.ltb t (F64.of_Z (len dates))).
  - intros H. apply bind_ok in H as (i & _ & H). eapply index_elem, H.
  - apply index_elem.
Qed.

(** The date of an integer estimate: the date at the estimate when it is a
    position of the series, the last date when it lies beyond the end, and
    the date counted from the end when it is negative. *)
Lemma date_at_spec (dates : list date) (i : Z) (d : date) :
  date_at dates i = Ok d ->
  (0 <= i -> dates !! Z.to_nat (Z.min i (len dates - 1)) = Some d)
  /\ (i < 0 -> - len dates <= i /\ dates !! Z.to_nat (len dates + i) = Some d).
Proof.
  unfold date_at. pose proof (Zle_0_nat (length dates)) as Hlen.
  fold (len dates) in Hlen.
  destruct (Z.ltb_spec i (len dates)) as [Hi|Hi]; intros H;
    apply index_spec in H as [[H0 H]|[H0 H]]; split; intros Hs; try lia.
  - now replace (Z.min i (len dates - 1)) with i by lia.
  - split; [lia|]. now replace (len dates + i) with (i + len dates) by lia.
  - now replace (Z.min i (len dates - 1)) with (-1 + len dates) by lia.
Qed.

Lemma mapM_Forall2 {A B} (f : A -> result B) (l : list A) (bs : list B) :
  mapM f l = Ok bs -> Forall2 (fun a b => f a = Ok b) l bs.
Proof.
  revert bs. induction l as [|a l IH]; intros bs; cbn.
  - intros [= <-]. constructor.
  - intros H. apply bind_ok in H as (b & Hb & H).
    apply bind_ok in H as (bs' & Hbs & [= <-]).
    constructor; auto.
Qed.

Lemma as_float64_flatten (a : ndarray) : as_float64 (flatten a) = as_float64 a.
Proof. now destruct a. Qed.

(** What [single_posterior] returns, read off its steps. *)
Lemma single_posterior_ok
  (self : BayesianChangePointModel) (tau : ndarray) (p : SinglePosterior) :
  single_posterior self tau = Ok p ->
  let ts := as_float64 tau in
  sp_samples p = flatten tau
  /\ mapM (date_at_float (dates self)) ts = Ok (sp_dates p)
  /\ Py.int (mean_of (flatten tau)) = Ok (sp_mean p)
  /\ Py.int (Np.median ts) = Ok (sp_median p)
  /\ Py.int (Stats.mode ts) = Ok (sp_mode p)
  /\ Az.hdi ts F64.f0_95 = Ok (sp_hdi_95 p)
  /\ date_at (dates self) (sp_mean p) = Ok (sp_mean_date p)
  /\ date_at (dates self) (sp_median p) = Ok (sp_median_date p)
  /\ date_at (dates self) (sp_mode p) = Ok (sp_mode_date p)
  /\ date_at_float (dates self) (fst (sp_hdi_95 p)) = Ok (fst (sp_hdi_95_dates p))
  /\ date_at_float (dates self) (snd (sp_hdi_95 p)) = Ok (snd (sp_hdi_95_dates p)).
Proof.
  unfold single_posterior. rewrite as_float64_flatten. intros H.
  apply bind_ok in H as (tau_dates & H1 & H).
  apply bind_ok in H as (tau_mean & H2 & H).
  apply bind_ok in H as (tau_median & H3 & H).
  apply bind_ok in H as (tau_mode & H4 & H).
  apply bind_ok in H as (tau_hdi & H5 & H).
  apply bind_ok in H as (mean_date & H6 & H).
  apply bind_ok in H as (median_date & H7 & H).
  apply bind_ok in H as (mode_date & H8 & H).
  apply bind_ok in H as (hdi_lo & H9 & H).
  apply bind_ok in H as (hdi_hi & H10 & [= <-]).
  cbn. tauto.
Qed.

Lemma posterior_single_ok
  (self : BayesianChangePointModel) (p : SinglePosterior) :
  get_change_point_posterior self = Ok (Single p) ->
  exists t tau,
    trace self = Some t /\ idata_posterior t !! "tau" = Some tau
    /\ single_posterior self tau = Ok p.
Proof.
  unfold get_change_point_posterior.
  destruct (trace self) as [t|]; [|discriminate].
  destruct (idata_posterior t !! "tau") as [tau|] eqn:Htau.
  - intros H. apply bind_ok in H as (p' & Hp & [= <-]). eauto.
  - destruct (idata_posterior t !! "changepoints") as [a|]; [|discriminate].
    destruct (shape a !! 2%nat); [|discriminate].
    intros H. apply bind_ok in H as (? & _ & [=]).
Qed.

(** X7: when the posterior of a single change point is returned, it holds
    one date for each draw of the trace, and every date in it, those of the
    mean, the median, the mode and the interval included, is a date of the
    series. The date of an integer estimate that is not negative is the
    date at that position, or the last date when the estimate lies at or
    beyond the end of the series. *)
Theorem single_posterior_dates
  (self : BayesianChangePointModel) (p : SinglePosterior) :
  get_change_point_posterior self = Ok (Single p) ->
  exists t tau,
    trace self = Some t /\ idata_posterior t !! "tau" = Some tau
    /\ sp_samples p = flatten tau
    /\ length (sp_dates p) = length (as_float64 tau)
    /\ Forall (fun d => d ∈ dates self)
         (sp_dates p ++ [sp_mean_date p; sp_median_date p; sp_mode_date p;
                         fst (sp_hdi_95_dates p); snd (sp_hdi_95_dates p)])
    /\ Forall (fun '(i, d) =>
                 0 <= i ->
                 dates self !! Z.to_nat (Z.min i (len (dates self) - 1)) = Some d)
         [(sp_mean p, sp_mean_date p); (sp_median p, sp_median_date p);
          (sp_mode p, sp_mode_date p)].
Proof.
  intros H. apply posterior_single_ok in H as (t & tau & Ht & Htau & H).
  apply single_posterior_ok in H
    as (Hs & Hd & _ & _ & _ & _ & H1 & H2 & H3 & H4 & H5).
  exists t, tau. repeat split; try assumption.
  - now apply mapM_length in Hd.
  - apply Forall_app. split.
    + apply mapM_Forall2 in Hd. clear -Hd.
      induction Hd; constructor; eauto using date_at_float_elem.
    + repeat constructor; eauto using date_at_elem, date_at_float_elem.
  - repeat constructor; intros Hi; eapply date_at_spec; eassumption.
Qed.

Lemma single_posterior_dates_witness :
  exists p,
    get_change_point_posterior Cases.beyond_end = Ok (Single p)
    /\ sp_mode p = 9 /\ sp_mode_date p = 17
    /\ exists t tau,
    trace Cases.beyond_end = Some t /\ idata_posterior t !! "tau" = Some tau
    /\ sp_samples p = flatten tau
    /\ length (sp_dates p) = length (as_float64 tau)
    /\ Forall (fun d => d ∈ dates Cases.beyond_end)
         (sp_dates p ++ [sp_mean_date p; sp_median_date p; sp_mode_date p;
                         fst (sp_hdi_95_dates p); snd (sp_hdi_95_dates p)])
    /\ Forall (fun '(i, d) =>
                 0 <= i ->
                 dates Cases.beyond_end
                   !! Z.to_nat (Z.min i (len (dates Cases.beyond_end) - 1)) = Some d)
         [(sp_mean p, sp_mean_date p); (sp_median p, sp_median_date p);
          (sp_mode p, sp_mode_date p)].
Proof.
  destruct (get_change_point_posterior Cases.beyond_end) as [[p|]|] eqn:H;
    try (vm_compute in H; discriminate).
  exists p. split; [reflexivity|].
  split; [vm_compute in H; now injection H as <-|].
  split; [vm_compute in H; now injection H as <-|].
  exact (single_posterior_dates Cases.beyond_end p H).
Defined.

Lemma add_nan_l (x : float) : F64.add F64.nan x = F64.nan.
Proof. reflexivity. Qed.

Lemma add_nan_r (x : float) : F64.add x F64.nan = F64.nan.
Proof. now destruct x. Qed.

Lemma div_nan_l (x : float) : F64.div F64.nan x = F64.nan.
Proof. reflexivity. Qed.

Lemma div_nan_r (x : float) : F64.div x F64.nan = F64.nan.
Proof. now destruct x. Qed.

Lemma sub_nan_r (x : float) : F64.sub x F64.nan = F64.nan.
Proof. now destruct x. Qed.

Lemma sum_from_nan (a : list float) : fold_left F64.add a F64.nan = F64.nan.
Proof. induction a as [|x a IH]; [reflexivity|]. cbn [fold_left]. exact IH. Qed.

Lemma sum_nan (a : list float) (acc : float) :
  F64.nan ∈ a -> fold_left F64.add a acc = F64.nan.
Proof.
  revert acc. induction a as [|x a IH]; intros acc Hin.
  - now apply elem_of_nil in Hin.
  - cbn [fold_left]. apply elem_of_cons in Hin as [<-|Hin].
    + rewrite add_nan_r. apply sum_from_nan.
    + now apply IH.
Qed.

(** A NaN among the elements is a NaN in each of the ways NumPy adds them
    up: in the lanes, in a block, in the halves. *)
Lemma zip_add_nan_l (r a : list float) :
  (length r <= length a)%nat -> F64.nan ∈ r -> F64.nan ∈ zip_with F64.add r a.
Proof.
  revert a. induction r as [|x r IH]; intros a Hlen Hin.
  - now apply elem_of_nil in Hin.
  - destruct a as [|y a]; [cbn in Hlen; lia |]. cbn [zip_with].
    apply elem_of_cons in Hin as [<- | Hin].
    + rewrite add_nan_l. apply list_elem_of_here.
    + apply list_elem_of_further. apply IH; [cbn in Hlen; lia | exact Hin].
Qed.

Lemma zip_add_nan_r (r a : list float) :
  (length a <= length r)%nat -> F64.nan ∈ a -> F64.nan ∈ zip_with F64.add r a.
Proof.
  revert r. induction a as [|y a IH]; intros r Hlen Hin.
  - now apply elem_of_nil in Hin.
  - destruct r as [|x r]; [cbn in Hlen; lia |]. cbn [zip_with].
    apply elem_of_cons in Hin as [<- | Hin].
    + rewrite add_nan_r. apply list_elem_of_here.
    + apply list_elem_of_further. apply IH; [cbn in Hlen; lia | exact Hin].
Qed.

Lemma lane_sums_nan (turns : nat) (r a r' a' : list float) :
  Np.lane_sums r a turns = (r', a') ->
  (length r <= 8)%nat ->
  (length r = 8%nat -> F64.nan ∈ r \/ F64.nan ∈ a) ->
  (length r' <= 8)%nat /\ (length r' = 8%nat -> F64.nan ∈ r' \/ F64.nan ∈ a').
Proof.
  revert r a. induction turns as [|turns IH]; intros r a; cbn [Np.lane_sums].
  - intros [= <- <-]. auto.
  - intros H Hlen Hnan. apply (IH _ _ H).
    + rewrite length_zip_with. lia.
    + rewrite length_zip_with, length_take. intros H8.
      destruct Hnan as [Hr | Ha]; [lia | |].
      * left. apply zip_add_nan_l; [rewrite length_take; lia | exact Hr].
      * rewrite <- (take_drop 8 a) in Ha. apply elem_of_app in Ha as [Ha | Ha].
        -- left. apply zip_add_nan_r; [rewrite length_take; lia | exact Ha].
        -- right. exact Ha.
Qed.

Lemma block_sum_nan (a : list float) : F64.nan ∈ a -> Np.block_sum a = F64.nan.
Proof.
  intros Hin. unfold Np.block_sum.
  destruct (Np.lane_sums (take 8 a) (drop 8 a) (length a / 8 - 1))
    as [r rest] eqn:H.
  apply lane_sums_nan in H as [_ Hnan].
  - destruct r as [|r0 [|r1 [|r2 [|r3 [|r4 [|r5 [|r6 [|r7 [|r8 r]]]]]]]]];
      try reflexivity.
    destruct (Hnan eq_refl) as [Hr | Hrest]; [| apply sum_nan; exact Hrest].
    replace (F64.add (F64.add (F64.add r0 r1) (F64.add r2 r3))
               (F64.add (F64.add r4 r5) (F64.add r6 r7))) with F64.nan;
      [apply sum_from_nan |].
    repeat (apply elem_of_cons in Hr as [<- | Hr];
            [now rewrite ?add_nan_l, ?add_nan_r, ?add_nan_l, ?add_nan_r |]).
    now apply elem_of_nil in Hr.
  - rewrite length_take. lia.
  - intros _. rewrite <- (take_drop 8 a) in Hin.
    apply elem_of_app in Hin. exact Hin.
Qed.

Lemma pairwise_sum_nan (fuel : nat) (a : list float) :
  F64.nan ∈ a -> Np.pairwise_sum fuel a = F64.nan.
Proof.
  revert a. induction fuel as [|fuel IH]; intros a Hin; cbn [Np.pairwise_sum].
  - destruct (length a <? 8)%nat; [apply sum_nan; exact Hin |].
    destruct (length a <=? 128)%nat; [apply block_sum_nan; exact Hin | reflexivity].
  - destruct (length a <? 8)%nat; [apply sum_nan; exact Hin |].
    destruct (length a <=? 128)%nat; [apply block_sum_nan; exact Hin |].
    set (n2 := (length a / 2 - (length a / 2) mod 8)%nat).
    rewrite <- (take_drop n2 a) in Hin. apply elem_of_app in Hin as [Hin | Hin].
    + rewrite (IH _ Hin). apply add_nan_l.
    + rewrite (IH (drop n2 a) Hin). apply add_nan_r.
Qed.

Lemma buffered_sum_nan (fuel : nat) (acc : float) (a : list float) :
  (length a <= fuel)%nat -> acc = F64.nan \/ F64.nan ∈ a ->
  Np.buffered_sum fuel acc a = F64.nan.
Proof.
  revert acc a. induction fuel as [|fuel IH]; intros acc a Hlen Hnan.
  - destruct a as [|x a]; [| cbn in Hlen; lia]. cbn.
    destruct Hnan as [-> | Hin]; [reflexivity | now apply elem_of_nil in Hin].
  - destruct a as [|x a].
    { cbn. destruct Hnan as [-> | Hin]; [reflexivity | now apply elem_of_nil in Hin]. }
    cbn [Np.buffered_sum]. apply IH.
    + rewrite length_drop. unfold Np.bufsize. cbn [length] in *. lia.
    + destruct Hnan as [-> | Hin]; [left; apply add_nan_l |].
      rewrite <- (take_drop Np.bufsize (x :: a)) in Hin.
      apply elem_of_app in Hin as [Hin | Hin].
      * left. rewrite (pairwise_sum_nan _ _ Hin). apply add_nan_r.
      * right. exact Hin.
Qed.

(** The mean of no draws, or of draws with a NaN among them, is NaN. *)
Lemma mean_nan (a : list float) : a = [] \/ F64.nan ∈ a -> Np.mean a = F64.nan.
Proof.
  intros [->|Hin]; [reflexivity|].
  unfold Np.mean, Np.sum. rewrite (pairwise_sum_nan _ _ Hin). apply div_nan_l.
Qed.

Lemma mean_cast_nan (a : list float) :
  a = [] \/ F64.nan ∈ a -> Np.mean_cast a = F64.nan.
Proof.
  intros [->|Hin]; [reflexivity|].
  unfold Np.mean_cast, Np.sum_cast.
  rewrite buffered_sum_nan; [apply div_nan_l | lia | right; exact Hin].
Qed.

Lemma mean_of_nan (a : ndarray) :
  as_float64 a = [] \/ F64.nan ∈ as_float64 a -> mean_of (flatten a) = F64.nan.
Proof.
  destruct a as [sh v | sh v]; cbn [as_float64 flatten mean_of].
  - apply mean_nan.
  - apply mean_cast_nan.
Qed.

(** X8: a trace whose change point has no draw, or a draw that is NaN,
    never gives estimates: [get_change_point_posterior] raises, and with
    it [calculate_impact]. When every draw has a date, the exception is the
    [ValueError] of the conversion of the NaN mean to an integer. *)
Theorem nan_draw_no_estimates
  (self : BayesianChangePointModel) (t : InferenceData) (tau : ndarray)
  (window_before window_after : Z) :
  trace self = Some t ->
  idata_posterior t !! "tau" = Some tau ->
  as_float64 tau = [] \/ F64.nan ∈ as_float64 tau ->
  exists e,
    get_change_point_posterior self = Raise e
    /\ calculate_impact self window_before window_after = Raise e
    /\ (forall ds, mapM (date_at_float (dates self)) (as_float64 tau) = Ok ds ->
        e = ValueError "cannot convert float NaN to integer").
Proof.
  intros Ht Htau Hnan.
  unfold calculate_impact, get_change_point_posterior. rewrite Ht, Htau.
  unfold single_posterior. rewrite as_float64_flatten, (mean_of_nan _ Hnan).
  destruct (mapM (date_at_float (dates self)) (as_float64 tau)) as [ds|e].
  - eexists. cbn. split; [reflexivity|]. split; [reflexivity|]. reflexivity.
  - exists e. cbn. split; [reflexivity|]. split; [reflexivity|]. discriminate.
Qed.

Lemma nan_draw_no_estimates_witness :
  let self := Examples.loaded [3; 1; 4; 1; 5; 9; 2; 6]
                (Examples.tau_trace [F64.of_Z 3; F64.nan]) in
  exists e,
    get_change_point_posterior self = Raise e
    /\ calculate_impact self 30 30 = Raise e
    /\ (forall ds,
          mapM (date_at_float (dates self)) [F64.of_Z 3; F64.nan] = Ok ds ->
          e = ValueError "cannot convert float NaN to integer").
Proof.
  exact (nan_draw_no_estimates
           (Examples.loaded [3; 1; 4; 1; 5; 9; 2; 6]
              (Examples.tau_trace [F64.of_Z 3; F64.nan]))
           (Examples.tau_trace [F64.of_Z 3; F64.nan])
           (Float64 [1%nat; 2%nat] [F64.of_Z 3; F64.nan]) 30 30
           eq_refl eq_refl
           (or_intror (list_elem_of_further _ _ _ (list_elem_of_here _ _)))).
Defined.

(** X25: the mode that the summarizer returns for a single change point is
    taken over the draws as they were sampled, before any of them is turned
    into an integer: it is a draw that no draw exceeds in frequency, the
    least of the most frequent ones, with its fraction dropped. When no
    draw occurs twice, it is the least draw with its fraction dropped. *)
Theorem mode_of_raw_draws
  (self : BayesianChangePointModel) (t : InferenceData) (tau : ndarray)
  (p : SinglePosterior) :
  trace self = Some t ->
  idata_posterior t !! "tau" = Some tau ->
  get_change_point_posterior self = Ok (Single p) ->
  let pool := as_float64 (flatten tau) in
  exists v,
    is_mode pool v
    /\ F64.trunc v = Some (sp_mode p)
    /\ ((forall x, x ∈ pool -> Stats.count x pool = 1%nat) ->
        forall x, x ∈ pool -> F64.ltb x v = false).
Proof.
  intros Ht Htau H pool.
  assert (Hp : single_posterior self tau = Ok p).
  { revert H. unfold get_change_point_posterior. rewrite Ht, Htau.
    intros H. apply bind_ok in H as (p' & Hp & H). congruence. }
  apply single_posterior_ok in Hp as (_ & _ & Hmean & _ & Hmode & _).
  cbv zeta in Hmode. rewrite <- as_float64_flatten in Hmode. fold pool in Hmode.
  assert (Hne : pool <> []).
  { intros Hnil. rewrite (mean_of_nan tau) in Hmean; [discriminate |].
    left. rewrite <- as_float64_flatten. exact Hnil. }
  exists (Stats.mode pool).
  pose proof (mode_is_mode pool Hne) as Hm.
  split; [exact Hm |]. split; [apply int_trunc; exact Hmode |].
  intros Hone x Hx. destruct Hm as [Hv Hbest].
  destruct (Hbest x Hx) as [_ Htie]. apply Htie.
  rewrite (Hone x Hx), (Hone _ Hv). reflexivity.
Qed.

Lemma mode_of_raw_draws_witness :
  exists p v,
    get_change_point_posterior Examples.skewed = Ok (Single p)
    /\ sp_mode p = 3
    /\ is_mode Examples.skewed_pool v
    /\ F64.trunc v = Some (sp_mode p).
Proof.
  assert (H : exists p, get_change_point_posterior Examples.skewed = Ok (Single p)
                        /\ sp_mode p = 3).
  { eexists. split; [vm_compute; reflexivity | reflexivity]. }
  destruct H as (p & Hp & H3).
  destruct (mode_of_raw_draws Examples.skewed
              (Examples.tau_trace Examples.skewed_pool)
              (Float64 [1%nat; 6%nat] Examples.skewed_pool) p
              eq_refl eq_refl Hp) as (v & Hv & Ht & _).
  exists p, v. split; [exact Hp |]. split; [exact H3 |].
  split; [exact Hv | exact Ht].
Defined.

(** ** Several change points *)

Lemma strided_length {A} (rows k i r : nat) (v : list A) :
  (i < k)%nat -> length v = (rows * (k * r))%nat ->
  length (strided rows k i r v) = (rows * r)%nat.
Proof.
  intros Hi. revert v. induction rows as [|rows IH]; intros v Hv; [reflexivity|].
  cbn [strided]. rewrite length_app, length_take, length_drop, IH.
  - assert (i * r + r <= k * r)%nat by nia. lia.
  - rewrite length_drop. lia.
Qed.

Lemma strided_lookup {A} (rows k i : nat) (v : list A) (j : nat) :
  (i < k)%nat -> length v = (rows * k)%nat -> (j < rows)%nat ->
  strided rows k i 1 v !! j = v !! (j * k + i)%nat.
Proof.
  intros Hi. revert v j. induction rows as [|rows IH]; intros v j Hv Hj; [lia|].
  cbn [strided]. rewrite !Nat.mul_1_r.
  destruct j as [|j].
  - rewrite lookup_app_l by (rewrite length_take, length_drop; nia).
    rewrite lookup_take_lt by lia. rewrite lookup_drop. f_equal. lia.
  - rewrite lookup_app_r by (rewrite length_take, length_drop; nia).
    rewrite length_take, length_drop.
    replace (S j - 1 `min` (length v - i))%nat with j by nia.
    rewrite IH by (rewrite ?length_drop; nia).
    rewrite lookup_drop. f_equal. lia.
Qed.

(** X9: [a[:, :, i].flatten()] of an array of [c] chains, [d] draws and
    [k] change points holds the [i]-th change point of every draw, in the
    order of the draws: [c * d] entries, the [j]-th one from position
    [j * k + i] of the array. *)
Theorem select_axis2_picks (c d k i : nat) (v : list Z) :
  length v = (c * d * k)%nat -> (i < k)%nat ->
  let picked := as_float64 (select_axis2 (Int64 [c; d; k] v) i) in
  shape (select_axis2 (Int64 [c; d; k] v) i) = [(c * d)%nat]
  /\ length picked = (c * d)%nat
  /\ forall j, (j < c * d)%nat ->
       picked !! j = F64.of_Z <$> v !! (j * k + i)%nat.
Proof.
  intros Hv Hi. unfold select_axis2. cbn [shape foldr as_float64].
  assert (Hlen : length (strided (c * d) k i 1 v) = (c * d)%nat).
  { rewrite strided_length; [lia|assumption|lia]. }
  rewrite Hlen, length_map, Hlen. repeat split.
  intros j Hj. rewrite list_lookup_fmap. f_equal.
  now apply strided_lookup.
Qed.

Lemma select_axis2_picks_witness :
  let v := [2; 4; 6; 8; 1; 3; 5; 8] in
  let picked := as_float64 (select_axis2 (Int64 [1; 2; 4]%nat v) 2) in
  shape (select_axis2 (Int64 [1; 2; 4]%nat v) 2) = [(1 * 2)%nat]
  /\ length picked = (1 * 2)%nat
  /\ forall j, (j < 1 * 2)%nat ->
       picked !! j = F64.of_Z <$> v !! (j * 4 + 2)%nat.
Proof.
  exact (select_axis2_picks 1 2 4 2 [2; 4; 6; 8; 1; 3; 5; 8]
           eq_refl ltac:(lia)).
Defined.

Lemma posterior_multiple_ok
  (self : BayesianChangePointModel) (cps : list ChangePoint) :
  get_change_point_posterior self = Ok (Multiple cps) ->
  exists t a k,
    trace self = Some t /\ idata_posterior t !! "tau" = None
    /\ idata_posterior t !! "changepoints" = Some a
    /\ shape a !! 2%nat = Some k
    /\ mapM (change_point self a) (seq 0 k) = Ok cps.
Proof.
  unfold get_change_point_posterior.
  destruct (trace self) as [t|]; [|discriminate].
  destruct (idata_posterior t !! "tau") as [tau|] eqn:Htau.
  { intros H. apply bind_ok in H as (? & _ & [=]). }
  destruct (idata_posterior t !! "changepoints") as [a|] eqn:Ha; [|discriminate].
  destruct (shape a !! 2%nat) as [k|] eqn:Hk; [|discriminate].
  intros H. apply bind_ok in H as (cps' & Hcps & [= <-]).
  exists t, a, k. repeat split; auto.
Qed.

(** X10: when the posterior of several change points is returned, it holds
    one estimate for each entry of the third axis of ['changepoints'], in
    their order: the estimate at place [i] has index [i], pools the [i]-th
    entries of all draws, has for its mean the truncated mean of that pool,
    and for its date a date of the series: the date at the mean when it is
    a position of the series, the last date when it lies beyond the end. *)
Theorem multiple_posterior_estimates
  (self : BayesianChangePointModel) (cps : list ChangePoint) :
  get_change_point_posterior self = Ok (Multiple cps) ->
  exists t a k,
    trace self = Some t
    /\ idata_posterior t !! "changepoints" = Some a
    /\ shape a !! 2%nat = Some k
    /\ length cps = k
    /\ forall i cp, cps !! i = Some cp ->
         cp_index cp = Z.of_nat i
         /\ cp_samples cp = select_axis2 a i
         /\ F64.trunc (mean_of (select_axis2 a i)) = Some (cp_mean cp)
         /\ Az.hdi (as_float64 (select_axis2 a i)) F64.f0_95 = Ok (cp_hdi_95 cp)
         /\ cp_mean_date cp ∈ dates self
         /\ (0 <= cp_mean cp ->
             dates self !! Z.to_nat (Z.min (cp_mean cp) (len (dates self) - 1))
             = Some (cp_mean_date cp)).
Proof.
  intros H. apply posterior_multiple_ok in H as (t & a & k & Ht & _ & Ha & Hk & H).
  exists t, a, k. do 3 (split; [assumption|]). split.
  { apply mapM_length in H. now rewrite length_seq in H. }
  intros i cp Hcp. apply mapM_Forall2 in H.
  destruct (Forall2_lookup_r _ _ _ _ _ H Hcp) as (i' & Hi & Hc).
  apply lookup_seq in Hi as [-> _]. cbn in Hc.
  unfold change_point in Hc.
  apply bind_ok in Hc as (m & Hm & Hc).
  apply bind_ok in Hc as (d & Hd & Hc).
  apply bind_ok in Hc as (hdi & Hh & [= <-]). cbn.
  split; [reflexivity|]. split; [reflexivity|].
  split; [now apply int_trunc|]. split; [assumption|].
  split; [eapply date_at_elem, Hd|].
  intros H0. eapply date_at_spec; eassumption.
Qed.

Lemma multiple_posterior_estimates_witness :
  exists cps,
    get_change_point_posterior Examples.three_change_points = Ok (Multiple cps)
    /\ exists t a k,
    trace Examples.three_change_points = Some t
    /\ idata_posterior t !! "changepoints" = Some a
    /\ shape a !! 2%nat = Some k
    /\ length cps = k
    /\ forall i cp, cps !! i = Some cp ->
         cp_index cp = Z.of_nat i
         /\ cp_samples cp = select_axis2 a i
         /\ F64.trunc (mean_of (select_axis2 a i)) = Some (cp_mean cp)
         /\ Az.hdi (as_float64 (select_axis2 a i)) F64.f0_95 = Ok (cp_hdi_95 cp)
         /\ cp_mean_date cp ∈ dates Examples.three_change_points
         /\ (0 <= cp_mean cp ->
             dates Examples.three_change_points
               !! Z.to_nat (Z.min (cp_mean cp)
                              (len (dates Examples.three_change_points) - 1))
             = Some (cp_mean_date cp)).
Proof.
  destruct (get_change_point_posterior Examples.three_change_points)
    as [[p|cps]|] eqn:H; try (vm_compute in H; discriminate).
  exists cps. split; [reflexivity|].
  exact (multiple_posterior_estimates Examples.three_change_points cps H).
Defined.

(** ** The impact *)

Lemma slice_length {A} (l : list A) (a b : Z) :
  0 <= a -> 0 <= b ->
  len (Py.slice l a b) = Z.max 0 (Z.min (len l) b - Z.min (len l) a).
Proof.
  intros Ha Hb. unfold Py.slice, Py.slice_bound, len.
  destruct (Z.ltb_spec a 0); [lia|]. destruct (Z.ltb_spec b 0); [lia|].
  rewrite length_take, length_drop. lia.
Qed.

Lemma slice_adjacent {A} (l : list A) (a b c : Z) :
  0 <= a <= b -> b <= c ->
  Py.slice l a b ++ Py.slice l b c = Py.slice l a c.
Proof.
  intros Hab Hbc. unfold Py.slice, Py.slice_bound.
  destruct (Z.ltb_spec a 0); [lia|]. destruct (Z.ltb_spec b 0); [lia|].
  destruct (Z.ltb_spec c 0); [lia|].
  set (n := len l).
  assert (Hn : n = Z.of_nat (length l)) by reflexivity.
  set (a' := Z.to_nat (Z.max 0 (Z.min n a))).
  set (b' := Z.to_nat (Z.max 0 (Z.min n b))).
  set (c' := Z.to_nat (Z.max 0 (Z.min n c))).
  replace (Z.to_nat (Z.max 0 (Z.min n b) - Z.max 0 (Z.min n a))) with (b' - a')%nat by lia.
  replace (Z.to_nat (Z.max 0 (Z.min n c) - Z.max 0 (Z.min n b))) with (c' - b')%nat by lia.
  replace (Z.to_nat (Z.max 0 (Z.min n c) - Z.max 0 (Z.min n a))) with (c' - a')%nat by lia.
  assert (a' <= b' <= c')%nat by lia.
  replace (drop b' l) with (drop (b' - a') (drop a' l))
    by (rewrite drop_drop; f_equal; lia).
  replace (c' - a')%nat with ((b' - a') + (c' - b'))%nat by lia.
  apply take_take_drop.
Qed.

Lemma slice_empty_to_zero {A} (l : list A) (a : Z) : 0 <= a -> Py.slice l a 0 = [].
Proof.
  intros Ha. unfold Py.slice, Py.slice_bound.
  destruct (Z.ltb_spec a 0); [lia|]. change (0 <? 0) with false. cbv iota.
  pose proof (Zle_0_nat (length l)) as Hl. fold (len l) in Hl.
  replace (Z.to_nat (Z.max 0 (Z.min (len l) 0) - Z.max 0 (Z.min (len l) a)))
    with 0%nat by lia.
  apply take_0.
Qed.

Lemma slice_empty_beyond {A} (l : list A) (a b : Z) :
  len l <= a -> Py.slice l a b = [].
Proof.
  intros Ha. unfold Py.slice, Py.slice_bound.
  pose proof (Zle_0_nat (length l)) as Hl. fold (len l) in Hl.
  destruct (Z.ltb_spec a 0); [lia|].
  rewrite drop_ge; [apply take_nil|]. unfold len in *. lia.
Qed.

(** What [calculate_impact] returns once the posterior is there. *)
Lemma impact_single
  (self : BayesianChangePointModel) (p : SinglePosterior) (wb wa : Z) :
  get_change_point_posterior self = Ok (Single p) ->
  calculate_impact self wb wa = Ok (ImpactSingle (single_impact self p wb wa)).
Proof.
  intros H. unfold calculate_impact.
  destruct (posterior_ok_trace _ _ H) as [t ->]. now rewrite H.
Qed.

Lemma impact_multiple
  (self : BayesianChangePointModel) (cps : list ChangePoint) (wb wa : Z) :
  get_change_point_posterior self = Ok (Multiple cps) ->
  calculate_impact self wb wa
  = Ok (ImpactMultiple (map (fun cp => multi_impact self cp wb wa) cps)).
Proof.
  intros H. unfold calculate_impact.
  destruct (posterior_ok_trace _ _ H) as [t ->]. now rewrite H.
Qed.

Lemma impact_raise
  (self : BayesianChangePointModel) (e : exn) (wb wa : Z) :
  get_change_point_posterior self = Raise e ->
  calculate_impact self wb wa = Raise e.
Proof.
  intros H. unfold calculate_impact.
  destruct (trace self) eqn:Ht; [now rewrite H|].
  unfold get_change_point_posterior in H. rewrite Ht in H.
  unfold no_trace in *. now injection H as <-.
Qed.

Lemma impact_ok
  (self : BayesianChangePointModel) (i : PosteriorInfo) (wb wa : Z) :
  get_change_point_posterior self = Ok i ->
  exists im, calculate_impact self wb wa = Ok im.
Proof.
  destruct i as [p|cps]; intros H; eexists.
  - exact (impact_single _ _ _ _ H).
  - exact (impact_multiple _ _ _ _ H).
Qed.

(** X11: [calculate_impact] raises exactly when
    [get_change_point_posterior] does, and then the same exception,
    whatever the windows; otherwise it returns the impact at the mode of the
    single change point, or one impact for each of the several change
    points, in their order, at their means. *)
Theorem impact_follows_posterior
  (self : BayesianChangePointModel) (window_before window_after : Z) :
  match get_change_point_posterior self with
  | Raise e => calculate_impact self window_before window_after = Raise e
  | Ok (Single p) =>
      exists r,
        calculate_impact self window_before window_after = Ok (ImpactSingle r)
        /\ si_change_point_index r = sp_mode p
        /\ si_change_point_date r = sp_mode_date p
  | Ok (Multiple cps) =>
      exists rs,
        calculate_impact self window_before window_after = Ok (ImpactMultiple rs)
        /\ map mi_change_point_index rs = map cp_mean cps
        /\ map mi_change_point_date rs = map cp_mean_date cps
  end.
Proof.
  destruct (get_change_point_posterior self) as [[p|cps]|e] eqn:H.
  - eexists. split; [exact (impact_single _ _ _ _ H)|]. now cbn.
  - eexists. split; [exact (impact_multiple _ _ _ _ H)|].
    rewrite !map_map. now cbn.
  - now apply impact_raise.
Qed.

(** X12: around a mode that is not negative, with windows that are not
    negative, the two windows of the impact never hold more observations
    than asked for, and hold exactly as many when the series reaches that
    far; the window after a mode at or beyond the end of the series is
    empty. Taken together the two windows are the stretch of the series
    from [start_idx] to [end_idx]. *)
Theorem impact_window_sizes
  (self : BayesianChangePointModel) (p : SinglePosterior)
  (window_before window_after : Z) :
  get_change_point_posterior self = Ok (Single p) ->
  0 <= sp_mode p -> 0 <= window_before -> 0 <= window_after ->
  let m := sp_mode p in
  let n := len (data self) in
  let start_idx := Z.max 0 (m - window_before) in
  let end_idx := Z.min n (m + window_after) in
  exists r,
    calculate_impact self window_before window_after = Ok (ImpactSingle r)
    /\ 0 <= ws_n_obs (si_before r) <= window_before
    /\ 0 <= ws_n_obs (si_after r) <= window_after
    /\ (window_before <= m <= n -> ws_n_obs (si_before r) = window_before)
    /\ (m + window_after <= n -> ws_n_obs (si_after r) = window_after)
    /\ (n <= m -> ws_n_obs (si_after r) = 0)
    /\ exists before after,
         si_before r = window_stats before /\ si_after r = window_stats after
         /\ before ++ after = Py.slice (data self) start_idx end_idx.
Proof.
  intros H Hm Hb Ha m n start_idx end_idx.
  eexists. split; [exact (impact_single _ _ _ _ H)|].
  cbn [single_impact si_before si_after window_stats ws_n_obs].
  fold m n start_idx end_idx.
  assert (Hn : 0 <= n) by apply Zle_0_nat.
  rewrite !slice_length by lia. fold n.
  do 5 (split; [lia|]).
  eexists _, _. split; [reflexivity|]. split; [reflexivity|].
  destruct (Z_le_gt_dec m n) as [Hmn|Hmn].
  - apply slice_adjacent; lia.
  - rewrite (slice_empty_beyond (data self) m) by (fold n; lia).
    rewrite app_nil_r. unfold Py.slice, Py.slice_bound. fold n.
    destruct (Z.ltb_spec start_idx 0); [lia|].
    destruct (Z.ltb_spec m 0); [lia|]. destruct (Z.ltb_spec end_idx 0); [lia|].
    do 2 f_equal. lia.
Qed.

Lemma impact_window_sizes_witness :
  exists p r,
    get_change_point_posterior Cases.three_draws = Ok (Single p)
    /\ sp_mode p = 4
    /\ calculate_impact Cases.three_draws 3 30 = Ok (ImpactSingle r)
    /\ 0 <= ws_n_obs (si_before r) <= 3
    /\ 0 <= ws_n_obs (si_after r) <= 30
    /\ (3 <= sp_mode p <= len (data Cases.three_draws) ->
        ws_n_obs (si_before r) = 3)
    /\ (sp_mode p + 30 <= len (data Cases.three_draws) ->
        ws_n_obs (si_after r) = 30)
    /\ (len (data Cases.three_draws) <= sp_mode p -> ws_n_obs (si_after r) = 0)
    /\ exists before after,
         si_before r = window_stats before /\ si_after r = window_stats after
         /\ before ++ after
            = Py.slice (data Cases.three_draws) (Z.max 0 (sp_mode p - 3))
                (Z.min (len (data Cases.three_draws)) (sp_mode p + 30)).
Proof.
  destruct (get_change_point_posterior Cases.three_draws) as [[p|]|] eqn:H;
    try (vm_compute in H; discriminate).
  assert (Hm : sp_mode p = 4) by (vm_compute in H; now injection H as <-).
  assert (H0 : 0 <= sp_mode p) by (rewrite Hm; lia).
  destruct (impact_window_sizes Cases.three_draws p 3 30 H
              H0 ltac:(lia) ltac:(lia)) as [r Hr].
  exists p, r. split; [reflexivity|]. split; [exact Hm|]. exact Hr.
Defined.

Lemma std_empty : Np.std [] = F64.nan.
Proof. reflexivity. Qed.

Lemma impact_single_inv
  (self : BayesianChangePointModel) (r : SingleImpact) (wb wa : Z) :
  calculate_impact self wb wa = Ok (ImpactSingle r) ->
  exists p,
    get_change_point_posterior self = Ok (Single p)
    /\ r = single_impact self p wb wa.
Proof.
  unfold calculate_impact. destruct (trace self); [|discriminate].
  destruct (get_change_point_posterior self) as [[p|cps]|e]; cbn;
    try discriminate.
  intros [= <-]. eauto.
Qed.

(** X13: a mode at the start of the series leaves no observation before
    it, and a mode at or beyond the end of the series none after it; the
    mean of that window is then NaN, and so are the mean change, the percent
    change, the volatility change and the effect size. No exception is
    raised. *)
Theorem impact_at_series_end
  (self : BayesianChangePointModel) (p : SinglePosterior)
  (window_before window_after : Z) :
  get_change_point_posterior self = Ok (Single p) ->
  sp_mode p = 0 \/ len (data self) <= sp_mode p ->
  exists r,
    calculate_impact self window_before window_after = Ok (ImpactSingle r)
    /\ (sp_mode p = 0 ->
        ws_n_obs (si_before r) = 0 /\ ws_mean (si_before r) = F64.nan)
    /\ (len (data self) <= sp_mode p ->
        ws_n_obs (si_after r) = 0 /\ ws_mean (si_after r) = F64.nan)
    /\ mean_change (si_impact r) = F64.nan
    /\ percent_change (si_impact r) = F64.nan
    /\ volatility_change (si_impact r) = F64.nan
    /\ effect_size (si_impact r) = F64.nan.
Proof.
  intros H Hend.
  eexists. split; [exact (impact_single _ _ _ _ H)|].
  cbn [single_impact si_before si_after si_impact window_stats ws_n_obs ws_mean
       mean_change percent_change volatility_change effect_size].
  split; [|split].
  - intros ->. now rewrite slice_empty_to_zero by lia.
  - intros Hn. now rewrite slice_empty_beyond.
  - destruct Hend as [->|Hn].
    + rewrite slice_empty_to_zero by lia. rewrite mean_empty, std_empty.
      rewrite !sub_nan_r, !div_nan_r. repeat split; reflexivity.
    + rewrite (slice_empty_beyond (data self) (sp_mode p)) by assumption.
      rewrite mean_empty, std_empty. repeat split; reflexivity.
Qed.

Lemma impact_at_series_end_witness :
  exists p r,
    get_change_point_posterior Cases.beyond_end = Ok (Single p)
    /\ sp_mode p = 9
    /\ calculate_impact Cases.beyond_end 30 30 = Ok (ImpactSingle r)
    /\ (sp_mode p = 0 ->
        ws_n_obs (si_before r) = 0 /\ ws_mean (si_before r) = F64.nan)
    /\ (len (data Cases.beyond_end) <= sp_mode p ->
        ws_n_obs (si_after r) = 0 /\ ws_mean (si_after r) = F64.nan)
    /\ mean_change (si_impact r) = F64.nan
    /\ percent_change (si_impact r) = F64.nan
    /\ volatility_change (si_impact r) = F64.nan
    /\ effect_size (si_impact r) = F64.nan.
Proof.
  destruct (get_change_point_posterior Cases.beyond_end) as [[p|]|] eqn:H;
    try (vm_compute in H; discriminate).
  assert (Hm : sp_mode p = 9) by (vm_compute in H; now injection H as <-).
  assert (Hend : len (data Cases.beyond_end) <= sp_mode p)
    by (rewrite Hm; vm_compute; discriminate).
  destruct (impact_at_series_end Cases.beyond_end p 30 30 H (or_intror Hend))
    as [r Hr].
  exists p, r. split; [reflexivity|]. split; [exact Hm|]. exact Hr.
Defined.

Lemma div_zero_denominator (x y : float) :
  F64.is_zero y = true ->
  (F64.is_zero x || F64.is_nan x = true -> F64.div x y = F64.nan)
  /\ (F64.is_zero x || F64.is_nan x = false -> F64.is_inf (F64.div x y) = true).
Proof.
  intros Hz. destruct y as [sy|sy| |sy my ey]; try discriminate.
  destruct x as [sx|sx| |sx mx ex]; cbn; split; intros H;
    try discriminate; reflexivity.
Qed.

(** X14: the effect size divides by the standard deviation before the
    change point without a guard. When that deviation is zero, as for a
    window of one observation, the effect size of the result is NaN (the
    mean change is zero or NaN) or else an infinity. *)
Theorem effect_size_zero_spread
  (self : BayesianChangePointModel) (r : SingleImpact)
  (window_before window_after : Z) :
  calculate_impact self window_before window_after = Ok (ImpactSingle r) ->
  F64.is_zero (ws_std (si_before r)) = true ->
  let change := mean_change (si_impact r) in
  (F64.is_zero change || F64.is_nan change = true ->
   effect_size (si_impact r) = F64.nan)
  /\ (F64.is_zero change || F64.is_nan change = false ->
      F64.is_inf (effect_size (si_impact r)) = true).
Proof.
  intros H Hz. apply impact_single_inv in H as (p & _ & ->).
  cbn in *. now apply div_zero_denominator.
Qed.

Lemma effect_size_zero_spread_witness :
  exists r,
    calculate_impact Cases.three_draws 1 2 = Ok (ImpactSingle r)
    /\ ws_n_obs (si_before r) = 1
    /\ mean_change (si_impact r) = F64.of_Z 6
    /\ F64.is_inf (effect_size (si_impact r)) = true.
Proof.
  destruct (calculate_impact Cases.three_draws 1 2) as [[r|]|] eqn:H;
    try (vm_compute in H; discriminate).
  pose proof H as Hr. vm_compute in Hr. injection Hr as Hr.
  exists r. split; [reflexivity|].
  split; [now rewrite <- Hr|]. split; [now rewrite <- Hr|].
  apply (effect_size_zero_spread Cases.three_draws r 1 2 H).
  - now rewrite <- Hr.
  - now rewrite <- Hr.
Defined.

(** X15: for several change points the impact holds one entry for each of
    them. Around a mean that is not negative, with a window after it that
    is not negative, the entry compares the means of the two index ranges
    around it, clipped to the series; its percent change divides by the
    mean before the change point without a guard, and is NaN or an
    infinity when that mean is zero. *)
Theorem multi_impact_windows
  (self : BayesianChangePointModel) (cps : list ChangePoint)
  (window_before window_after : Z) :
  get_change_point_posterior self = Ok (Multiple cps) ->
  0 <= window_after ->
  exists rs,
    calculate_impact self window_before window_after = Ok (ImpactMultiple rs)
    /\ length rs = length cps
    /\ forall i cp, cps !! i = Some cp -> 0 <= cp_mean cp ->
       exists r,
         rs !! i = Some r
         /\ let m := cp_mean cp in
            let n := len (data self) in
            let before := window (data self) (Z.max 0 (m - window_before)) m in
            let after := window (data self) m (Z.min n (m + window_after)) in
            mi_change_point_index r = m
            /\ mi_change_point_date r = cp_mean_date cp
            /\ mi_before_mean r = Np.mean before
            /\ mi_after_mean r = Np.mean after
            /\ mi_mean_change r = F64.sub (Np.mean after) (Np.mean before)
            /\ mi_percent_change r
               = F64.mul (F64.div (mi_mean_change r) (Np.mean before)) F64.f100
            /\ (F64.is_zero (Np.mean before) = true ->
                mi_percent_change r = F64.nan
                \/ F64.is_inf (mi_percent_change r) = true).
Proof.
  intros H Ha.
  eexists. split; [exact (impact_multiple _ _ _ _ H)|].
  split; [apply length_map|].
  intros i cp Hcp Hm. eexists. split.
  { rewrite list_lookup_fmap_Some. eauto. }
  assert (Hn : 0 <= len (data self)) by apply Zle_0_nat.
  cbn [multi_impact mi_change_point_index mi_change_point_date mi_before_mean
       mi_after_mean mi_mean_change mi_percent_change].
  rewrite !slice_window by lia.
  do 6 (split; [reflexivity|]).
  intros Hz.
  destruct (percent_change_zero_denominator
              (Np.mean (window (data self) (cp_mean cp)
                          (Z.min (len (data self)) (cp_mean cp + window_after))))
              _ Hz) as [Hnan Hinf].
  destruct (F64.is_zero _ || F64.is_nan _) eqn:E; [left|right]; auto.
Qed.

Lemma multi_impact_windows_witness :
  exists cps rs,
    get_change_point_posterior Examples.three_change_points = Ok (Multiple cps)
    /\ calculate_impact Examples.three_change_points 1 2 = Ok (ImpactMultiple rs)
    /\ length rs = length cps
    /\ forall i cp, cps !! i = Some cp -> 0 <= cp_mean cp ->
       exists r,
         rs !! i = Some r
         /\ let m := cp_mean cp in
            let n := len (data Examples.three_change_points) in
            let before :=
              window (data Examples.three_change_points) (Z.max 0 (m - 1)) m in
            let after :=
              window (data Examples.three_change_points) m (Z.min n (m + 2)) in
            mi_change_point_index r = m
            /\ mi_change_point_date r = cp_mean_date cp
            /\ mi_before_mean r = Np.mean before
            /\ mi_after_mean r = Np.mean after
            /\ mi_mean_change r = F64.sub (Np.mean after) (Np.mean before)
            /\ mi_percent_change r
               = F64.mul (F64.div (mi_mean_change r) (Np.mean before)) F64.f100
            /\ (F64.is_zero (Np.mean before) = true ->
                mi_percent_change r = F64.nan
                \/ F64.is_inf (mi_percent_change r) = true).
Proof.
  destruct (get_change_point_posterior Examples.three_change_points)
    as [[p|cps]|] eqn:H; try (vm_compute in H; discriminate).
  destruct (multi_impact_windows Examples.three_change_points cps 1 2 H
              ltac:(lia)) as [rs Hrs].
  exists cps, rs. split; [reflexivity|]. exact Hrs.
Defined.

(** ** The model with several change points *)

(** X16: the loop that is to fill [mean_array] runs while the model is
    built, on values of the graph that have no number yet. On a series with
    an observation that is a number its first turn raises, with a
    [TypeError] when a change point is asked for: the builder returns no
    model and the object is left as it was, without one. *)
Theorem builder_loop_raises
  (pm_deterministic : string -> list float -> result tensor)
  (series : list (date * float)) (model_config : option (gmap string cfgval))
  (n_changepoints : Z) (dx : date * float) :
  dx ∈ series -> not_nan (snd dx) ->
  0 <= n_changepoints ->
  exists e,
    build_multiple_change_points_model pm_deterministic
      (init series model_config) n_changepoints
    = (Raise e, init series model_config)
    /\ model (init series model_config) = None
    /\ (1 <= n_changepoints -> e = TypeError).
Proof.
  intros Hin Hx Hk.
  assert (Hn : 0 < n_obs (init series model_config)).
  { cbn [init n_obs]. unfold len.
    assert (Hkept : dx ∈ filter (fun dx : date * float =>
                                   F64.is_nan (snd dx) = false) series).
    { apply list_elem_of_filter. split; assumption. }
    destruct (filter _ series); [now apply elem_of_nil in Hkept | cbn; lia]. }
  destruct (build_multiple_raises pm_deterministic _ n_changepoints Hn)
    as (e & He & Hty).
  exists e. split; [exact He |]. split; [reflexivity | exact Hty].
Qed.

Lemma builder_loop_raises_witness :
  build_multiple_change_points_model Cases.constant (init Cases.prices None) 3
  = (Raise TypeError, init Cases.prices None).
Proof.
  destruct (builder_loop_raises Cases.constant Cases.prices None 3
              (10, F64.of_Z 3)) as (e & He & _ & Hty).
  - apply list_elem_of_here.
  - reflexivity.
  - lia.
  - rewrite He, Hty by lia. reflexivity.
Defined.

(** X17: on an object with observations, [sample] with the type
    ['multiple'] raises while the model is built, whatever the keyword
    arguments are: the result is the same for every sampler and every
    summary, and the object is left as it was. With the default number of
    change points, or a number of at least one, the exception is
    [TypeError]. *)
Theorem multiple_never_sampled
  (pm_deterministic : string -> list float -> result tensor)
  (self : BayesianChangePointModel) (kwargs : gmap string scalar) :
  0 < n_obs self ->
  exists e,
    (forall pm_sample az_summary,
        sample pm_deterministic pm_sample az_summary self "multiple" kwargs
        = (Raise e, self))
    /\ (kwargs !! "n_changepoints" = None
        \/ (exists k, kwargs !! "n_changepoints" = Some (SInt k) /\ 1 <= k) ->
        e = TypeError).
Proof.
  intros Hn. unfold sample, sample_build.
  change (String.eqb "multiple" "single") with false.
  change (String.eqb "multiple" "multiple") with true. cbv iota.
  destruct (kwargs !! "n_changepoints") as [[s|k|x]|] eqn:Hk;
    cbv [default from_option id].
  - exists TypeError. split; [reflexivity | reflexivity].
  - destruct (build_multiple_raises pm_deterministic self k Hn) as (e & -> & Hty).
    exists e. split; [reflexivity |].
    intros [[=] | (k' & [= <-] & Hk')]. apply Hty. exact Hk'.
  - exists TypeError. split; [reflexivity | reflexivity].
  - destruct (build_multiple_raises pm_deterministic self 3 Hn) as (e & -> & Hty).
    exists e. split; [reflexivity |]. intros _. apply Hty. lia.
Qed.

Lemma multiple_never_sampled_witness :
  sample Cases.constant Cases.sampler Cases.summarize (init Cases.prices None)
    "multiple" ∅
  = (Raise TypeError, init Cases.prices None).
Proof.
  destruct (multiple_never_sampled Cases.constant (init Cases.prices None) ∅)
    as (e & He & Hty); [vm_compute; reflexivity |].
  rewrite <- (Hty (or_introl eq_refl)). apply He.
Defined.

(** ** The mean of the model with one change point *)

Lemma zip_with_map_same {A B C D} (f : B -> C -> D) (g : A -> B) (h : A -> C)
  (l : list A) :
  zip_with f (map g l) (map h l) = map (fun x => f (g x) (h x)) l.
Proof. induction l as [|x l IH]; [reflexivity|]. cbn. now rewrite IH. Qed.

Lemma broadcast_map_same {A} (f : float -> float -> float) (g h : A -> float)
  (l : list A) :
  broadcast f (map g l) (map h l) = Some (map (fun x => f (g x) (h x)) l).
Proof.
  destruct l as [|x [|y l]]; [reflexivity..|].
  rewrite <- zip_with_map_same. cbn [map]. unfold broadcast.
  cbn [length]. now rewrite !length_map, Nat.eqb_refl.
Qed.

Lemma broadcast_left (f : float -> float -> float) (x : float) (b : list float) :
  broadcast f [x] b = Some (map (f x) b).
Proof. reflexivity. Qed.

(** X19: in the model with one change point, a draw of the change point,
    the smoothness and the two regime means gives the mean of the
    likelihood one entry for each observation: at position [i] the two
    regime means weighted by [1 - w] and [w], where [w] is the logistic
    function of [(i - tau) / k]. *)
Theorem single_mean_transition
  (sigmoid : float -> float) (self : BayesianChangePointModel)
  (env : gmap string value) (tau k mu1 mu2 : float) :
  env !! "tau" = Some (VFloat [tau]) ->
  env !! "k" = Some (VFloat [k]) ->
  env !! "mu1" = Some (VFloat [mu1]) ->
  env !! "mu2" = Some (VFloat [mu2]) ->
  let weight i := sigmoid (F64.div (F64.sub (F64.of_Z i) tau) k) in
  exists mean ms,
    likelihood_mean (fst (build_single_change_point_model self)) = Some mean
    /\ eval sigmoid env mean = Some (VFloat ms)
    /\ length ms = Z.to_nat (n_obs self)
    /\ ms = map (fun i => F64.add (F64.mul mu1 (F64.sub (F64.of_Z 1) (weight i)))
                            (F64.mul mu2 (weight i)))
              (arange (n_obs self)).
Proof.
  intros Htau Hk Hmu1 Hmu2 weight.
  eexists _, _. split; [reflexivity|].
  assert (Hw : eval sigmoid env
                 (TSigmoid (TDiv (TSub (TArange (n_obs self)) (TVar "tau")) (TVar "k")))
               = Some (VFloat (map weight (arange (n_obs self))))).
  { cbn [eval]. rewrite Htau, Hk. cbn [mbind option_bind floats].
    rewrite broadcast_scalar. cbn [fmap option_fmap option_map mbind option_bind floats].
    rewrite broadcast_scalar. cbn [fmap option_fmap option_map mbind option_bind floats].
    rewrite !map_map. reflexivity. }
  split; [|split].
  - change (eval sigmoid env ?t) with
      (va ← (va ← eval sigmoid env (TVar "mu1");
             vb ← (va ← eval sigmoid env (TInt 1);
                   vb ← eval sigmoid env
                          (TSigmoid (TDiv (TSub (TArange (n_obs self)) (TVar "tau"))
                                       (TVar "k")));
                   VFloat <$> broadcast F64.sub (floats va) (floats vb));
             VFloat <$> broadcast F64.mul (floats va) (floats vb));
       vb ← (va ← eval sigmoid env (TVar "mu2");
             vb ← eval sigmoid env
                    (TSigmoid (TDiv (TSub (TArange (n_obs self)) (TVar "tau"))
                                 (TVar "k")));
             VFloat <$> broadcast F64.mul (floats va) (floats vb));
       VFloat <$> broadcast F64.add (floats va) (floats vb)).
    rewrite Hw. cbn [eval]. rewrite Hmu1, Hmu2.
    cbn [mbind option_bind floats map].
    rewrite !broadcast_left.
    cbn [fmap option_fmap option_map mbind option_bind floats].
    rewrite !broadcast_left.
    cbn [fmap option_fmap option_map mbind option_bind floats].
    rewrite !map_map, broadcast_map_same.
    cbn [fmap option_fmap option_map]. reflexivity.
  - unfold arange. now rewrite !length_map, length_seq.
  - reflexivity.
Qed.

Lemma single_mean_transition_witness :
  let self := init Cases.prices None in
  let env : gmap string value :=
    {[ "tau" := VFloat [F64.of_Z 4]; "k" := VFloat [F64.of_Z 2];
       "mu1" := VFloat [F64.of_Z 0]; "mu2" := VFloat [F64.of_Z 1] ]} in
  let weight i :=
    (fun x : float => x) (F64.div (F64.sub (F64.of_Z i) (F64.of_Z 4)) (F64.of_Z 2)) in
  exists mean ms,
    likelihood_mean (fst (build_single_change_point_model self)) = Some mean
    /\ eval (fun x => x) env mean = Some (VFloat ms)
    /\ length ms = Z.to_nat (n_obs self)
    /\ ms = map (fun i => F64.add
                            (F64.mul (F64.of_Z 0) (F64.sub (F64.of_Z 1) (weight i)))
                            (F64.mul (F64.of_Z 1) (weight i)))
              (arange (n_obs self)).
Proof.
  exact (single_mean_transition (fun x => x) (init Cases.prices None)
           {[ "tau" := VFloat [F64.of_Z 4]; "k" := VFloat [F64.of_Z 2];
              "mu1" := VFloat [F64.of_Z 0]; "mu2" := VFloat [F64.of_Z 1] ]}
           (F64.of_Z 4) (F64.of_Z 2) (F64.of_Z 0) (F64.of_Z 1)
           eq_refl eq_refl eq_refl eq_refl).
Defined.

(** ** Saving the results *)

Lemma io_bind_done {A B} (m : IO A) (k : A -> IO B) (fs fs' : FileSystem) (b : B) :
  io_bind m k fs = (Done b, fs') ->
  exists a fs1, m fs = (Done a, fs1) /\ k a fs1 = (Done b, fs').
Proof.
  unfold io_bind. destruct (m fs) as [[a|e|] fs1]; try discriminate. eauto.
Qed.

Lemma io_bind_failed {A B} (m : IO A) (k : A -> IO B) (fs fs' : FileSystem)
  (e : exn) :
  io_bind m k fs = (Failed e, fs') ->
  (exists a fs1, m fs = (Done a, fs1) /\ k a fs1 = (Failed e, fs'))
  \/ m fs = (Failed e, fs').
Proof.
  unfold io_bind. destruct (m fs) as [[a|e'|] fs1]; try discriminate.
  - eauto.
  - intros [= <- <-]. now right.
Qed.

Lemma lift_done {A} (r : result A) (fs fs1 : FileSystem) (a : A) :
  lift r fs = (Done a, fs1) -> r = Ok a /\ fs1 = fs.
Proof. unfold lift. destruct r; intros [= <- <-]; auto. Qed.

Lemma lift_failed {A} (r : result A) (fs fs1 : FileSystem) (e : exn) :
  lift r fs = (Failed e, fs1) -> r = Raise e /\ fs1 = fs.
Proof. unfold lift. destruct r; intros [= <- <-]; auto. Qed.

Lemma take_prefix (dir : path) (j : nat) : take j dir `prefix_of` dir.
Proof. exists (drop j dir). now rewrite take_drop. Qed.

Lemma output_file_not_prefix (dir : path) (name : string) :
  ~ (dir ++ [name]) `prefix_of` dir.
Proof.
  intros [k Hk]. apply (f_equal length) in Hk.
  rewrite !length_app in Hk. cbn in Hk. lia.
Qed.

Lemma output_file_ne (dir : path) (a b : string) :
  a <> b -> dir ++ [a] <> dir ++ [b].
Proof. intros Hab H. apply app_inv_head in H. congruence. Qed.

Lemma fs_insert_eq (fs : FileSystem) (p : path) (x : entry) :
  <[ p := x ]> fs !! p = Some x.
Proof. apply lookup_insert_eq. Qed.

Lemma fs_insert_ne (fs : FileSystem) (p q : path) (x : entry) :
  p <> q -> <[ p := x ]> fs !! q = fs !! q.
Proof. apply lookup_insert_ne. Qed.

Lemma with_file_eq (o : option payload) (file : path) (fs : FileSystem) :
  with_file o file fs !! file
  = match o with Some p => Some (File p) | None => fs !! file end.
Proof. destruct o; [apply lookup_insert_eq|reflexivity]. Qed.

Lemma with_file_ne (o : option payload) (file : path) (fs : FileSystem) (p : path) :
  file <> p -> with_file o file fs !! p = fs !! p.
Proof. intros H. destruct o; [now apply lookup_insert_ne|reflexivity]. Qed.

Lemma touched_only_refl (dir : path) (fs : FileSystem) : touched_only dir fs fs.
Proof. intros p. now left. Qed.

Lemma touched_only_trans (dir : path) (fs fs1 fs2 : FileSystem) :
  touched_only dir fs fs1 -> touched_only dir fs1 fs2 -> touched_only dir fs fs2.
Proof.
  intros H1 H2 p.
  destruct (H1 p) as [E1|[(Hp1 & Hn1 & Hd1)|(Ho1 & Hn1 & x1 & Hx1)]];
    destruct (H2 p) as [E2|[(Hp2 & Hn2 & Hd2)|(Ho2 & Hn2 & x2 & Hx2)]].
  - left. congruence.
  - right. left. repeat split; congruence.
  - right. right. split; [assumption|]. split; [congruence|eauto].
  - right. left. repeat split; congruence.
  - congruence.
  - congruence.
  - right. right. split; [assumption|]. split; [assumption|].
    exists x1. congruence.
  - congruence.
  - right. right. split; [assumption|]. split; [assumption|eauto].
Qed.

Section DiskLemmas.

Variable mkdir_fault : path -> FileSystem -> bool.
Variable write_fault : path -> payload -> FileSystem -> option fault.

Lemma write_done (file : path) (p : payload) (fs fs1 : FileSystem) (u : unit) :
  write write_fault file p fs = (Done u, fs1) -> fs1 = <[ file := File p ]> fs.
Proof.
  unfold write. destruct (fs !! file) as [[|x]|];
    destruct (write_fault file p fs) as [[|]|]; congruence.
Qed.

Lemma write_not_failed (file : path) (p : payload) (fs fs1 : FileSystem) (e : exn) :
  write write_fault file p fs <> (Failed e, fs1).
Proof.
  unfold write. destruct (fs !! file) as [[|x]|];
    destruct (write_fault file p fs) as [[|]|]; discriminate.
Qed.

Lemma when_write_done {A} (o : option A) (file : path) (g : A -> payload)
  (fs fs1 : FileSystem) (u : unit) :
  when_some o (fun a => write write_fault file (g a)) fs = (Done u, fs1) ->
  fs1 = with_file (g <$> o) file fs.
Proof.
  destruct o as [a|]; cbn.
  - apply write_done.
  - unfold io_ret. congruence.
Qed.

Lemma when_write_not_failed {A} (o : option A) (file : path) (g : A -> payload)
  (fs fs1 : FileSystem) (e : exn) :
  when_some o (fun a => write write_fault file (g a)) fs <> (Failed e, fs1).
Proof.
  destruct o as [a|]; cbn; [apply write_not_failed|discriminate].
Qed.

Lemma mkdir_done (dir : path) (fs fs1 : FileSystem) (u : unit) :
  mkdir mkdir_fault dir fs = (Done u, fs1) ->
  mkdir_from mkdir_fault fs [] dir = (true, fs1).
Proof.
  unfold mkdir. destruct (mkdir_from mkdir_fault fs [] dir) as [[|] fs0]; congruence.
Qed.

Lemma mkdir_not_failed (dir : path) (fs fs1 : FileSystem) (e : exn) :
  mkdir mkdir_fault dir fs <> (Failed e, fs1).
Proof.
  unfold mkdir. destruct (mkdir_from mkdir_fault fs [] dir) as [[|] fs0]; discriminate.
Qed.

(** Of the paths on the way, each is as it was or a directory where nothing
    was, all are directories when the call succeeds, and nothing else
    changes. *)
Lemma mkdir_from_spec (rest : path) (fs : FileSystem) (parent : path)
  (b : bool) (fs' : FileSystem) :
  mkdir_from mkdir_fault fs parent rest = (b, fs') ->
  (forall p,
      (forall j, (0 < j <= length rest)%nat -> p <> parent ++ take j rest) ->
      fs' !! p = fs !! p)
  /\ (forall j, (0 < j <= length rest)%nat ->
        fs' !! (parent ++ take j rest) = fs !! (parent ++ take j rest)
        \/ (fs !! (parent ++ take j rest) = None
            /\ fs' !! (parent ++ take j rest) = Some Dir))
  /\ (b = true ->
      forall j, (0 < j <= length rest)%nat ->
        fs' !! (parent ++ take j rest) = Some Dir).
Proof.
  revert fs parent b fs'. induction rest as [|c rest IH]; intros fs parent b fs';
    cbn [mkdir_from].
  { intros [= <- <-]. split; [reflexivity |].
    split; intros; cbn [length] in *; lia. }
  assert (Hshift : forall j, (parent ++ [c]) ++ take j rest
                             = parent ++ take (S j) (c :: rest)).
  { intros j. now rewrite <- app_assoc. }
  assert (Hdeeper : forall j, (0 < j)%nat ->
            parent ++ [c] <> (parent ++ [c]) ++ take j rest \/ rest = []).
  { intros j Hj. destruct rest as [|c' rest']; [now right | left].
    intros Heq. apply (f_equal length) in Heq.
    rewrite !length_app, length_take in Heq. cbn [length] in Heq. lia. }
  assert (Hkeep : forall b0 fs0 fs1,
            mkdir_from mkdir_fault fs1 (parent ++ [c]) rest = (b0, fs0) ->
            fs0 !! (parent ++ [c]) = fs1 !! (parent ++ [c])).
  { intros b0 fs0 fs1 H. apply IH in H as (Hframe & _ & _). apply Hframe.
    intros j Hj Heq. destruct (Hdeeper j ltac:(lia)) as [Hne | ->];
      [contradiction | cbn [length] in Hj; lia]. }
  destruct (fs !! (parent ++ [c])) as [[|x]|] eqn:E.
  - intros H. pose proof (Hkeep _ _ _ H) as Hself.
    apply IH in H as (Hframe & Hpre & Hdirs). split; [|split].
    + intros p Hp. apply Hframe. intros j Hj. rewrite Hshift.
      apply Hp. cbn [length]. lia.
    + intros [|[|j]] Hj; [lia | |].
      * change (take 1 (c :: rest)) with [c]. left. exact Hself.
      * rewrite <- Hshift. apply Hpre. cbn [length] in Hj. lia.
    + intros Hb [|[|j]] Hj; [lia | |].
      * change (take 1 (c :: rest)) with [c]. rewrite Hself. exact E.
      * rewrite <- Hshift. apply Hdirs; [exact Hb | cbn [length] in Hj; lia].
  - intros [= <- <-]. split; [reflexivity |]. split; [now left | discriminate].
  - destruct (mkdir_fault (parent ++ [c]) fs).
    { intros [= <- <-]. split; [reflexivity |]. split; [now left | discriminate]. }
    intros H. pose proof (Hkeep _ _ _ H) as Hself.
    rewrite fs_insert_eq in Hself.
    apply IH in H as (Hframe & Hpre & Hdirs). split; [|split].
    + intros p Hp. rewrite Hframe.
      * apply fs_insert_ne. intros <-. apply (Hp 1%nat); [cbn [length]; lia |].
        reflexivity.
      * intros j Hj. rewrite Hshift. apply Hp. cbn [length]. lia.
    + intros [|[|j]] Hj; [lia | |].
      * change (take 1 (c :: rest)) with [c]. right. split; assumption.
      * rewrite <- Hshift.
        assert (Hj' : (0 < S j <= length rest)%nat) by (cbn [length] in Hj; lia).
        assert (Hne : parent ++ [c] <> (parent ++ [c]) ++ take (S j) rest).
        { destruct (Hdeeper (S j) ltac:(lia)) as [Hne | ->];
            [exact Hne | cbn [length] in Hj'; lia]. }
        destruct (Hpre (S j) Hj') as [Heq | [Hnone Hdir]].
        -- left. rewrite Heq. apply fs_insert_ne. exact Hne.
        -- right. split; [| exact Hdir].
           rewrite <- Hnone. symmetry. apply fs_insert_ne. exact Hne.
    + intros Hb [|[|j]] Hj; [lia | |].
      * change (take 1 (c :: rest)) with [c]. exact Hself.
      * rewrite <- Hshift. apply Hdirs; [exact Hb | cbn [length] in Hj; lia].
Qed.

Lemma mkdir_from_keeps_files (dir : path) (fs fs0 : FileSystem) (b : bool)
  (name : string) :
  mkdir_from mkdir_fault fs [] dir = (b, fs0) ->
  fs0 !! (dir ++ [name]) = fs !! (dir ++ [name]).
Proof.
  intros H. apply mkdir_from_spec in H as (Hframe & _ & _). apply Hframe.
  intros j _ Heq. cbn in Heq.
  apply (output_file_not_prefix dir name). rewrite Heq. apply take_prefix.
Qed.

Lemma mkdir_from_makes_dir (dir : path) (fs fs0 : FileSystem) :
  mkdir_from mkdir_fault fs [] dir = (true, fs0) -> dir <> [] ->
  fs0 !! dir = Some Dir.
Proof.
  intros H Hne. apply mkdir_from_spec in H as (_ & _ & Hdirs).
  specialize (Hdirs eq_refl (length dir)). cbn in Hdirs.
  rewrite take_ge in Hdirs by lia.
  apply Hdirs. destruct dir; [contradiction|cbn; lia].
Qed.

(** What a call of [save_results] that returns has done. *)
Lemma save_results_done
  (self : BayesianChangePointModel) (dir : path) (fs fs' : FileSystem) (u : unit) :
  save_results mkdir_fault write_fault self dir fs = (Done u, fs') ->
  exists fs0 i im,
    mkdir_from mkdir_fault fs [] dir = (true, fs0)
    /\ get_change_point_posterior self = Ok i
    /\ calculate_impact self 30 30 = Ok im
    /\ fs' = <[ dir ++ ["impact_analysis.json"] := File (ImpactJson im) ]>
               (<[ dir ++ ["change_points.pkl"] := File (PosteriorPickle i) ]>
                  (with_file (TraceNetcdf <$> trace self) (dir ++ ["trace.netcdf"])
                     (with_file (SummaryCsv <$> summary self)
                        (dir ++ ["model_summary.csv"]) fs0))).
Proof.
  unfold save_results. intros H.
  apply io_bind_done in H as (u0 & fs0 & Hmk & H). apply mkdir_done in Hmk.
  apply io_bind_done in H as (u1 & fs1 & H1 & H). apply when_write_done in H1.
  apply io_bind_done in H as (u2 & fs2 & H2 & H). apply when_write_done in H2.
  apply io_bind_done in H as (i & fs3 & H3 & H). apply lift_done in H3 as [Hi ->].
  apply io_bind_done in H as (u4 & fs4 & H4 & H). apply write_done in H4.
  apply io_bind_done in H as (im & fs5 & H5 & H). apply lift_done in H5 as [Him ->].
  apply write_done in H. subst. exists fs0, i, im. auto.
Qed.

(** What a call of [save_results] in which the analysis raises has done. *)
Lemma save_results_failed
  (self : BayesianChangePointModel) (dir : path) (fs fs' : FileSystem) (e : exn) :
  save_results mkdir_fault write_fault self dir fs = (Failed e, fs') ->
  exists fs0,
    mkdir_from mkdir_fault fs [] dir = (true, fs0)
    /\ get_change_point_posterior self = Raise e
    /\ fs' = with_file (TraceNetcdf <$> trace self) (dir ++ ["trace.netcdf"])
               (with_file (SummaryCsv <$> summary self)
                  (dir ++ ["model_summary.csv"]) fs0).
Proof.
  unfold save_results. intros H.
  apply io_bind_failed in H as [(u0 & fs0 & Hmk & H)|H];
    [|now apply mkdir_not_failed in H].
  apply mkdir_done in Hmk.
  apply io_bind_failed in H as [(u1 & fs1 & H1 & H)|H];
    [|now apply when_write_not_failed in H].
  apply when_write_done in H1.
  apply io_bind_failed in H as [(u2 & fs2 & H2 & H)|H];
    [|now apply when_write_not_failed in H].
  apply when_write_done in H2.
  apply io_bind_failed in H as [(i & fs3 & H3 & H)|H].
  - apply lift_done in H3 as [Hi ->].
    apply io_bind_failed in H as [(u4 & fs4 & H4 & H)|H];
      [|now apply write_not_failed in H].
    apply io_bind_failed in H as [(im & fs5 & H5 & H)|H];
      [now apply write_not_failed in H|].
    apply lift_failed in H as [Him _].
    pose proof (impact_ok self i 30 30 Hi) as [im' Him'].
    congruence.
  - apply lift_failed in H as [He ->]. subst. eauto.
Qed.

Lemma mkdir_touched (dir : path) (fs fs' : FileSystem) (o : outcome unit) :
  mkdir mkdir_fault dir fs = (o, fs') -> touched_only dir fs fs'.
Proof.
  unfold mkdir.
  destruct (mkdir_from mkdir_fault fs [] dir) as [b fs0] eqn:Hmk.
  intros H. assert (fs' = fs0) as -> by (destruct b; congruence). clear H.
  apply mkdir_from_spec in Hmk as (Hframe & Hpre & _).
  cbn [app] in *. intros p.
  destruct (decide (p `prefix_of` dir /\ p <> [])) as [[Hp Hne]|Hno].
  - assert (Hj : (0 < length p <= length dir)%nat).
    { split; [destruct p; [contradiction|cbn; lia]|now apply prefix_length]. }
    assert (Htake : take (length p) dir = p).
    { destruct Hp as [k ->]. now rewrite take_app_length. }
    specialize (Hpre _ Hj). rewrite Htake in Hpre.
    destruct Hpre as [Heq | [Hnone Hdir]]; [now left |].
    right. left. auto.
  - left. apply Hframe. intros j Hj ->. apply Hno. split; [apply prefix_take|].
    intros Hnil. apply (f_equal length) in Hnil.
    rewrite length_take in Hnil. cbn in Hnil. lia.
Qed.

Lemma write_touched (dir : path) (file : path) (x : payload)
  (fs fs' : FileSystem) (o : outcome unit) :
  file ∈ output_files dir ->
  write write_fault file x fs = (o, fs') -> touched_only dir fs fs'.
Proof.
  intros Hfile. unfold write.
  assert (Hput : forall y, fs !! file <> Some Dir ->
            touched_only dir fs (<[ file := File y ]> fs)).
  { intros y Hnd p. destruct (decide (file = p)) as [<-|Hne].
    - right. right. split; [assumption|]. split; [assumption|].
      exists y. apply fs_insert_eq.
    - left. now apply fs_insert_ne. }
  destruct (fs !! file) as [[|y]|] eqn:E.
  - intros [= <- <-]. apply touched_only_refl.
  - destruct (write_fault file x fs) as [[|]|]; intros [= <- <-];
      [apply touched_only_refl | apply Hput; congruence | apply Hput; congruence].
  - destruct (write_fault file x fs) as [[|]|]; intros [= <- <-];
      [apply touched_only_refl | apply Hput; congruence | apply Hput; congruence].
Qed.

Lemma when_write_touched {A} (dir : path) (v : option A) (file : path)
  (g : A -> payload) (fs fs' : FileSystem) (o : outcome unit) :
  file ∈ output_files dir ->
  when_some v (fun a => write write_fault file (g a)) fs = (o, fs') ->
  touched_only dir fs fs'.
Proof.
  intros Hfile. destruct v as [a|]; cbn.
  - now apply write_touched.
  - intros [= <- <-]. apply touched_only_refl.
Qed.

End DiskLemmas.

Lemma lift_touched {A} (dir : path) (r : result A)
  (fs fs' : FileSystem) (o : outcome A) :
  lift r fs = (o, fs') -> touched_only dir fs fs'.
Proof.
  unfold lift. destruct r; intros [= <- <-]; apply touched_only_refl.
Qed.

Lemma io_bind_touched {A B} (dir : path) (m : IO A) (k : A -> IO B) :
  (forall fs o fs', m fs = (o, fs') -> touched_only dir fs fs') ->
  (forall a fs o fs', k a fs = (o, fs') -> touched_only dir fs fs') ->
  forall fs o fs', io_bind m k fs = (o, fs') -> touched_only dir fs fs'.
Proof.
  intros Hm Hk fs o fs'. unfold io_bind.
  destruct (m fs) as [[a|e|] fs1] eqn:E; pose proof (Hm _ _ _ E) as Ht.
  - intros H. eapply touched_only_trans; [exact Ht | exact (Hk _ _ _ _ H)].
  - intros [= <- <-]. assumption.
  - intros [= <- <-]. assumption.
Qed.

(** X20: when [save_results] returns, the analysis has succeeded on an
    object with a trace, and the results directory holds the trace, the
    posterior of the change points and the impact for windows of thirty
    days. It holds the summary of the object if there is one; if there is
    none, a summary file that was there before is left as it was. *)
Theorem save_results_writes
  (mkdir_fault : path -> FileSystem -> bool)
  (write_fault : path -> payload -> FileSystem -> option fault)
  (self : BayesianChangePointModel) (output_dir : path)
  (fs fs' : FileSystem) :
  save_results mkdir_fault write_fault self output_dir fs = (Done tt, fs') ->
  exists t i im,
    trace self = Some t
    /\ get_change_point_posterior self = Ok i
    /\ calculate_impact self 30 30 = Ok im
    /\ fs' !! (output_dir ++ ["trace.netcdf"]) = Some (File (TraceNetcdf t))
    /\ fs' !! (output_dir ++ ["change_points.pkl"])
       = Some (File (PosteriorPickle i))
    /\ fs' !! (output_dir ++ ["impact_analysis.json"])
       = Some (File (ImpactJson im))
    /\ fs' !! (output_dir ++ ["model_summary.csv"])
       = match summary self with
         | Some s => Some (File (SummaryCsv s))
         | None => fs !! (output_dir ++ ["model_summary.csv"])
         end
    /\ (output_dir <> [] -> fs' !! output_dir = Some Dir).
Proof.
  intros H. apply save_results_done in H as (fs0 & i & im & Hmk & Hi & Him & ->).
  destruct (posterior_ok_trace _ _ Hi) as [t Ht].
  exists t, i, im. do 3 (split; [assumption|]).
  split; [|split; [|split; [|split]]].
  - rewrite !fs_insert_ne by (apply output_file_ne; discriminate).
    rewrite with_file_eq, Ht. reflexivity.
  - rewrite fs_insert_ne by (apply output_file_ne; discriminate).
    apply fs_insert_eq.
  - apply fs_insert_eq.
  - rewrite !fs_insert_ne by (apply output_file_ne; discriminate).
    rewrite with_file_ne by (apply output_file_ne; discriminate).
    rewrite with_file_eq, (mkdir_from_keeps_files _ _ _ _ _ _ Hmk).
    now destruct (summary self).
  - intros Hne.
    rewrite !fs_insert_ne, !with_file_ne.
    + now apply (mkdir_from_makes_dir _ _ _ _ Hmk).
    + intros Heq. apply (output_file_not_prefix output_dir "model_summary.csv").
      now rewrite Heq.
    + intros Heq. apply (output_file_not_prefix output_dir "trace.netcdf").
      now rewrite Heq.
    + intros Heq. apply (output_file_not_prefix output_dir "change_points.pkl").
      now rewrite Heq.
    + intros Heq. apply (output_file_not_prefix output_dir "impact_analysis.json").
      now rewrite Heq.
Qed.

Lemma save_results_writes_witness :
  exists fs' t i im,
    save_results Cases.willing Cases.writable Cases.three_draws
      ["models"; "saved"] Cases.disk = (Done tt, fs')
    /\ trace Cases.three_draws = Some t
    /\ get_change_point_posterior Cases.three_draws = Ok i
    /\ calculate_impact Cases.three_draws 30 30 = Ok im
    /\ fs' !! (["models"; "saved"] ++ ["trace.netcdf"]) = Some (File (TraceNetcdf t))
    /\ fs' !! (["models"; "saved"] ++ ["change_points.pkl"])
       = Some (File (PosteriorPickle i))
    /\ fs' !! (["models"; "saved"] ++ ["impact_analysis.json"])
       = Some (File (ImpactJson im))
    /\ fs' !! (["models"; "saved"] ++ ["model_summary.csv"])
       = match summary Cases.three_draws with
         | Some s => Some (File (SummaryCsv s))
         | None => Cases.disk !! (["models"; "saved"] ++ ["model_summary.csv"])
         end
    /\ (["models"; "saved"] <> [] -> fs' !! ["models"; "saved"] = Some Dir).
Proof.
  destruct (save_results Cases.willing Cases.writable Cases.three_draws
              ["models"; "saved"] Cases.disk) as [o fs'] eqn:H.
  assert (Ho : Done tt = o).
  { pose proof (f_equal fst H) as Ho. vm_compute in Ho. exact Ho. }
  subst o.
  destruct (save_results_writes Cases.willing Cases.writable Cases.three_draws
              ["models"; "saved"] Cases.disk fs' H) as (t & i & im & Hr).
  exists fs', t, i, im. split; [reflexivity|exact Hr].
Defined.

(** X21: when the analysis raises in [save_results], the exception is
    that of [get_change_point_posterior]; by then the results directory and
    the files of the summary and the trace that the object has are written,
    and the files of the change points and the impact are as they were. *)
Theorem save_results_partial
  (mkdir_fault : path -> FileSystem -> bool)
  (write_fault : path -> payload -> FileSystem -> option fault)
  (self : BayesianChangePointModel) (output_dir : path)
  (fs fs' : FileSystem) (e : exn) :
  save_results mkdir_fault write_fault self output_dir fs = (Failed e, fs') ->
  get_change_point_posterior self = Raise e
  /\ (output_dir <> [] -> fs' !! output_dir = Some Dir)
  /\ fs' !! (output_dir ++ ["model_summary.csv"])
     = match summary self with
       | Some s => Some (File (SummaryCsv s))
       | None => fs !! (output_dir ++ ["model_summary.csv"])
       end
  /\ fs' !! (output_dir ++ ["trace.netcdf"])
     = match trace self with
       | Some t => Some (File (TraceNetcdf t))
       | None => fs !! (output_dir ++ ["trace.netcdf"])
       end
  /\ fs' !! (output_dir ++ ["change_points.pkl"])
     = fs !! (output_dir ++ ["change_points.pkl"])
  /\ fs' !! (output_dir ++ ["impact_analysis.json"])
     = fs !! (output_dir ++ ["impact_analysis.json"]).
Proof.
  intros H. apply save_results_failed in H as (fs0 & Hmk & He & ->).
  split; [assumption|]. split; [|split; [|split; [|split]]].
  - intros Hne. rewrite !with_file_ne.
    + now apply (mkdir_from_makes_dir _ _ _ _ Hmk).
    + intros Heq. apply (output_file_not_prefix output_dir "model_summary.csv").
      now rewrite Heq.
    + intros Heq. apply (output_file_not_prefix output_dir "trace.netcdf").
      now rewrite Heq.
  - rewrite with_file_ne by (apply output_file_ne; discriminate).
    rewrite with_file_eq, (mkdir_from_keeps_files _ _ _ _ _ _ Hmk).
    now destruct (summary self).
  - rewrite with_file_eq, with_file_ne by (apply output_file_ne; discriminate).
    rewrite (mkdir_from_keeps_files _ _ _ _ _ _ Hmk). now destruct (trace self).
  - rewrite !with_file_ne by (apply output_file_ne; discriminate).
    apply (mkdir_from_keeps_files _ _ _ _ _ _ Hmk).
  - rewrite !with_file_ne by (apply output_file_ne; discriminate).
    apply (mkdir_from_keeps_files _ _ _ _ _ _ Hmk).
Qed.

Lemma save_results_partial_witness :
  exists fs',
    save_results Cases.willing Cases.writable Examples.sigma_only ["out"] ∅
    = (Failed (ValueError "No change point variables found in trace"), fs')
    /\ get_change_point_posterior Examples.sigma_only
       = Raise (ValueError "No change point variables found in trace")
    /\ (["out"] <> [] -> fs' !! ["out"] = Some Dir)
    /\ fs' !! (["out"] ++ ["model_summary.csv"])
       = match summary Examples.sigma_only with
         | Some s => Some (File (SummaryCsv s))
         | None => (∅ : FileSystem) !! (["out"] ++ ["model_summary.csv"])
         end
    /\ fs' !! (["out"] ++ ["trace.netcdf"])
       = match trace Examples.sigma_only with
         | Some t => Some (File (TraceNetcdf t))
         | None => (∅ : FileSystem) !! (["out"] ++ ["trace.netcdf"])
         end
    /\ fs' !! (["out"] ++ ["change_points.pkl"])
       = (∅ : FileSystem) !! (["out"] ++ ["change_points.pkl"])
    /\ fs' !! (["out"] ++ ["impact_analysis.json"])
       = (∅ : FileSystem) !! (["out"] ++ ["impact_analysis.json"]).
Proof.
  destruct (save_results Cases.willing Cases.writable Examples.sigma_only
              ["out"] ∅) as [o fs'] eqn:H.
  assert (Ho : Failed (ValueError "No change point variables found in trace") = o).
  { pose proof (f_equal fst H) as Ho. vm_compute in Ho. exact Ho. }
  subst o. exists fs'. split; [reflexivity|].
  exact (save_results_partial Cases.willing Cases.writable Examples.sigma_only
           ["out"] ∅ fs' _ H).
Defined.

(** X22: whatever its outcome, and whatever the operating system and the
    serialisers refuse, [save_results] leaves every path of the disk as it
    was, but for the directories it creates on the way to the results
    directory, where nothing was, and the four output files, which it
    writes where no directory was. *)
Theorem save_results_frame
  (mkdir_fault : path -> FileSystem -> bool)
  (write_fault : path -> payload -> FileSystem -> option fault)
  (self : BayesianChangePointModel) (output_dir : path)
  (fs fs' : FileSystem) (o : outcome unit) :
  save_results mkdir_fault write_fault self output_dir fs = (o, fs') ->
  touched_only output_dir fs fs'.
Proof.
  assert (Hin : forall name,
    name ∈ ["model_summary.csv"; "trace.netcdf"; "change_points.pkl";
            "impact_analysis.json"]%string ->
    output_dir ++ [name] ∈ output_files output_dir).
  { intros name H. unfold output_files.
    apply list_elem_of_fmap. exists name. auto. }
  unfold save_results.
  revert fs o fs'.
  apply io_bind_touched; [intros ? ? ?; apply mkdir_touched|intros _].
  apply io_bind_touched;
    [intros ? ? ?; apply when_write_touched, Hin; set_solver|intros _].
  apply io_bind_touched;
    [intros ? ? ?; apply when_write_touched, Hin; set_solver|intros _].
  apply io_bind_touched; [intros ? ? ?; apply lift_touched|intros cp_info].
  apply io_bind_touched;
    [intros ? ? ?; apply write_touched, Hin; set_solver|intros _].
  apply io_bind_touched; [intros ? ? ?; apply lift_touched|intros impact].
  intros ? ? ?; apply write_touched, Hin; set_solver.
Qed.

Lemma save_results_frame_witness :
  exists fs',
    save_results Cases.willing Cases.read_only Cases.sampled
      ["models"; "saved"] Cases.disk = (OSError, fs')
    /\ touched_only ["models"; "saved"] Cases.disk fs'.
Proof.
  destruct (save_results Cases.willing Cases.read_only Cases.sampled
              ["models"; "saved"] Cases.disk) as [o fs'] eqn:H.
  assert (Ho : OSError = o).
  { pose proof (f_equal fst H) as Ho. vm_compute in Ho. exact Ho. }
  subst o. exists fs'. split; [reflexivity|].
  exact (save_results_frame Cases.willing Cases.read_only Cases.sampled
           ["models"; "saved"] Cases.disk fs' OSError H).
Defined.

(** ** Loading over earlier results *)

(** X23: [load_results] replaces the trace by the one on disk and, when no
    summary file is there, keeps the summary the object had, as it keeps
    the posterior whatever is on disk: on an object that was sampled before,
    [check_convergence] then still reports the diagnostics of the earlier
    run, next to the change points of the loaded trace. *)
Theorem load_keeps_summary
  (self : BayesianChangePointModel) (t0 t : InferenceData) :
  trace self = Some t0 ->
  let loaded := load_results self (Some t) None in
  trace loaded = Some t
  /\ summary loaded = summary self
  /\ posterior loaded = posterior self
  /\ check_convergence loaded = check_convergence self.
Proof.
  intros Ht. cbn. repeat split.
  unfold check_convergence, threshold. cbn. now rewrite Ht.
Qed.

Lemma load_keeps_summary_witness :
  let t := Examples.tau_trace [F64.of_Z 1] in
  let loaded := load_results Cases.sampled (Some t) None in
  trace loaded = Some t
  /\ summary loaded = summary Cases.sampled
  /\ posterior loaded = posterior Cases.sampled
  /\ check_convergence loaded = check_convergence Cases.sampled.
Proof.
  exact (load_keeps_summary Cases.sampled
           (Examples.tau_trace (map F64.of_Z [3; 4; 4]))
           (Examples.tau_trace [F64.of_Z 1]) eq_refl).
Defined.

(** ** The extremes of the diagnostics *)

Lemma pd_max_greatest (l : list float) (acc : float) :
  let m := fold_left (fun acc x =>
             if F64.is_nan x then acc
             else if F64.is_nan acc then x
             else if F64.ltb acc x then x else acc) l acc in
  (not_nan acc -> not_nan m /\ F64.ltb m acc = false)
  /\ Forall (fun x => not_nan x -> not_nan m /\ F64.ltb m x = false) l
  /\ (m = acc \/ m ∈ l).
Proof.
  revert acc. induction l as [|x l IH]; intros acc; cbn [fold_left].
  { split; [|split].
    - intros H. split; [exact H|apply ltb_irrefl].
    - constructor.
    - now left. }
  set (acc' := if F64.is_nan x then acc
               else if F64.is_nan acc then x
               else if F64.ltb acc x then x else acc).
  specialize (IH acc'). cbv zeta in IH. destruct IH as (Hacc & Hall & Hmem).
  set (m := fold_left _ l acc') in *.
  split; [|split].
  - intros Ha. unfold not_nan in Ha. subst acc'.
    destruct (F64.is_nan x) eqn:Hx; [now apply Hacc|].
    rewrite Ha in *. destruct (F64.ltb acc x) eqn:Hlt; [|now apply Hacc].
    destruct (Hacc Hx) as [Hm Hmx]. split; [exact Hm|].
    destruct (F64.ltb m acc) eqn:Hma; [|reflexivity].
    rewrite (ltb_trans _ _ _ Hma Hlt) in Hmx. discriminate.
  - constructor; [|exact Hall].
    intros Hx. unfold not_nan in Hx. subst acc'. rewrite Hx in *.
    destruct (F64.is_nan acc) eqn:Ha; [now apply Hacc|].
    destruct (F64.ltb acc x) eqn:Hlt; [now apply Hacc|].
    destruct (Hacc Ha) as [Hm Hma]. split; [exact Hm|].
    exact (not_ltb_trans m acc x Hm Ha Hx Hma Hlt).
  - destruct Hmem as [->|Hin]; [|right; now right].
    subst acc'. destruct (F64.is_nan x); [now left|].
    destruct (F64.is_nan acc); [right; now left|].
    destruct (F64.ltb acc x); [right; now left|now left].
Qed.

Lemma pd_min_least (l : list float) (acc : float) :
  let m := fold_left (fun acc x =>
             if F64.is_nan x then acc
             else if F64.is_nan acc then x
             else if F64.ltb x acc then x else acc) l acc in
  (not_nan acc -> not_nan m /\ F64.ltb acc m = false)
  /\ Forall (fun x => not_nan x -> not_nan m /\ F64.ltb x m = false) l
  /\ (m = acc \/ m ∈ l).
Proof.
  revert acc. induction l as [|x l IH]; intros acc; cbn [fold_left].
  { split; [|split].
    - intros H. split; [exact H|apply ltb_irrefl].
    - constructor.
    - now left. }
  set (acc' := if F64.is_nan x then acc
               else if F64.is_nan acc then x
               else if F64.ltb x acc then x else acc).
  specialize (IH acc'). cbv zeta in IH. destruct IH as (Hacc & Hall & Hmem).
  set (m := fold_left _ l acc') in *.
  split; [|split].
  - intros Ha. unfold not_nan in Ha. subst acc'.
    destruct (F64.is_nan x) eqn:Hx; [now apply Hacc|].
    rewrite Ha in *. destruct (F64.ltb x acc) eqn:Hlt; [|now apply Hacc].
    destruct (Hacc Hx) as [Hm Hxm]. split; [exact Hm|].
    destruct (F64.ltb acc m) eqn:Ham; [|reflexivity].
    rewrite (ltb_trans _ _ _ Hlt Ham) in Hxm. discriminate.
  - constructor; [|exact Hall].
    intros Hx. unfold not_nan in Hx. subst acc'. rewrite Hx in *.
    destruct (F64.is_nan acc) eqn:Ha; [now apply Hacc|].
    destruct (F64.ltb x acc) eqn:Hlt; [now apply Hacc|].
    destruct (Hacc Ha) as [Hm Ham]. split; [exact Hm|].
    exact (not_ltb_trans x acc m Hx Ha Hm Hlt Ham).
  - destruct Hmem as [->|Hin]; [|right; now right].
    subst acc'. destruct (F64.is_nan x); [now left|].
    destruct (F64.is_nan acc); [right; now left|].
    destruct (F64.ltb x acc); [right; now left|now left].
Qed.

(** X24: when [check_convergence] returns, its three extremes are taken
    over the rows of the summary, skipping what is not a number: no R-hat
    that is a number lies above [rhat_max], no effective sample size below
    [ess_min], no ratio of the Monte Carlo standard error to the standard
    deviation above [mcse_ratio_max]; each extreme is one of the values it
    is taken over, or NaN when none of them is a number. The ratio is
    divided without a guard. [trace_plots_ok] is true whatever the trace. *)
Theorem diagnostics_extremes
  (self : BayesianChangePointModel) (d : Diagnostics) :
  check_convergence self = Ok d ->
  exists s,
    summary self = Some s
    /\ trace_plots_ok d = true
    /\ (let ratios := map (fun r => F64.div (sr_mcse_mean r) (sr_sd r)) s in
        mcse_ratio_max d = Np.pd_max ratios
        /\ Forall (fun x => not_nan x ->
                     not_nan (mcse_ratio_max d)
                     /\ F64.ltb (mcse_ratio_max d) x = false) ratios
        /\ (mcse_ratio_max d = F64.nan \/ mcse_ratio_max d ∈ ratios))
    /\ (let rhats := map sr_r_hat s in
        Forall (fun x => not_nan x ->
                  not_nan (rhat_max d) /\ F64.ltb (rhat_max d) x = false) rhats
        /\ (rhat_max d = F64.nan \/ rhat_max d ∈ rhats))
    /\ (let ess := map sr_ess_bulk s in
        Forall (fun x => not_nan x ->
                  not_nan (ess_min d) /\ F64.ltb x (ess_min d) = false) ess
        /\ (ess_min d = F64.nan \/ ess_min d ∈ ess)).
Proof.
  unfold check_convergence. destruct (trace self); [|discriminate].
  destruct (summary self) as [s|]; [|discriminate].
  intros H. apply bind_ok in H as (rt & _ & H).
  apply bind_ok in H as (et & _ & [= <-]).
  exists s. split; [reflexivity|]. split; [reflexivity|].
  cbn [mcse_ratio_max rhat_max ess_min]. unfold Np.pd_max, Np.pd_min.
  split; [|split].
  - pose proof (pd_max_greatest
                  (map (fun r => F64.div (sr_mcse_mean r) (sr_sd r)) s) F64.nan)
      as (_ & Hall & Hmem).
    cbv zeta. split; [reflexivity|]. split; [exact Hall|exact Hmem].
  - pose proof (pd_max_greatest (map sr_r_hat s) F64.nan) as (_ & Hall & Hmem).
    cbv zeta. split; [exact Hall|exact Hmem].
  - pose proof (pd_min_least (map sr_ess_bulk s) F64.nan) as (_ & Hall & Hmem).
    cbv zeta. split; [exact Hall|exact Hmem].
Qed.

Lemma diagnostics_extremes_witness :
  exists d s,
    check_convergence Examples.converged = Ok d
    /\ ess_min d = F64.of_Z 450
    /\ summary Examples.converged = Some s
    /\ trace_plots_ok d = true
    /\ (let ratios := map (fun r => F64.div (sr_mcse_mean r) (sr_sd r)) s in
        mcse_ratio_max d = Np.pd_max ratios
        /\ Forall (fun x => not_nan x ->
                     not_nan (mcse_ratio_max d)
                     /\ F64.ltb (mcse_ratio_max d) x = false) ratios
        /\ (mcse_ratio_max d = F64.nan \/ mcse_ratio_max d ∈ ratios))
    /\ (let rhats := map sr_r_hat s in
        Forall (fun x => not_nan x ->
                  not_nan (rhat_max d) /\ F64.ltb (rhat_max d) x = false) rhats
        /\ (rhat_max d = F64.nan \/ rhat_max d ∈ rhats))
    /\ (let ess := map sr_ess_bulk s in
        Forall (fun x => not_nan x ->
                  not_nan (ess_min d) /\ F64.ltb x (ess_min d) = false) ess
        /\ (ess_min d = F64.nan \/ ess_min d ∈ ess)).
Proof.
  destruct (check_convergence Examples.converged) as [d|] eqn:H;
    [|vm_compute in H; discriminate].
  destruct (diagnostics_extremes Examples.converged d H) as [s Hs].
  exists d, s. split; [reflexivity|].
  split; [vm_compute in H; now injection H as <-|]. exact Hs.
Defined.
